(** * Pidroid: the leveling engine, reward resolution and role-change queue

    A shallow embedding of the database-facing part of
    [pidroid/utils/api.py]: the [UserLevels], [LevelRewards],
    [RoleChangeQueue], [Punishments] and [PunishmentCounters] tables and
    the [API] methods that read and write them.

    Modelling conventions.
    - A table is the list of its rows in storage order; a [select] is a
      [filter] over that list, [fetchone] is the head of the result and
      [fetchall] the whole result.
    - [BigInteger] columns and Python integers are modelled as [Z].  The
      range check of the storage layer is a storage failure, which the
      methods propagate to their caller, and is not modelled.
    - A primary key is drawn from the table's sequence, kept next to the
      rows.
    - The [while True] loop of [award_xp] is a fuel-indexed function; that
      the loop returns is a theorem, not an assumption. *)

From Stdlib Require Import ZArith List Bool Lia Sorted Permutation.
From Stdlib Require String.
Import String.StringSyntax.
Delimit Scope string_scope with string.
Import ListNotations.

Local Open Scope Z_scope.

(** ** Tables *)

Module UserLevelsTable.
Record t : Type := mk {
  id : Z;
  guild_id : Z;
  user_id : Z;
  total_xp : Z;
  current_xp : Z;
  xp_to_next_level : Z;
  level : Z;
  progress_character : option String.string
}.
End UserLevelsTable.

Module LevelRewardsTable.
Record t : Type := mk {
  id : Z;
  guild_id : Z;
  level : Z;
  role_id : Z
}.
End LevelRewardsTable.

(** A table with a serial primary key: the rows and the next value of the
    key's sequence. *)
Record Stored (row : Type) : Type := mkStored {
  rows : list row;
  next_id : Z
}.
Arguments mkStored {row} _ _.
Arguments rows {row} _.
Arguments next_id {row} _.

Definition empty_table {row : Type} : Stored row := mkStored [] 1.

(** ** Member level information *)

Module MemberLevelInfo.
(** Modelled from the spec: the class [MemberLevelInfo] of
    [pidroid/utils/levels.py] is not among the sources.  Its fields are
    the arguments of the constructor calls in [award_xp] and
    [fetch_ranked_user_level_info] and the attributes [award_xp]
    reads. *)
Record t : Type := mk {
  row : Z;
  guild_id : Z;
  user_id : Z;
  total_xp : Z;
  current_xp : Z;
  xp_to_level_up : Z;
  current_level : Z;
  progress_character : option String.string;
  rank : option Z
}.

(** Modelled from the spec: [MemberLevelInfo.from_table] is not among
    the sources; it copies the columns of the row, as the data model of
    the specification describes, and leaves the rank out. *)
Definition from_table (r : UserLevelsTable.t) : t :=
  {| row := UserLevelsTable.id r;
     guild_id := UserLevelsTable.guild_id r;
     user_id := UserLevelsTable.user_id r;
     total_xp := UserLevelsTable.total_xp r;
     current_xp := UserLevelsTable.current_xp r;
     xp_to_level_up := UserLevelsTable.xp_to_next_level r;
     current_level := UserLevelsTable.level r;
     progress_character := UserLevelsTable.progress_character r;
     rank := None |}.
End MemberLevelInfo.

(** ** User levels *)

Definition UserLevels : Type := Stored UserLevelsTable.t.

(** The filter [guild_id == g, user_id == u] of the queries below. *)
Definition is_member_row (guild_id user_id : Z) (r : UserLevelsTable.t) : bool :=
  (UserLevelsTable.guild_id r =? guild_id) && (UserLevelsTable.user_id r =? user_id).

Definition fetch_user_level_info (db : UserLevels) (guild_id user_id : Z)
  : option MemberLevelInfo.t :=
  match filter (is_member_row guild_id user_id) (rows db) with
  | r :: _ => Some (MemberLevelInfo.from_table r)
  | [] => None
  end.

(** The entry that [insert_member_level_info] adds: only the guild and the
    user are given, every other column takes its server default. *)
Definition new_entry (id guild_id user_id : Z) : UserLevelsTable.t :=
  {| UserLevelsTable.id := id;
     UserLevelsTable.guild_id := guild_id;
     UserLevelsTable.user_id := user_id;
     UserLevelsTable.total_xp := 0;
     UserLevelsTable.current_xp := 0;
     UserLevelsTable.xp_to_next_level := 100;
     UserLevelsTable.level := 0;
     UserLevelsTable.progress_character := None |}.

(** [insert_member_level_info]: adds the entry, then reads it back.  The
    result is [None] where the source's [assert info is not None] fails. *)
Definition insert_member_level_info (db : UserLevels) (guild_id user_id : Z)
  : UserLevels * option MemberLevelInfo.t :=
  let db' := mkStored (rows db ++ [new_entry (next_id db) guild_id user_id])
                      (next_id db + 1) in
  (db', fetch_user_level_info db' guild_id user_id).

(** The body of the [while True] loop of [award_xp], run for at most
    [fuel] tests of its condition.  [None] means the fuel ran out. *)
Fixpoint level_loop (fuel : nat) (new_xp new_xp_to_next_level new_level : Z)
  : option (Z * Z * Z) :=
  match fuel with
  | O => None
  | S fuel' =>
      if new_xp >=? new_xp_to_next_level then
        let new_level := new_level + 1 in
        let new_xp := new_xp - new_xp_to_next_level in
        let new_xp_to_next_level := 5 * (new_level ^ 2) + (50 * new_level) + 100 in
        level_loop fuel' new_xp new_xp_to_next_level new_level
      else
        Some (new_xp, new_xp_to_next_level, new_level)
  end.

(** The [update ... filter ... values] statement of [award_xp]. *)
Definition update_levels (guild_id member_id : Z)
    (new_xp new_xp_to_next_level amount new_level : Z)
    (r : UserLevelsTable.t) : UserLevelsTable.t :=
  if is_member_row guild_id member_id r then
    {| UserLevelsTable.id := UserLevelsTable.id r;
       UserLevelsTable.guild_id := UserLevelsTable.guild_id r;
       UserLevelsTable.user_id := UserLevelsTable.user_id r;
       UserLevelsTable.total_xp := UserLevelsTable.total_xp r + amount;
       UserLevelsTable.current_xp := new_xp;
       UserLevelsTable.xp_to_next_level := new_xp_to_next_level;
       UserLevelsTable.level := new_level;
       UserLevelsTable.progress_character := UserLevelsTable.progress_character r |}
  else r.

(** A guild message written by a member: the two assertions at the head
    of [award_xp] restrict it to such messages. *)
Record Message : Type := mkMessage {
  message_id : Z;
  guild : Z;
  author : Z
}.

(** The arguments of [client.dispatch('pidroid_level_up', ...)]. *)
Record pidroid_level_up : Type := mk_level_up {
  event_member : Z;
  event_message : Message;
  event_before : MemberLevelInfo.t;
  event_after : MemberLevelInfo.t
}.

(** Failures of [award_xp] that the model keeps apart. *)
Inductive outcome (A : Type) : Type :=
| Returned (a : A)
| AssertionError
| OutOfFuel.
Arguments Returned {A} _.
Arguments AssertionError {A}.
Arguments OutOfFuel {A}.

(** [award_xp]: the new table and the event dispatched, if any. *)
Definition award_xp (fuel : nat) (db : UserLevels) (message : Message) (amount : Z)
  : outcome (UserLevels * option pidroid_level_up) :=
  let guild_id := guild message in
  let member_id := author message in
  let fetched := fetch_user_level_info db guild_id member_id in
  let '(db, new_insert, info) :=
    match fetched with
    | None =>
        let '(db', info) := insert_member_level_info db guild_id member_id in
        (db', true, info)
    | Some info => (db, false, Some info)
    end in
  match info with
  | None => AssertionError
  | Some info =>
      let original_xp := MemberLevelInfo.current_xp info in
      let original_level := MemberLevelInfo.current_level info in
      let original_xp_to_next_lvl := MemberLevelInfo.xp_to_level_up info in
      match level_loop fuel (original_xp + amount) original_xp_to_next_lvl original_level with
      | None => OutOfFuel
      | Some (new_xp, new_xp_to_next_level, new_level) =>
          let db' :=
            mkStored
              (map (update_levels guild_id member_id new_xp new_xp_to_next_level amount new_level)
                   (rows db))
              (next_id db) in
          let dispatched :=
            if new_insert || negb (new_level =? original_level) then
              Some {| event_member := author message;
                      event_message := message;
                      event_before := info;
                      event_after :=
                        MemberLevelInfo.mk
                          (MemberLevelInfo.row info)
                          guild_id
                          member_id
                          (MemberLevelInfo.total_xp info + amount)
                          new_xp
                          new_xp_to_next_level
                          new_level
                          (MemberLevelInfo.progress_character info)
                          None |}
            else None in
          Returned (db', dispatched)
      end
  end.

(** A run of awards to the author of one message's guild, one after the
    other, each on the table the previous one left. *)
Fixpoint award_xp_all (fuel : nat) (db : UserLevels) (message : Message)
    (amounts : list Z) : outcome UserLevels :=
  match amounts with
  | [] => Returned db
  | amount :: amounts' =>
      match award_xp fuel db message amount with
      | Returned (db', _) => award_xp_all fuel db' message amounts'
      | AssertionError => AssertionError
      | OutOfFuel => OutOfFuel
      end
  end.

(** A fuel-indexed computation returns [r] when every large enough fuel
    gives [r]. *)
Definition returns {A : Type} (run : nat -> outcome A) (r : A) : Prop :=
  exists n : nat, forall fuel : nat, (n <= fuel)%nat -> run fuel = Returned r.

(** *** The contract of the award, in the words of the specification *)

(** The level-up curve. *)
Definition curve (level : Z) : Z := 5 * level ^ 2 + 50 * level + 100.

(** "While [xp >= xp_to_next_level]: [level += 1]; [xp -= xp_to_next_level];
    [xp_to_next_level = 5*level^2 + 50*level + 100]": the states
    [(xp, xp_to_next_level, level)] the loop starts and ends in. *)
Inductive levels_up : Z * Z * Z -> Z * Z * Z -> Prop :=
| levels_up_done (xp xp_to_next_level level : Z) :
    xp < xp_to_next_level ->
    levels_up (xp, xp_to_next_level, level) (xp, xp_to_next_level, level)
| levels_up_next (xp xp_to_next_level level : Z) (final : Z * Z * Z) :
    xp >= xp_to_next_level ->
    levels_up (xp - xp_to_next_level, curve (level + 1), level + 1) final ->
    levels_up (xp, xp_to_next_level, level) final.

(** The state an award starts from: the member's row or, where there is
    none, the freshly created one. *)
Definition spec_initial_state (id guild_id user_id : Z) : MemberLevelInfo.t :=
  MemberLevelInfo.mk id guild_id user_id 0 0 100 0 None None.

Definition state_before (db : UserLevels) (message : Message) : MemberLevelInfo.t :=
  match fetch_user_level_info db (guild message) (author message) with
  | Some info => info
  | None => spec_initial_state (next_id db) (guild message) (author message)
  end.

(** ** Level rewards *)

Module LevelReward.
(** Modelled from the spec: the class [LevelReward] of
    [pidroid/utils/levels.py] is not among the sources; one reward per
    row of the table, mapping a level of a guild to a role. *)
Record t : Type := mk {
  id : Z;
  guild_id : Z;
  role_id : Z;
  level : Z
}.

(** Modelled from the spec: [LevelReward.from_table] is not among the
    sources; it copies the columns of the row. *)
Definition from_table (r : LevelRewardsTable.t) : t :=
  {| id := LevelRewardsTable.id r;
     guild_id := LevelRewardsTable.guild_id r;
     role_id := LevelRewardsTable.role_id r;
     level := LevelRewardsTable.level r |}.
End LevelReward.

Definition LevelRewards : Type := Stored LevelRewardsTable.t.

(** [order_by(LevelRewardsTable.level.desc())]: a stable insertion sort,
    highest level first.  Rows of equal level keep their storage order,
    where the database promises no order at all. *)
Fixpoint insert_level_desc (r : LevelRewardsTable.t) (sorted : list LevelRewardsTable.t)
  : list LevelRewardsTable.t :=
  match sorted with
  | [] => [r]
  | x :: sorted' =>
      if LevelRewardsTable.level x <=? LevelRewardsTable.level r
      then r :: x :: sorted'
      else x :: insert_level_desc r sorted'
  end.

Definition order_by_level_desc (l : list LevelRewardsTable.t) : list LevelRewardsTable.t :=
  fold_right insert_level_desc [] l.

Definition fetch_eligible_level_rewards_for_level (db : LevelRewards) (guild_id level : Z)
  : list LevelReward.t :=
  let result :=
    order_by_level_desc
      (filter (fun r => (LevelRewardsTable.guild_id r =? guild_id)
                        && (LevelRewardsTable.level r <=? level))
              (rows db)) in
  map LevelReward.from_table result.

Definition fetch_eligible_level_reward_for_level (db : LevelRewards) (guild_id level : Z)
  : option LevelReward.t :=
  let rewards := fetch_eligible_level_rewards_for_level db guild_id level in
  if (Z.of_nat (length rewards) =? 0) then None else hd_error rewards.

Definition _fetch_previous_level_reward (db : LevelRewards) (guild_id level : Z)
  : option LevelReward.t :=
  let result :=
    order_by_level_desc
      (filter (fun r => (LevelRewardsTable.guild_id r =? guild_id)
                        && (LevelRewardsTable.level r <? level))
              (rows db)) in
  match result with
  | r :: _ => Some (LevelReward.from_table r)
  | [] => None
  end.

Definition _fetch_next_level_reward (db : LevelRewards) (guild_id level : Z)
  : option LevelReward.t :=
  let result :=
    order_by_level_desc
      (filter (fun r => (LevelRewardsTable.guild_id r =? guild_id)
                        && (LevelRewardsTable.level r >? level))
              (rows db)) in
  match result with
  | r :: _ => Some (LevelReward.from_table r)
  | [] => None
  end.

(** *** The companion queries, in the words of the specification *)

(** The rewards of a guild that a query may answer with. *)
Definition reward_of_guild (db : LevelRewards) (guild_id : Z) (r : LevelReward.t) : Prop :=
  exists x, In x (rows db) /\ LevelRewardsTable.guild_id x = guild_id
            /\ r = LevelReward.from_table x.

(** "The nearest reward strictly below a given level". *)
Definition nearest_below (db : LevelRewards) (guild_id level : Z) (r : LevelReward.t) : Prop :=
  reward_of_guild db guild_id r /\ LevelReward.level r < level /\
  forall r', reward_of_guild db guild_id r' -> LevelReward.level r' < level ->
             LevelReward.level r' <= LevelReward.level r.

(** "The nearest reward strictly above a given level". *)
Definition nearest_above (db : LevelRewards) (guild_id level : Z) (r : LevelReward.t) : Prop :=
  reward_of_guild db guild_id r /\ level < LevelReward.level r /\
  forall r', reward_of_guild db guild_id r' -> level < LevelReward.level r' ->
             LevelReward.level r <= LevelReward.level r'.

(** "The reward with the highest level value such that
    [reward.level <= level]". *)
Definition highest_eligible (db : LevelRewards) (guild_id level : Z) (r : LevelReward.t) : Prop :=
  reward_of_guild db guild_id r /\ LevelReward.level r <= level /\
  forall r', reward_of_guild db guild_id r' -> LevelReward.level r' <= level ->
             LevelReward.level r' <= LevelReward.level r.

(** ** The role-change queue *)

(** Modelled from the spec: the enum [RoleAction] of
    [pidroid/models/role_changes.py] is not among the sources.  Its two
    members are the grant and the revoke of the specification. *)
Inductive RoleAction : Type := revoke | grant.

(** Modelled from the spec: the values of [RoleAction] are the ones
    [fetch_role_changes] compares the action column with: 1 is collected
    under the label [role_added], 0 under [role_removed]. *)
Definition RoleAction_value (action : RoleAction) : Z :=
  match action with
  | revoke => 0
  | grant => 1
  end.

(** Modelled from the spec: the enum [RoleQueueState] of
    [pidroid/models/role_changes.py] is not among the sources; the
    specification names its three members.  Their numbers are unknown, so
    the status column holds the member itself. *)
Inductive RoleQueueState : Type := enqueued | processing | done.

Module RoleChangeQueueTable.
Record t : Type := mk {
  id : Z;
  action : Z;
  status : RoleQueueState;
  guild_id : Z;
  member_id : Z;
  role_id : Z;
  date_created : Z
}.
End RoleChangeQueueTable.

Module MemberRoleChanges.
(** Modelled from the spec: the class [MemberRoleChanges] of
    [pidroid/models/role_changes.py] is not among the sources; its fields
    are the arguments [fetch_role_changes] constructs it with.  An
    aggregate over no row is SQL's [NULL], Python's [None]. *)
Record t : Type := mk {
  guild_id : Z;
  member_id : Z;
  ids : option (list Z);
  roles_added : option (list Z);
  roles_removed : option (list Z)
}.
End MemberRoleChanges.

Definition RoleChangeQueue : Type := Stored RoleChangeQueueTable.t.

(** [insert_role_change]; [now] is the clock that [func.now()] reads. *)
Definition insert_role_change (now : Z) (q : RoleChangeQueue)
    (action : RoleAction) (guild_id member_id role_id : Z) : RoleChangeQueue :=
  let entry :=
    {| RoleChangeQueueTable.id := next_id q;
       RoleChangeQueueTable.action := RoleAction_value action;
       RoleChangeQueueTable.status := enqueued;
       RoleChangeQueueTable.guild_id := guild_id;
       RoleChangeQueueTable.member_id := member_id;
       RoleChangeQueueTable.role_id := role_id;
       RoleChangeQueueTable.date_created := now |} in
  mkStored (rows q ++ [entry]) (next_id q + 1).

(** [func.array_agg]: the values in row order, [NULL] over no row. *)
Definition array_agg (values : list Z) : option (list Z) :=
  match values with
  | [] => None
  | _ :: _ => Some values
  end.

(** The keys of [group_by(member_id)], each once. *)
Definition group_keys (selected : list RoleChangeQueueTable.t) : list Z :=
  nodup Z.eq_dec (map RoleChangeQueueTable.member_id selected).

Definition fetch_role_changes (q : RoleChangeQueue) (guild_id : Z)
  : list MemberRoleChanges.t :=
  let selected :=
    filter (fun e => RoleChangeQueueTable.guild_id e =? guild_id) (rows q) in
  let result :=
    map (fun member_id =>
           let group :=
             filter (fun e => RoleChangeQueueTable.member_id e =? member_id) selected in
           (array_agg (map RoleChangeQueueTable.id group),
            member_id,
            array_agg (map RoleChangeQueueTable.role_id
                         (filter (fun e => RoleChangeQueueTable.action e =? 1) group)),
            array_agg (map RoleChangeQueueTable.role_id
                         (filter (fun e => RoleChangeQueueTable.action e =? 0) group))))
        (group_keys selected) in
  map (fun '(ids, member_id, roles_added, roles_removed) =>
         MemberRoleChanges.mk guild_id member_id ids roles_added roles_removed)
      result.

Definition delete_role_changes (q : RoleChangeQueue) (ids : list Z) : RoleChangeQueue :=
  mkStored
    (filter (fun e => negb (existsb (Z.eqb (RoleChangeQueueTable.id e)) ids)) (rows q))
    (next_id q).

(** The role ids an aggregate holds; none for [NULL]. *)
Definition role_ids (aggregate : option (list Z)) : list Z :=
  match aggregate with
  | Some l => l
  | None => []
  end.

(** *** The grouping, in the words of the specification *)

(** The entries of the queue that belong to a member of a guild. *)
Definition entries_of (q : RoleChangeQueue) (guild_id member_id : Z)
  : list RoleChangeQueueTable.t :=
  filter (fun e => (RoleChangeQueueTable.guild_id e =? guild_id)
                   && (RoleChangeQueueTable.member_id e =? member_id))
         (rows q).

(** An entry is pending while its status is [enqueued]. *)
Definition pending (e : RoleChangeQueueTable.t) : Prop :=
  RoleChangeQueueTable.status e = enqueued.

(** "For each member: the list of entry IDs, the set of role IDs to add
    (action = grant), the set of role IDs to remove (action = revoke)". *)
Definition changes_of (q : RoleChangeQueue) (c : MemberRoleChanges.t) : Prop :=
  let mine := entries_of q (MemberRoleChanges.guild_id c) (MemberRoleChanges.member_id c) in
  mine <> [] /\
  MemberRoleChanges.ids c = Some (map RoleChangeQueueTable.id mine) /\
  (forall role, In role (role_ids (MemberRoleChanges.roles_added c)) <->
     exists e, In e mine /\ RoleChangeQueueTable.action e = RoleAction_value grant
               /\ RoleChangeQueueTable.role_id e = role) /\
  (forall role, In role (role_ids (MemberRoleChanges.roles_removed c)) <->
     exists e, In e mine /\ RoleChangeQueueTable.action e = RoleAction_value revoke
               /\ RoleChangeQueueTable.role_id e = role).

(** The queues the methods build: from the empty one by insertions and
    deletions. *)
Inductive queue_built : RoleChangeQueue -> Prop :=
| built_empty : queue_built empty_table
| built_insert now q action guild_id member_id role_id :
    queue_built q ->
    queue_built (insert_role_change now q action guild_id member_id role_id)
| built_delete q ids :
    queue_built q -> queue_built (delete_role_changes q ids).

(** ** Auxiliary definitions of the proofs *)

(** What is left to pay before the loop stops: the surplus of the points
    over the threshold, and 30 points for every level below -2 still to
    cross, which covers the at most 25 points a negative threshold gives
    back. *)
Definition slack (xp thr lvl : Z) : Z := xp - thr + 30 * Z.max 0 (-2 - lvl).

(** The number of condition tests that is always enough. *)
Definition enough_fuel (xp thr lvl : Z) : nat := S (Z.to_nat (slack xp thr lvl + 1)).

(** The rows an award updates: those of the table, and the member's new
    row where the member had none. *)
Definition rows_with_member (db : UserLevels) (message : Message) : list UserLevelsTable.t :=
  match fetch_user_level_info db (guild message) (author message) with
  | Some _ => rows db
  | None => rows db ++ [new_entry (next_id db) (guild message) (author message)]
  end.

Definition sequence_after (db : UserLevels) (message : Message) : Z :=
  match fetch_user_level_info db (guild message) (author message) with
  | Some _ => next_id db
  | None => next_id db + 1
  end.

(** The table an award leaves, given the state its loop ended in. *)
Definition awarded (db : UserLevels) (message : Message) (amount : Z) (final : Z * Z * Z)
  : UserLevels :=
  let '(xp, thr, lvl) := final in
  mkStored
    (map (update_levels (guild message) (author message) xp thr amount lvl)
         (rows_with_member db message))
    (sequence_after db message).

(** The member's state after an award, given the one before it. *)
Definition info_after (before : MemberLevelInfo.t) (message : Message) (amount : Z)
    (final : Z * Z * Z) : MemberLevelInfo.t :=
  let '(xp, thr, lvl) := final in
  MemberLevelInfo.mk
    (MemberLevelInfo.row before) (guild message) (author message)
    (MemberLevelInfo.total_xp before + amount) xp thr lvl
    (MemberLevelInfo.progress_character before) None.

Definition newly_created (db : UserLevels) (message : Message) : bool :=
  match fetch_user_level_info db (guild message) (author message) with
  | Some _ => false
  | None => true
  end.

(** The event an award dispatches, given the state its loop ended in. *)
Definition level_up_event (db : UserLevels) (message : Message) (amount : Z)
    (final : Z * Z * Z) : option pidroid_level_up :=
  let before := state_before db message in
  if newly_created db message
     || negb (snd final =? MemberLevelInfo.current_level before)
  then Some (mk_level_up (author message) message before
                         (info_after before message amount final))
  else None.

(** The three numbers the loop works on, read off a member's state. *)
Definition loop_state (info : MemberLevelInfo.t) : Z * Z * Z :=
  (MemberLevelInfo.current_xp info,
   MemberLevelInfo.xp_to_level_up info,
   MemberLevelInfo.current_level info).

Definition loop_start (info : MemberLevelInfo.t) (amount : Z) : Z * Z * Z :=
  (MemberLevelInfo.current_xp info + amount,
   MemberLevelInfo.xp_to_level_up info,
   MemberLevelInfo.current_level info).

(** A list of rows ordered by level, highest first. *)
Definition descending (l : list LevelRewardsTable.t) : Prop :=
  StronglySorted (fun a b => LevelRewardsTable.level b <= LevelRewardsTable.level a) l.

(** The group of a member in the selection of [fetch_role_changes]. *)
Definition group_of (q : RoleChangeQueue) (guild_id member_id : Z)
  : list RoleChangeQueueTable.t :=
  filter (fun e => RoleChangeQueueTable.member_id e =? member_id)
         (filter (fun e => RoleChangeQueueTable.guild_id e =? guild_id) (rows q)).

(** The result of [fetch_role_changes] for one key of the grouping. *)
Definition changes_for (q : RoleChangeQueue) (guild_id member_id : Z) : MemberRoleChanges.t :=
  MemberRoleChanges.mk guild_id member_id
    (array_agg (map RoleChangeQueueTable.id (group_of q guild_id member_id)))
    (array_agg (map RoleChangeQueueTable.role_id
                  (filter (fun e => RoleChangeQueueTable.action e =? 1)
                          (group_of q guild_id member_id))))
    (array_agg (map RoleChangeQueueTable.role_id
                  (filter (fun e => RoleChangeQueueTable.action e =? 0)
                          (group_of q guild_id member_id)))).

(** The sum of the amounts of a run of awards. *)
Definition sum_of (amounts : list Z) : Z := fold_right Z.add 0 amounts.

(** *** The notification and the frame, in the words of the specification *)

(** "Emits a level-up notification exactly when the member's level
    increased, or when the state was newly created and ends above level
    0." *)
Definition notifies_as_specified (db : UserLevels) (message : Message) (amount : Z) : Prop :=
  forall (db' : UserLevels) (event : option pidroid_level_up) (info' : MemberLevelInfo.t),
    returns (fun fuel => award_xp fuel db message amount) (db', event) ->
    fetch_user_level_info db' (guild message) (author message) = Some info' ->
    (event <> None <->
     MemberLevelInfo.current_level (state_before db message)
       < MemberLevelInfo.current_level info'
     \/ (newly_created db message = true /\ 0 < MemberLevelInfo.current_level info')).

(** What an award to a member of a guild may change of a row: nothing of
    another member's row, and of the member's own neither the key, nor
    the guild, nor the user, nor the progress character. *)
Definition framed (guild_id member_id : Z) (r r' : UserLevelsTable.t) : Prop :=
  UserLevelsTable.id r' = UserLevelsTable.id r
  /\ UserLevelsTable.guild_id r' = UserLevelsTable.guild_id r
  /\ UserLevelsTable.user_id r' = UserLevelsTable.user_id r
  /\ UserLevelsTable.progress_character r' = UserLevelsTable.progress_character r
  /\ (~ (UserLevelsTable.guild_id r = guild_id /\ UserLevelsTable.user_id r = member_id)
      -> r' = r).

(** ** Sample data *)

(** An existing row and a member without one, on which the theorems are
    tried. *)
Definition sample_levels : UserLevels :=
  mkStored
    [ UserLevelsTable.mk 1 10 20 650 30 220 2 (Some "#"%string);
      UserLevelsTable.mk 2 10 21 40 40 100 0 None;
      UserLevelsTable.mk 3 11 20 0 0 100 0 None ]
    4.

Definition sample_message : Message := mkMessage 900 10 20.

Definition newcomer_message : Message := mkMessage 901 10 77.

(** Rewards of guild 10 at levels 5, 10 and 20, and one of guild 11. *)
Definition sample_rewards : LevelRewards :=
  mkStored
    [ LevelRewardsTable.mk 1 10 10 510;
      LevelRewardsTable.mk 2 11 7 700;
      LevelRewardsTable.mk 3 10 20 520;
      LevelRewardsTable.mk 4 10 5 505 ]
    5.

(** Member 20 of guild 10 is granted role 7, then has it revoked. *)
Definition grant_then_revoke : RoleChangeQueue :=
  insert_role_change 1001 (insert_role_change 1000 empty_table grant 10 20 7) revoke 10 20 7.

(** ** Further methods: level rewards *)

(** The events of the reward methods: the arguments of
    [client.dispatch('pidroid_level_reward_add', ...)] and
    [client.dispatch("pidroid_level_reward_remove", ...)], each the result
    of a [fetch_level_reward_by_id]. *)
Inductive level_reward_event : Type :=
| pidroid_level_reward_add (reward : option LevelReward.t)
| pidroid_level_reward_remove (reward : option LevelReward.t).

Definition fetch_level_reward_by_id (db : LevelRewards) (id : Z) : option LevelReward.t :=
  match filter (fun r => LevelRewardsTable.id r =? id) (rows db) with
  | r :: _ => Some (LevelReward.from_table r)
  | [] => None
  end.

Definition fetch_level_reward_by_role (db : LevelRewards) (guild_id role_id : Z)
  : option LevelReward.t :=
  match filter (fun r => (LevelRewardsTable.guild_id r =? guild_id)
                         && (LevelRewardsTable.role_id r =? role_id))
               (rows db) with
  | r :: _ => Some (LevelReward.from_table r)
  | [] => None
  end.

Definition fetch_guild_level_reward_by_level (db : LevelRewards) (guild_id level : Z)
  : option LevelReward.t :=
  match filter (fun r => (LevelRewardsTable.guild_id r =? guild_id)
                         && (LevelRewardsTable.level r =? level))
               (rows db) with
  | r :: _ => Some (LevelReward.from_table r)
  | [] => None
  end.

Definition fetch_all_guild_level_rewards (db : LevelRewards) (guild_id : Z)
  : list LevelReward.t :=
  let result :=
    order_by_level_desc
      (filter (fun r => LevelRewardsTable.guild_id r =? guild_id) (rows db)) in
  map LevelReward.from_table result.

(** [insert_level_reward]: the new table, the event dispatched and the
    key returned. *)
Definition insert_level_reward (db : LevelRewards) (guild_id role_id level : Z)
  : LevelRewards * level_reward_event * Z :=
  let entry :=
    {| LevelRewardsTable.id := next_id db;
       LevelRewardsTable.guild_id := guild_id;
       LevelRewardsTable.level := level;
       LevelRewardsTable.role_id := role_id |} in
  let db' := mkStored (rows db ++ [entry]) (next_id db + 1) in
  (db',
   pidroid_level_reward_add (fetch_level_reward_by_id db' (LevelRewardsTable.id entry)),
   LevelRewardsTable.id entry).

Definition update_level_reward_by_id (db : LevelRewards) (id role_id level : Z)
  : LevelRewards :=
  mkStored
    (map (fun r =>
            if LevelRewardsTable.id r =? id then
              {| LevelRewardsTable.id := LevelRewardsTable.id r;
                 LevelRewardsTable.guild_id := LevelRewardsTable.guild_id r;
                 LevelRewardsTable.level := level;
                 LevelRewardsTable.role_id := role_id |}
            else r)
         (rows db))
    (next_id db).

Definition _delete_level_reward (db : LevelRewards) (id : Z)
  : LevelRewards * level_reward_event :=
  let obj := fetch_level_reward_by_id db id in
  let db' :=
    mkStored (filter (fun r => negb (LevelRewardsTable.id r =? id)) (rows db))
             (next_id db) in
  (db', pidroid_level_reward_remove obj).

(** A table whose keys are distinct and all below the next value of the
    sequence, as every table is that the methods built. *)
Definition well_keyed {row : Type} (key : row -> Z) (t : Stored row) : Prop :=
  NoDup (map key (rows t)) /\ Forall (fun r => key r < next_id t) (rows t).

(** Rewards ordered by level, highest first. *)
Definition rewards_descending (l : list LevelReward.t) : Prop :=
  StronglySorted (fun a b => LevelReward.level b <= LevelReward.level a) l.

(** ** Further methods: member levels *)

(** Modelled from the spec: [MemberLevelInfo.from_table] with its
    optional second argument, the rank, as [fetch_guild_level_rankings]
    calls it; the columns are copied as without the rank. *)
Definition from_table_ranked (r : UserLevelsTable.t) (rank : Z) : MemberLevelInfo.t :=
  MemberLevelInfo.mk
    (UserLevelsTable.id r) (UserLevelsTable.guild_id r) (UserLevelsTable.user_id r)
    (UserLevelsTable.total_xp r) (UserLevelsTable.current_xp r)
    (UserLevelsTable.xp_to_next_level r) (UserLevelsTable.level r)
    (UserLevelsTable.progress_character r) (Some rank).

(** [func.rank().over(order_by=UserLevelsTable.total_xp.desc())]: one more
    than the number of selected rows with a strictly higher total. *)
Definition rank_over_total_xp (selected : list UserLevelsTable.t) (r : UserLevelsTable.t) : Z :=
  1 + Z.of_nat
        (List.length
           (filter (fun x => UserLevelsTable.total_xp r <? UserLevelsTable.total_xp x)
                   selected)).

(** [order_by(UserLevelsTable.total_xp.desc())], a stable insertion sort
    as for the rewards. *)
Fixpoint insert_total_xp_desc (r : UserLevelsTable.t) (sorted : list UserLevelsTable.t)
  : list UserLevelsTable.t :=
  match sorted with
  | [] => [r]
  | x :: sorted' =>
      if UserLevelsTable.total_xp x <=? UserLevelsTable.total_xp r
      then r :: x :: sorted'
      else x :: insert_total_xp_desc r sorted'
  end.

Definition order_by_total_xp_desc (l : list UserLevelsTable.t) : list UserLevelsTable.t :=
  fold_right insert_total_xp_desc [] l.

(** [fetch_guild_level_rankings]; [limit] and [offset] are not negative,
    the database refuses them otherwise. *)
Definition fetch_guild_level_rankings (db : UserLevels) (guild_id start limit : Z)
  : list MemberLevelInfo.t :=
  let selected := filter (fun r => UserLevelsTable.guild_id r =? guild_id) (rows db) in
  let result :=
    firstn (Z.to_nat limit)
      (skipn (Z.to_nat start)
         (map (fun r => (r, rank_over_total_xp selected r))
              (order_by_total_xp_desc selected))) in
  map (fun '(r, rank) => from_table_ranked r rank) result.

Definition fetch_guild_level_infos (db : UserLevels) (guild_id : Z) : list MemberLevelInfo.t :=
  map MemberLevelInfo.from_table
      (filter (fun r => UserLevelsTable.guild_id r =? guild_id) (rows db)).

Definition fetch_ranked_user_level_info (db : UserLevels) (guild_id user_id : Z)
  : option MemberLevelInfo.t :=
  let selected := filter (fun r => UserLevelsTable.guild_id r =? guild_id) (rows db) in
  let subquery := map (fun r => (r, rank_over_total_xp selected r)) selected in
  match filter (fun '(r, _) => UserLevelsTable.user_id r =? user_id) subquery with
  | (r, rank) :: _ =>
      Some (MemberLevelInfo.mk
              (UserLevelsTable.id r)
              (UserLevelsTable.guild_id r) (UserLevelsTable.user_id r)
              (UserLevelsTable.total_xp r) (UserLevelsTable.current_xp r)
              (UserLevelsTable.xp_to_next_level r) (UserLevelsTable.level r)
              (UserLevelsTable.progress_character r)
              (Some rank))
  | [] => None
  end.

Definition fetch_user_level_info_between (db : UserLevels) (guild_id min_level : Z)
    (max_level : option Z) : list MemberLevelInfo.t :=
  let stmt :=
    filter (fun r => (UserLevelsTable.guild_id r =? guild_id)
                     && (UserLevelsTable.level r >=? min_level))
           (rows db) in
  let stmt :=
    match max_level with
    | Some max_level => filter (fun r => UserLevelsTable.level r <? max_level) stmt
    | None => stmt
    end in
  map MemberLevelInfo.from_table stmt.


(** The member a row belongs to. *)
Definition member_of (r : UserLevelsTable.t) : Z * Z :=
  (UserLevelsTable.guild_id r, UserLevelsTable.user_id r).

(** At most one row per member of a guild. *)
Definition one_row_per_member (db : UserLevels) : Prop :=
  NoDup (map member_of (rows db)).

(** Member states ordered by total, highest first. *)
Definition totals_descending (l : list MemberLevelInfo.t) : Prop :=
  StronglySorted
    (fun a b => MemberLevelInfo.total_xp b <= MemberLevelInfo.total_xp a) l.

(** The number of rows of a guild with a strictly higher total. *)
Definition members_ahead (db : UserLevels) (guild_id total : Z) : Z :=
  Z.of_nat
    (List.length
       (filter (fun x => total <? UserLevelsTable.total_xp x)
               (filter (fun r => UserLevelsTable.guild_id r =? guild_id) (rows db)))).

(** A member's state with a rank attached. *)
Definition with_rank (info : MemberLevelInfo.t) (rank : Z) : MemberLevelInfo.t :=
  MemberLevelInfo.mk
    (MemberLevelInfo.row info) (MemberLevelInfo.guild_id info)
    (MemberLevelInfo.user_id info) (MemberLevelInfo.total_xp info)
    (MemberLevelInfo.current_xp info) (MemberLevelInfo.xp_to_level_up info)
    (MemberLevelInfo.current_level info) (MemberLevelInfo.progress_character info)
    (Some rank).


(** ** Further definitions: draining the role-change queue *)

(** The ids an aggregate of ids holds. *)
Definition entry_ids (c : MemberRoleChanges.t) : list Z :=
  role_ids (MemberRoleChanges.ids c).

(** All entry ids of a fetched batch, as the consumer passes them to
    [delete_role_changes] once the changes are applied. *)
Definition fetched_ids (changes : list MemberRoleChanges.t) : list Z :=
  flat_map entry_ids changes.

(** ** Further methods: punishments *)

Module PunishmentCounterTable.
Record t : Type := mk {
  id : Z;
  guild_id : Z;
  counter : Z
}.
End PunishmentCounterTable.

(** Dates are points of one clock, as integers. *)
Module PunishmentTable.
Record t : Type := mk {
  id : Z;
  case_id : Z;
  type : String.string;
  guild_id : Z;
  user_id : Z;
  user_name : option String.string;
  moderator_id : Z;
  moderator_name : option String.string;
  reason : option String.string;
  issue_date : Z;
  expire_date : option Z;
  handled : bool;
  visible : bool
}.
End PunishmentTable.

(** The two tables of the punishment methods. *)
Record Punishments : Type := mkPunishments {
  counters : Stored PunishmentCounterTable.t;
  cases : Stored PunishmentTable.t
}.

Definition no_punishments : Punishments := mkPunishments empty_table empty_table.

(** Modelled from the spec: the class [Case] of
    [pidroid/models/punishments.py] is not among the sources;
    [Case._from_table] reads a row of the table, and the model keeps that
    row. *)
Definition Case : Type := PunishmentTable.t.

(** What [insert_punishment_entry] ends in. *)
Inductive insertion (A : Type) : Type :=
| Inserted (a : A)
| RuntimeError
| CaseNotFound.
Arguments Inserted {A} _.
Arguments RuntimeError {A}.
Arguments CaseNotFound {A}.

(** The statement [pg_insert(PunishmentCounterTable).values(guild_id)
    .on_conflict_do_update(set counter = counter + 1).returning(counter)]:
    a guild without a counter gets one at the server default 1, a guild
    with a counter has it incremented; the new counter is returned.  The
    key of the proposed row is drawn from the sequence in both cases. *)
Definition next_case_counter (t : Stored PunishmentCounterTable.t) (guild_id : Z)
  : Stored PunishmentCounterTable.t * option Z :=
  match filter (fun r => PunishmentCounterTable.guild_id r =? guild_id) (rows t) with
  | [] =>
      (mkStored (rows t ++ [PunishmentCounterTable.mk (next_id t) guild_id 1])
                (next_id t + 1),
       Some 1)
  | r :: _ =>
      (mkStored
         (map (fun x =>
                 if PunishmentCounterTable.guild_id x =? guild_id then
                   PunishmentCounterTable.mk
                     (PunishmentCounterTable.id x)
                     (PunishmentCounterTable.guild_id x)
                     (PunishmentCounterTable.counter x + 1)
                 else x)
              (rows t))
         (next_id t + 1),
       Some (PunishmentCounterTable.counter r + 1))
  end.

Definition __fetch_case_by_internal_id (db : Punishments) (id : Z) : option Case :=
  match filter (fun r => PunishmentTable.id r =? id) (rows (cases db)) with
  | r :: _ => Some r
  | [] => None
  end.

(** [insert_punishment_entry]; [now] is the clock that the default of
    [issue_date] reads. *)
Definition insert_punishment_entry (now : Z) (db : Punishments)
    (type : String.string) (guild_id : Z)
    (user_id : Z) (user_name : String.string)
    (moderator_id : Z) (moderator_name : String.string)
    (reason : option String.string) (expire_date : option Z)
  : insertion (Punishments * Case) :=
  let '(counters', row) := next_case_counter (counters db) guild_id in
  match row with
  | None => RuntimeError
  | Some counter =>
      let entry :=
        {| PunishmentTable.id := next_id (cases db);
           PunishmentTable.case_id := counter;
           PunishmentTable.type := type;
           PunishmentTable.guild_id := guild_id;
           PunishmentTable.user_id := user_id;
           PunishmentTable.user_name := Some user_name;
           PunishmentTable.moderator_id := moderator_id;
           PunishmentTable.moderator_name := Some moderator_name;
           PunishmentTable.reason := reason;
           PunishmentTable.issue_date := now;
           PunishmentTable.expire_date := expire_date;
           PunishmentTable.handled := false;
           PunishmentTable.visible := true |} in
      let db' :=
        mkPunishments counters'
          (mkStored (rows (cases db) ++ [entry]) (next_id (cases db) + 1)) in
      match __fetch_case_by_internal_id db' (PunishmentTable.id entry) with
      | None => CaseNotFound
      | Some case => Inserted (db', case)
      end
  end.

Definition _fetch_case (db : Punishments) (guild_id case_id : Z) : option Case :=
  match filter (fun r => (PunishmentTable.case_id r =? case_id)
                         && (PunishmentTable.guild_id r =? guild_id)
                         && Bool.eqb (PunishmentTable.visible r) true)
               (rows (cases db)) with
  | r :: _ => Some r
  | [] => None
  end.

Definition update_case_by_internal_id (db : Punishments) (id : Z)
    (reason : option String.string) (expire_date : option Z) (visible handled : bool)
  : Punishments :=
  mkPunishments (counters db)
    (mkStored
       (map (fun r =>
               if PunishmentTable.id r =? id then
                 {| PunishmentTable.id := PunishmentTable.id r;
                    PunishmentTable.case_id := PunishmentTable.case_id r;
                    PunishmentTable.type := PunishmentTable.type r;
                    PunishmentTable.guild_id := PunishmentTable.guild_id r;
                    PunishmentTable.user_id := PunishmentTable.user_id r;
                    PunishmentTable.user_name := PunishmentTable.user_name r;
                    PunishmentTable.moderator_id := PunishmentTable.moderator_id r;
                    PunishmentTable.moderator_name := PunishmentTable.moderator_name r;
                    PunishmentTable.reason := reason;
                    PunishmentTable.issue_date := PunishmentTable.issue_date r;
                    PunishmentTable.expire_date := expire_date;
                    PunishmentTable.handled := handled;
                    PunishmentTable.visible := visible |}
               else r)
            (rows (cases db)))
       (next_id (cases db))).

(** [expire_cases_by_type]; [type_value] is the [value] of the member of
    the enum [PunishmentType], which is not among the sources, and [now]
    is the clock that [utcnow()] reads. *)
Definition expire_cases_by_type (now : Z) (db : Punishments)
    (type_value : String.string) (guild_id user_id : Z) : Punishments :=
  mkPunishments (counters db)
    (mkStored
       (map (fun r =>
               if String.eqb (PunishmentTable.type r) type_value
                  && (PunishmentTable.guild_id r =? guild_id)
                  && (PunishmentTable.user_id r =? user_id)
               then
                 {| PunishmentTable.id := PunishmentTable.id r;
                    PunishmentTable.case_id := PunishmentTable.case_id r;
                    PunishmentTable.type := PunishmentTable.type r;
                    PunishmentTable.guild_id := PunishmentTable.guild_id r;
                    PunishmentTable.user_id := PunishmentTable.user_id r;
                    PunishmentTable.user_name := PunishmentTable.user_name r;
                    PunishmentTable.moderator_id := PunishmentTable.moderator_id r;
                    PunishmentTable.moderator_name := PunishmentTable.moderator_name r;
                    PunishmentTable.reason := PunishmentTable.reason r;
                    PunishmentTable.issue_date := PunishmentTable.issue_date r;
                    PunishmentTable.expire_date := Some now;
                    PunishmentTable.handled := true;
                    PunishmentTable.visible := PunishmentTable.visible r |}
               else r)
            (rows (cases db)))
       (next_id (cases db))).

(** The dictionary that [fetch_moderation_statistics] returns. *)
Record moderation_statistics : Type := mk_statistics {
  bans : Z;
  kicks : Z;
  jails : Z;
  warnings : Z;
  user_total : Z;
  guild_total : Z
}.

(** One pass of the tally loop of [fetch_moderation_statistics]. *)
Definition tally (acc : Z * Z * Z * Z * Z) (p_val : String.string) : Z * Z * Z * Z * Z :=
  let '(bans, kicks, jails, warnings, user_total) := acc in
  let user_total := user_total + 1 in
  let bans := if String.eqb p_val "ban" then bans + 1 else bans in
  let kicks := if String.eqb p_val "kick" then kicks + 1 else kicks in
  let jails := if String.eqb p_val "jail" then jails + 1 else jails in
  let warnings := if String.eqb p_val "warning" then warnings + 1 else warnings in
  (bans, kicks, jails, warnings, user_total).

Definition fetch_moderation_statistics (db : Punishments) (guild_id moderator_id : Z)
  : moderation_statistics :=
  let result :=
    map PunishmentTable.type
        (filter (fun r => (PunishmentTable.guild_id r =? guild_id)
                          && (PunishmentTable.moderator_id r =? moderator_id)
                          && Bool.eqb (PunishmentTable.visible r) true)
                (rows (cases db))) in
  let '(bans, kicks, jails, warnings, user_total) :=
    fold_left tally result (0, 0, 0, 0, 0) in
  let guild_total :=
    Z.of_nat
      (List.length
         (filter (fun r => (PunishmentTable.guild_id r =? guild_id)
                           && Bool.eqb (PunishmentTable.visible r) true)
                 (rows (cases db)))) in
  mk_statistics bans kicks jails warnings user_total guild_total.

Definition __is_currently_punished (now : Z) (db : Punishments)
    (punishment_type : String.string) (guild_id user_id : Z) : bool :=
  let count :=
    Z.of_nat
      (List.length
         (filter (fun r =>
                    match PunishmentTable.expire_date r with
                    | None => true
                    | Some expire_date => expire_date >? now
                    end)
            (filter (fun r => String.eqb (PunishmentTable.type r) punishment_type
                              && (PunishmentTable.guild_id r =? guild_id)
                              && (PunishmentTable.user_id r =? user_id)
                              && Bool.eqb (PunishmentTable.visible r) true)
                    (rows (cases db))))) in
  count >? 0.

Section PunishmentTypes.

(** The values of the members [jail] and [ban] of the enum
    [PunishmentType], which is not among the sources. *)
Variables jail_value ban_value : String.string.

Definition is_currently_jailed (now : Z) (db : Punishments) (guild_id user_id : Z) : bool :=
  __is_currently_punished now db jail_value guild_id user_id.

Definition fetch_active_guild_bans (now : Z) (db : Punishments) (guild_id : Z) : list Case :=
  filter (fun r =>
            (PunishmentTable.guild_id r =? guild_id)
            && match PunishmentTable.expire_date r with
               | Some expire_date => expire_date <=? now
               | None => false
               end
            && match PunishmentTable.expire_date r with
               | Some _ => true
               | None => false
               end
            && Bool.eqb (PunishmentTable.handled r) false
            && String.eqb (PunishmentTable.type r) ban_value
            && Bool.eqb (PunishmentTable.visible r) true)
         (rows (cases db)).

End PunishmentTypes.

(** The case ids of a guild, in storage order, and the counter of the
    guild, 0 where it has none. *)
Definition case_ids (db : Punishments) (guild_id : Z) : list Z :=
  map PunishmentTable.case_id
      (filter (fun r => PunishmentTable.guild_id r =? guild_id) (rows (cases db))).

Definition counter_of (db : Punishments) (guild_id : Z) : Z :=
  match filter (fun r => PunishmentCounterTable.guild_id r =? guild_id)
               (rows (counters db)) with
  | r :: _ => PunishmentCounterTable.counter r
  | [] => 0
  end.

(** The numbers 1 to [n]. *)
Definition one_to (n : nat) : list Z := map Z.of_nat (seq 1 n).

(** The cases of every guild are numbered 1, 2, 3, ... in the order of
    their insertion, and the counter of the guild is their number. *)
Definition numbered (db : Punishments) : Prop :=
  well_keyed PunishmentTable.id (cases db)
  /\ forall guild_id,
       case_ids db guild_id = one_to (List.length (case_ids db guild_id))
       /\ counter_of db guild_id = Z.of_nat (List.length (case_ids db guild_id)).

(** The databases the punishment methods build. *)
Inductive punishments_built : Punishments -> Prop :=
| built_none : punishments_built no_punishments
| built_punishment now db type guild_id user_id user_name moderator_id moderator_name
    reason expire_date db' case :
    punishments_built db ->
    insert_punishment_entry now db type guild_id user_id user_name
      moderator_id moderator_name reason expire_date = Inserted (db', case) ->
    punishments_built db'
| built_update db id reason expire_date visible handled :
    punishments_built db ->
    punishments_built (update_case_by_internal_id db id reason expire_date visible handled)
| built_expire now db type_value guild_id user_id :
    punishments_built db ->
    punishments_built (expire_cases_by_type now db type_value guild_id user_id).

(** The number of visible cases of a type that a moderator issued in a
    guild. *)
Definition issued (db : Punishments) (guild_id moderator_id : Z) (type : String.string) : Z :=
  Z.of_nat
    (List.length
       (filter (fun r => String.eqb (PunishmentTable.type r) type)
          (filter (fun r => (PunishmentTable.guild_id r =? guild_id)
                            && (PunishmentTable.moderator_id r =? moderator_id)
                            && PunishmentTable.visible r)
                  (rows (cases db))))).

(** Cases of guild 10: a ban, a case of an unknown type and a hidden jail
    by moderator 30, a kick by moderator 31. *)
Definition sample_cases : Punishments :=
  mkPunishments empty_table
    (mkStored
       [PunishmentTable.mk 1 1 "ban"%string 10 20 None 30 None None 5000 None false true;
        PunishmentTable.mk 2 2 "mute"%string 10 21 None 30 None None 5001 None false true;
        PunishmentTable.mk 3 3 "kick"%string 10 22 None 31 None None 5002 None false true;
        PunishmentTable.mk 4 4 "jail"%string 10 23 None 30 None None 5003 None false false]
       5).

(** * Theorems *)

(** ** The level-up loop *)

Section LevelLoop.

(** The curve never drops below -25, and it is at least 20 from level -2
    on; levels -7 to -3 are the only ones with a negative threshold. *)
Lemma curve_square (level : Z) : curve level = 5 * ((level + 5) * (level + 5)) - 25.
Proof. unfold curve. rewrite Z.pow_2_r. ring. Qed.

Lemma curve_lower_bound (level : Z) : -25 <= curve level.
Proof. rewrite curve_square. pose proof (Z.square_nonneg (level + 5)). lia. Qed.

Lemma curve_positive (level : Z) : -2 <= level -> 20 <= curve level.
Proof. rewrite curve_square. intros H. nia. Qed.

Lemma curve_from_zero (level : Z) : 0 <= level -> 100 <= curve level.
Proof. rewrite curve_square. intros H. nia. Qed.

Lemma level_loop_unfold (fuel : nat) (xp thr lvl : Z) :
  level_loop (S fuel) xp thr lvl =
  if xp >=? thr then level_loop fuel (xp - thr) (curve (lvl + 1)) (lvl + 1)
  else Some (xp, thr, lvl).
Proof. reflexivity. Qed.

Lemma slack_decreases (xp thr lvl : Z) :
  xp >= thr ->
  0 <= slack xp thr lvl /\
  slack (xp - thr) (curve (lvl + 1)) (lvl + 1) < slack xp thr lvl.
Proof.
  intros Hge. unfold slack.
  pose proof (curve_lower_bound (lvl + 1)) as Hlow.
  destruct (Z_le_gt_dec (-3) lvl) as [Hhigh | Hdeep].
  - pose proof (curve_positive (lvl + 1) ltac:(lia)). lia.
  - lia.
Qed.

Lemma level_loop_enough_fuel (fuel : nat) :
  forall xp thr lvl : Z,
    slack xp thr lvl < Z.of_nat fuel ->
    exists r, level_loop (S fuel) xp thr lvl = Some r.
Proof.
  induction fuel as [| fuel IH]; intros xp thr lvl Hslack;
    rewrite level_loop_unfold; destruct (xp >=? thr) eqn:Hcond;
    try (eexists; reflexivity).
  - apply Z.geb_le in Hcond.
    destruct (slack_decreases xp thr lvl); lia.
  - apply Z.geb_le in Hcond.
    apply IH. destruct (slack_decreases xp thr lvl); lia.
Qed.

Lemma level_loop_more_fuel (fuel : nat) :
  forall (xp thr lvl : Z) (r : Z * Z * Z) (fuel' : nat),
    level_loop fuel xp thr lvl = Some r ->
    (fuel <= fuel')%nat ->
    level_loop fuel' xp thr lvl = Some r.
Proof.
  induction fuel as [| fuel IH]; intros xp thr lvl r fuel' Hrun Hle.
  - discriminate.
  - destruct fuel' as [| fuel']; [lia |].
    rewrite level_loop_unfold in *.
    destruct (xp >=? thr); [| assumption].
    apply IH; [assumption | lia].
Qed.

Lemma level_loop_total (xp thr lvl : Z) :
  exists r, forall fuel, (enough_fuel xp thr lvl <= fuel)%nat ->
                         level_loop fuel xp thr lvl = Some r.
Proof.
  destruct (level_loop_enough_fuel (Z.to_nat (slack xp thr lvl + 1)) xp thr lvl) as [r Hr].
  - lia.
  - exists r. intros fuel Hle. eapply level_loop_more_fuel; eassumption.
Qed.

(** The loop function runs the loop of the specification. *)
Lemma level_loop_levels_up (fuel : nat) :
  forall (xp thr lvl : Z) (r : Z * Z * Z),
    level_loop fuel xp thr lvl = Some r -> levels_up (xp, thr, lvl) r.
Proof.
  induction fuel as [| fuel IH]; intros xp thr lvl r Hrun.
  - discriminate.
  - rewrite level_loop_unfold in Hrun.
    destruct (xp >=? thr) eqn:Hcond.
    + apply levels_up_next; [apply Z.geb_le in Hcond; lia | now apply IH].
    + injection Hrun as <-. apply levels_up_done.
      rewrite Z.geb_leb in Hcond. apply Z.leb_gt in Hcond. exact Hcond.
Qed.

Lemma levels_up_stops (s r : Z * Z * Z) :
  levels_up s r -> fst (fst r) < snd (fst r).
Proof. induction 1; simpl; assumption. Qed.

Lemma levels_up_level_grows (s r : Z * Z * Z) :
  levels_up s r -> snd s <= snd r.
Proof. induction 1; simpl in *; lia. Qed.

Lemma levels_up_same_level (s r : Z * Z * Z) :
  levels_up s r -> snd s = snd r -> r = s.
Proof.
  induction 1 as [| xp thr lvl final Hge Hrun IH]; intros Hlevel; [reflexivity |].
  apply levels_up_level_grows in Hrun. simpl in *. lia.
Qed.

Lemma levels_up_deterministic (s r1 r2 : Z * Z * Z) :
  levels_up s r1 -> levels_up s r2 -> r1 = r2.
Proof.
  intros H1. revert r2.
  induction H1 as [xp thr lvl Hlt | xp thr lvl final Hge Hrun IH]; intros r2 H2;
    inversion H2; subst; try lia; auto.
Qed.

End LevelLoop.

(** ** Reading and writing a member's row *)

Section MemberRow.

Variables guild_id user_id : Z.

Lemma is_member_row_update (xp thr amount lvl : Z) (r : UserLevelsTable.t) :
  is_member_row guild_id user_id (update_levels guild_id user_id xp thr amount lvl r)
  = is_member_row guild_id user_id r.
Proof.
  unfold update_levels.
  destruct (is_member_row guild_id user_id r) eqn:Hrow; [| exact Hrow].
  exact Hrow.
Qed.

Lemma filter_update_levels (xp thr amount lvl : Z) (rs : list UserLevelsTable.t) :
  filter (is_member_row guild_id user_id)
         (map (update_levels guild_id user_id xp thr amount lvl) rs)
  = map (update_levels guild_id user_id xp thr amount lvl)
        (filter (is_member_row guild_id user_id) rs).
Proof.
  induction rs as [| r rs IH]; [reflexivity |].
  simpl. rewrite is_member_row_update.
  destruct (is_member_row guild_id user_id r); simpl; now rewrite IH.
Qed.

Lemma fetch_new_entry (db : UserLevels) (next : Z) :
  fetch_user_level_info db guild_id user_id = None ->
  fetch_user_level_info
    (mkStored (rows db ++ [new_entry (next_id db) guild_id user_id]) next)
    guild_id user_id
  = Some (spec_initial_state (next_id db) guild_id user_id).
Proof.
  unfold fetch_user_level_info. simpl. intros Hnone.
  rewrite filter_app.
  destruct (filter (is_member_row guild_id user_id) (rows db)); [| discriminate].
  simpl. unfold is_member_row. simpl. now rewrite !Z.eqb_refl.
Qed.

Lemma fetch_updated (rs : list UserLevelsTable.t) (next next' : Z)
    (xp thr amount lvl : Z) (info : MemberLevelInfo.t) :
  fetch_user_level_info (mkStored rs next) guild_id user_id = Some info ->
  fetch_user_level_info
    (mkStored (map (update_levels guild_id user_id xp thr amount lvl) rs) next')
    guild_id user_id
  = Some (MemberLevelInfo.mk
            (MemberLevelInfo.row info) (MemberLevelInfo.guild_id info)
            (MemberLevelInfo.user_id info) (MemberLevelInfo.total_xp info + amount)
            xp thr lvl (MemberLevelInfo.progress_character info) None).
Proof.
  unfold fetch_user_level_info. simpl. rewrite filter_update_levels.
  destruct (filter (is_member_row guild_id user_id) rs) as [| r rs'] eqn:Hsel;
    [discriminate |].
  intros [= <-]. simpl.
  assert (Hrow : is_member_row guild_id user_id r = true).
  { assert (Hin : In r (filter (is_member_row guild_id user_id) rs))
      by (rewrite Hsel; now left).
    apply filter_In in Hin. tauto. }
  unfold update_levels. rewrite Hrow. reflexivity.
Qed.

Lemma fetch_is_member (db : UserLevels) (info : MemberLevelInfo.t) :
  fetch_user_level_info db guild_id user_id = Some info ->
  MemberLevelInfo.guild_id info = guild_id /\ MemberLevelInfo.user_id info = user_id.
Proof.
  unfold fetch_user_level_info.
  destruct (filter (is_member_row guild_id user_id) (rows db)) as [| r rs'] eqn:Hsel;
    [discriminate |].
  intros [= <-].
  assert (Hin : In r (filter (is_member_row guild_id user_id) (rows db)))
    by (rewrite Hsel; now left).
  apply filter_In in Hin. destruct Hin as [_ Hrow].
  unfold is_member_row in Hrow. apply andb_true_iff in Hrow.
  simpl. rewrite !Z.eqb_eq in Hrow. exact Hrow.
Qed.

End MemberRow.

(** ** What an award returns *)

Lemma fetch_rows_with_member (db : UserLevels) (message : Message) :
  fetch_user_level_info
    (mkStored (rows_with_member db message) (sequence_after db message))
    (guild message) (author message)
  = Some (state_before db message).
Proof.
  unfold rows_with_member, sequence_after, state_before.
  destruct (fetch_user_level_info db (guild message) (author message)) eqn:Hfetch.
  - destruct db; exact Hfetch.
  - now apply fetch_new_entry.
Qed.

(** Every award returns: the loop ends in a state of the specification's
    loop, the table is updated with it and the event is built from it. *)
Lemma award_xp_returns (db : UserLevels) (message : Message) (amount : Z) :
  exists final,
    levels_up (loop_start (state_before db message) amount) final /\
    returns (fun fuel => award_xp fuel db message amount)
            (awarded db message amount final, level_up_event db message amount final).
Proof.
  set (before := state_before db message).
  destruct (level_loop_total (MemberLevelInfo.current_xp before + amount)
              (MemberLevelInfo.xp_to_level_up before)
              (MemberLevelInfo.current_level before)) as [final Hfinal].
  exists final. split.
  - eapply level_loop_levels_up. apply Hfinal. apply Nat.le_refl.
  - eexists. intros fuel Hfuel. specialize (Hfinal fuel Hfuel).
    unfold award_xp, awarded, level_up_event, rows_with_member, sequence_after,
      newly_created, insert_member_level_info.
    fold before.
    destruct (fetch_user_level_info db (guild message) (author message)) as [info |] eqn:Hfetch.
    + assert (Hbefore : before = info)
        by (unfold before, state_before; now rewrite Hfetch).
      rewrite <- Hbefore. rewrite Hfinal.
      destruct final as [[xp thr] lvl]. reflexivity.
    + rewrite fetch_new_entry by assumption.
      assert (Hbefore : before = spec_initial_state (next_id db) (guild message) (author message))
        by (unfold before, state_before; now rewrite Hfetch).
      rewrite <- Hbefore. rewrite Hfinal.
      destruct final as [[xp thr] lvl]. reflexivity.
Qed.

Lemma returns_unique {A : Type} (run : nat -> outcome A) (r1 r2 : A) :
  returns run r1 -> returns run r2 -> r1 = r2.
Proof.
  intros [n1 H1] [n2 H2].
  specialize (H1 (Nat.max n1 n2) (Nat.le_max_l _ _)).
  specialize (H2 (Nat.max n1 n2) (Nat.le_max_r _ _)).
  congruence.
Qed.

(** The member's row after an award. *)
Lemma fetch_awarded (db : UserLevels) (message : Message) (amount : Z) (final : Z * Z * Z) :
  fetch_user_level_info (awarded db message amount final) (guild message) (author message)
  = Some (info_after (state_before db message) message amount final).
Proof.
  destruct final as [[xp thr] lvl]. unfold awarded, info_after.
  pose proof (fetch_rows_with_member db message) as Hfetch.
  rewrite (fetch_updated _ _ _ _ _ _ _ _ _ _ Hfetch).
  apply fetch_is_member in Hfetch. destruct Hfetch as [-> ->]. reflexivity.
Qed.

Lemma loop_state_info_after (before : MemberLevelInfo.t) (message : Message)
    (amount : Z) (final : Z * Z * Z) :
  loop_state (info_after before message amount final) = final.
Proof. destruct final as [[xp thr] lvl]. reflexivity. Qed.

Lemma total_xp_info_after (before : MemberLevelInfo.t) (message : Message)
    (amount : Z) (final : Z * Z * Z) :
  MemberLevelInfo.total_xp (info_after before message amount final)
  = MemberLevelInfo.total_xp before + amount.
Proof. destruct final as [[xp thr] lvl]. reflexivity. Qed.

(** ** The award *)

(** C1.  The award follows its contract.  For every table, message and
    positive amount: the state the amount is applied to is the member's
    row or, where there is none, the row [insert_member_level_info]
    creates, which has [total_xp = 0], [current_xp = 0], [level = 0] and
    [xp_to_next_level = 100]; the award returns; the loop of the
    specification leads from [(current_xp + amount, xp_to_next_level,
    level)] of that state to the [(current_xp, xp_to_next_level, level)]
    of the member's row in the table the award leaves.  In particular,
    from a state with [current_xp = 0], [level = 0] and threshold 100, an
    award of exactly 100 leaves level 1 and threshold 155. *)
Theorem award_xp_contract :
  (forall (db : UserLevels) (message : Message) (amount : Z),
      0 < amount ->
      exists start : MemberLevelInfo.t,
        match fetch_user_level_info db (guild message) (author message) with
        | Some info => start = info
        | None =>
            snd (insert_member_level_info db (guild message) (author message)) = Some start
            /\ MemberLevelInfo.total_xp start = 0
            /\ MemberLevelInfo.current_xp start = 0
            /\ MemberLevelInfo.current_level start = 0
            /\ MemberLevelInfo.xp_to_level_up start = 100
        end /\
        exists (final : Z * Z * Z) (db' : UserLevels) (event : option pidroid_level_up)
               (info' : MemberLevelInfo.t),
          levels_up (MemberLevelInfo.current_xp start + amount,
                     MemberLevelInfo.xp_to_level_up start,
                     MemberLevelInfo.current_level start) final
          /\ returns (fun fuel => award_xp fuel db message amount) (db', event)
          /\ fetch_user_level_info db' (guild message) (author message) = Some info'
          /\ (MemberLevelInfo.current_xp info',
              MemberLevelInfo.xp_to_level_up info',
              MemberLevelInfo.current_level info') = final)
  /\
  (forall (db : UserLevels) (message : Message),
      loop_state (state_before db message) = (0, 100, 0) ->
      exists (db' : UserLevels) (event : option pidroid_level_up)
             (info' : MemberLevelInfo.t),
        returns (fun fuel => award_xp fuel db message 100) (db', event)
        /\ fetch_user_level_info db' (guild message) (author message) = Some info'
        /\ MemberLevelInfo.current_level info' = 1
        /\ MemberLevelInfo.xp_to_level_up info' = 155).
Proof.
  split.
  - intros db message amount _.
    exists (state_before db message). split.
    + unfold state_before, insert_member_level_info.
      destruct (fetch_user_level_info db (guild message) (author message)) eqn:Hfetch;
        [reflexivity |].
      simpl. rewrite fetch_new_entry by assumption. repeat split; reflexivity.
    + destruct (award_xp_returns db message amount) as [final [Hloop Hret]].
      exists final, (awarded db message amount final),
        (level_up_event db message amount final),
        (info_after (state_before db message) message amount final).
      repeat split; try assumption.
      * apply fetch_awarded.
      * apply (loop_state_info_after (state_before db message) message amount final).
  - intros db message Hstart.
    destruct (award_xp_returns db message 100) as [final [Hloop Hret]].
    assert (Hfinal : final = (0, 155, 1)).
    { apply (levels_up_deterministic _ _ _ Hloop).
      unfold loop_start. unfold loop_state in Hstart.
      injection Hstart as -> -> ->.
      apply levels_up_next; [lia |].
      apply levels_up_done. unfold curve. simpl. lia. }
    subst final.
    exists (awarded db message 100 (0, 155, 1)),
      (level_up_event db message 100 (0, 155, 1)),
      (info_after (state_before db message) message 100 (0, 155, 1)).
    repeat split; try assumption. apply fetch_awarded.
Qed.

Lemma award_xp_contract_witness :
  (exists start : MemberLevelInfo.t,
    match fetch_user_level_info sample_levels (guild sample_message) (author sample_message) with
    | Some info => start = info
    | None =>
        snd (insert_member_level_info sample_levels (guild sample_message)
               (author sample_message)) = Some start
        /\ MemberLevelInfo.total_xp start = 0
        /\ MemberLevelInfo.current_xp start = 0
        /\ MemberLevelInfo.current_level start = 0
        /\ MemberLevelInfo.xp_to_level_up start = 100
    end /\
    exists (final : Z * Z * Z) (db' : UserLevels) (event : option pidroid_level_up)
           (info' : MemberLevelInfo.t),
      levels_up (MemberLevelInfo.current_xp start + 300,
                 MemberLevelInfo.xp_to_level_up start,
                 MemberLevelInfo.current_level start) final
      /\ returns (fun fuel => award_xp fuel sample_levels sample_message 300) (db', event)
      /\ fetch_user_level_info db' (guild sample_message) (author sample_message) = Some info'
      /\ (MemberLevelInfo.current_xp info',
          MemberLevelInfo.xp_to_level_up info',
          MemberLevelInfo.current_level info') = final)
  /\
  (exists (db' : UserLevels) (event : option pidroid_level_up)
          (info' : MemberLevelInfo.t),
      returns (fun fuel => award_xp fuel sample_levels newcomer_message 100) (db', event)
      /\ fetch_user_level_info db' (guild newcomer_message) (author newcomer_message)
         = Some info'
      /\ MemberLevelInfo.current_level info' = 1
      /\ MemberLevelInfo.xp_to_level_up info' = 155).
Proof.
  split.
  - apply (proj1 award_xp_contract sample_levels sample_message 300).
    reflexivity.
  - apply (proj2 award_xp_contract sample_levels newcomer_message).
    reflexivity.
Defined.

(** The scenario of the specification: a member at level 2 with 30 points
    and threshold 220 receives 300 points, rises to level 3 and keeps 110
    points towards the threshold 295. *)
Example award_xp_scenario :
  exists (db' : UserLevels) (e : pidroid_level_up),
    returns (fun fuel => award_xp fuel sample_levels sample_message 300) (db', Some e)
    /\ fetch_user_level_info db' 10 20
       = Some (MemberLevelInfo.mk 1 10 20 950 110 295 3 (Some "#"%string) None)
    /\ event_after e = MemberLevelInfo.mk 1 10 20 950 110 295 3 (Some "#"%string) None.
Proof.
  exists (awarded sample_levels sample_message 300 (110, 295, 3)).
  eexists. split; [| split].
  - exists 2%nat. intros [| [| fuel]] Hfuel; try lia. reflexivity.
  - reflexivity.
  - reflexivity.
Qed.

(** ** Runs of awards *)

Lemma award_xp_all_step (db db1 db' : UserLevels) (message : Message)
    (amount : Z) (amounts : list Z) (event : option pidroid_level_up) :
  returns (fun fuel => award_xp fuel db message amount) (db1, event) ->
  returns (fun fuel => award_xp_all fuel db1 message amounts) db' ->
  returns (fun fuel => award_xp_all fuel db message (amount :: amounts)) db'.
Proof.
  intros [n1 H1] [n2 H2]. exists (Nat.max n1 n2). intros fuel Hfuel.
  simpl. rewrite H1 by lia. apply H2. lia.
Qed.

Lemma state_before_awarded (db : UserLevels) (message : Message) (amount : Z)
    (final : Z * Z * Z) :
  state_before (awarded db message amount final) message
  = info_after (state_before db message) message amount final.
Proof.
  unfold state_before at 1. now rewrite fetch_awarded.
Qed.

(** A run of awards returns; after a run that is not empty the member has
    a row, whose points are below its threshold and whose total is the
    one before the run plus the sum of the amounts. *)
Lemma award_xp_all_returns (message : Message) (amounts : list Z) :
  forall db : UserLevels,
  exists db' : UserLevels,
    returns (fun fuel => award_xp_all fuel db message amounts) db'
    /\ MemberLevelInfo.total_xp (state_before db' message)
       = MemberLevelInfo.total_xp (state_before db message) + sum_of amounts
    /\ (amounts <> [] ->
        exists info',
          fetch_user_level_info db' (guild message) (author message) = Some info'
          /\ info' = state_before db' message
          /\ MemberLevelInfo.current_xp info' < MemberLevelInfo.xp_to_level_up info').
Proof.
  induction amounts as [| amount amounts IH]; intros db.
  - exists db. split; [| split].
    + exists 0%nat. reflexivity.
    + simpl. lia.
    + congruence.
  - destruct (award_xp_returns db message amount) as [final [Hloop Hret]].
    destruct (IH (awarded db message amount final)) as [db' [Hall [Htotal Hrow]]].
    exists db'. split; [| split].
    + eapply award_xp_all_step; eassumption.
    + rewrite Htotal, state_before_awarded, total_xp_info_after. simpl. lia.
    + intros _. destruct amounts as [| amount' amounts'].
      * assert (Hdb' : db' = awarded db message amount final).
        { eapply returns_unique; [exact Hall |]. exists 0%nat. reflexivity. }
        subst db'. eexists. split; [apply fetch_awarded |]. split.
        -- now rewrite state_before_awarded.
        -- apply levels_up_stops in Hloop.
           destruct final as [[xp thr] lvl]. exact Hloop.
      * apply Hrow. discriminate.
Qed.

(** C2.  An award keeps the points below the threshold.  For every
    starting state with [current_xp < xp_to_next_level], the freshly
    created one among them, and every positive amount, the award returns
    and the member's row in the table it leaves has
    [current_xp < xp_to_next_level], as has the state after in the event
    it dispatches; so has the row after every run of one or more awards
    applied one after the other. *)
Theorem award_xp_keeps_invariant (db : UserLevels) (message : Message) :
  MemberLevelInfo.current_xp (state_before db message)
    < MemberLevelInfo.xp_to_level_up (state_before db message) ->
  (forall amount : Z,
      0 < amount ->
      exists (db' : UserLevels) (event : option pidroid_level_up)
             (info' : MemberLevelInfo.t),
        returns (fun fuel => award_xp fuel db message amount) (db', event)
        /\ fetch_user_level_info db' (guild message) (author message) = Some info'
        /\ MemberLevelInfo.current_xp info' < MemberLevelInfo.xp_to_level_up info'
        /\ (forall e, event = Some e ->
                      MemberLevelInfo.current_xp (event_after e)
                        < MemberLevelInfo.xp_to_level_up (event_after e)))
  /\
  (forall amounts : list Z,
      Forall (fun amount => 0 < amount) amounts ->
      amounts <> [] ->
      exists (db' : UserLevels) (info' : MemberLevelInfo.t),
        returns (fun fuel => award_xp_all fuel db message amounts) db'
        /\ fetch_user_level_info db' (guild message) (author message) = Some info'
        /\ MemberLevelInfo.current_xp info' < MemberLevelInfo.xp_to_level_up info').
Proof.
  intros _. split.
  - intros amount _.
    destruct (award_xp_returns db message amount) as [final [Hloop Hret]].
    exists (awarded db message amount final), (level_up_event db message amount final),
      (info_after (state_before db message) message amount final).
    apply levels_up_stops in Hloop.
    split; [exact Hret |]. split; [apply fetch_awarded |].
    destruct final as [[xp thr] lvl]. split; [exact Hloop |].
    intros e. unfold level_up_event.
    destruct (_ || _); [| discriminate].
    intros [= <-]. exact Hloop.
  - intros amounts _ Hsome.
    destruct (award_xp_all_returns message amounts db) as [db' [Hall [_ Hrow]]].
    destruct (Hrow Hsome) as [info' [Hfetch [_ Hinv]]].
    exists db', info'. auto.
Qed.

(** The default state satisfies the premise of the invariant. *)
Lemma newcomer_state_before :
  state_before sample_levels newcomer_message = spec_initial_state 4 10 77.
Proof. reflexivity. Qed.

Lemma award_xp_keeps_invariant_witness :
  (exists (db' : UserLevels) (event : option pidroid_level_up)
          (info' : MemberLevelInfo.t),
      returns (fun fuel => award_xp fuel sample_levels newcomer_message 150) (db', event)
      /\ fetch_user_level_info db' (guild newcomer_message) (author newcomer_message)
         = Some info'
      /\ MemberLevelInfo.current_xp info' < MemberLevelInfo.xp_to_level_up info'
      /\ (forall e, event = Some e ->
                    MemberLevelInfo.current_xp (event_after e)
                      < MemberLevelInfo.xp_to_level_up (event_after e)))
  /\
  (exists (db' : UserLevels) (info' : MemberLevelInfo.t),
      returns (fun fuel => award_xp_all fuel sample_levels newcomer_message [60; 70]) db'
      /\ fetch_user_level_info db' (guild newcomer_message) (author newcomer_message)
         = Some info'
      /\ MemberLevelInfo.current_xp info' < MemberLevelInfo.xp_to_level_up info').
Proof.
  destruct (award_xp_keeps_invariant sample_levels newcomer_message eq_refl) as [Hone Hrun].
  split.
  - apply (Hone 150). reflexivity.
  - apply (Hrun [60; 70]).
    + repeat constructor.
    + discriminate.
Defined.

(** C3.  The total is the sum of the amounts.  Every award returns and
    adds exactly its amount to the member's [total_xp], whatever the loop
    does; after a run of awards the total is the one before the run, 0
    for a member without a row, plus the sum of the amounts applied; and
    with positive amounts the total never decreases along the run. *)
Theorem total_xp_is_sum_of_amounts (db : UserLevels) (message : Message) :
  (forall amount : Z,
      exists (db' : UserLevels) (event : option pidroid_level_up)
             (info' : MemberLevelInfo.t),
        returns (fun fuel => award_xp fuel db message amount) (db', event)
        /\ fetch_user_level_info db' (guild message) (author message) = Some info'
        /\ MemberLevelInfo.total_xp info'
           = MemberLevelInfo.total_xp (state_before db message) + amount)
  /\
  (forall amounts : list Z,
      exists db' : UserLevels,
        returns (fun fuel => award_xp_all fuel db message amounts) db'
        /\ MemberLevelInfo.total_xp (state_before db' message)
           = MemberLevelInfo.total_xp (state_before db message) + sum_of amounts
        /\ (amounts <> [] ->
            exists info',
              fetch_user_level_info db' (guild message) (author message) = Some info'
              /\ MemberLevelInfo.total_xp info'
                 = MemberLevelInfo.total_xp (state_before db message) + sum_of amounts))
  /\
  (forall earlier later : list Z,
      Forall (fun amount => 0 < amount) later ->
      exists db1 db2 : UserLevels,
        returns (fun fuel => award_xp_all fuel db message earlier) db1
        /\ returns (fun fuel => award_xp_all fuel db message (earlier ++ later)) db2
        /\ MemberLevelInfo.total_xp (state_before db1 message)
           <= MemberLevelInfo.total_xp (state_before db2 message)).
Proof.
  split; [| split].
  - intros amount.
    destruct (award_xp_returns db message amount) as [final [_ Hret]].
    exists (awarded db message amount final), (level_up_event db message amount final),
      (info_after (state_before db message) message amount final).
    split; [exact Hret |]. split; [apply fetch_awarded |].
    apply total_xp_info_after.
  - intros amounts.
    destruct (award_xp_all_returns message amounts db) as [db' [Hall [Htotal Hrow]]].
    exists db'. split; [exact Hall |]. split; [exact Htotal |].
    intros Hsome. destruct (Hrow Hsome) as [info' [Hfetch [Hinfo _]]].
    exists info'. split; [exact Hfetch |]. now rewrite Hinfo.
  - intros earlier later Hpositive.
    destruct (award_xp_all_returns message earlier db) as [db1 [Hall1 [Htotal1 _]]].
    destruct (award_xp_all_returns message later db1) as [db2 [Hall2 [Htotal2 _]]].
    exists db1, db2. split; [exact Hall1 |]. split.
    + clear Htotal1 Htotal2 Hpositive. revert db Hall1.
      induction earlier as [| amount earlier IH]; intros db Hall1.
      * assert (db1 = db) as ->; [| exact Hall2].
        eapply returns_unique; [exact Hall1 |]. exists 0%nat. reflexivity.
      * destruct (award_xp_returns db message amount) as [final [_ Hret]].
        simpl. eapply award_xp_all_step; [exact Hret |].
        apply IH. destruct Hall1 as [n1 H1], Hret as [n2 H2].
        exists (Nat.max n1 n2). intros fuel Hfuel.
        specialize (H1 fuel ltac:(lia)). simpl in H1.
        rewrite H2 in H1 by lia. exact H1.
    + rewrite Htotal2.
      assert (0 <= sum_of later); [| lia].
      clear -Hpositive. induction Hpositive; simpl; lia.
Qed.

Lemma total_xp_is_sum_of_amounts_witness :
  exists db1 db2 : UserLevels,
    returns (fun fuel => award_xp_all fuel sample_levels sample_message [300]) db1
    /\ returns (fun fuel => award_xp_all fuel sample_levels sample_message ([300] ++ [25; 15])) db2
    /\ MemberLevelInfo.total_xp (state_before db1 sample_message)
       <= MemberLevelInfo.total_xp (state_before db2 sample_message).
Proof.
  apply (proj2 (proj2 (total_xp_is_sum_of_amounts sample_levels sample_message)) [300] [25; 15]).
  repeat constructor.
Defined.

(** ** The level-up notification *)

(** C4, counterexample.  A member without a row who is awarded 50 points
    stays at level 0, and the event is dispatched all the same: the
    notification rule of the specification fails on the code. *)
Lemma newcomer_below_threshold_notified :
  (exists (db' : UserLevels) (e : pidroid_level_up),
      returns (fun fuel => award_xp fuel sample_levels newcomer_message 50) (db', Some e)
      /\ fetch_user_level_info sample_levels (guild newcomer_message)
           (author newcomer_message) = None
      /\ MemberLevelInfo.current_level (event_before e) = 0
      /\ MemberLevelInfo.current_level (event_after e) = 0)
  /\ ~ notifies_as_specified sample_levels newcomer_message 50.
Proof.
  pose (final := (50, 100, 0)).
  assert (Hret : returns (fun fuel => award_xp fuel sample_levels newcomer_message 50)
                   (awarded sample_levels newcomer_message 50 final,
                    level_up_event sample_levels newcomer_message 50 final)).
  { exists 1%nat. intros [| fuel] Hfuel; [lia | reflexivity]. }
  split.
  - eexists. eexists. split; [exact Hret |]. repeat split.
  - intros Hspec.
    destruct (Hspec _ _ _ Hret (fetch_awarded _ _ _ _)) as [Hemitted _].
    assert (Hlevels : 0 < 0 \/ true = true /\ 0 < 0);
      [apply Hemitted; discriminate | lia].
Qed.

(** C4, amended.  An award dispatches the level-up event exactly when the
    member's state was newly created or the member's level increased; the
    event carries the state before the award and the state after it, the
    one the table then holds. *)
Theorem award_xp_notifies (db : UserLevels) (message : Message) (amount : Z) :
  exists (db' : UserLevels) (event : option pidroid_level_up)
         (info' : MemberLevelInfo.t),
    returns (fun fuel => award_xp fuel db message amount) (db', event)
    /\ fetch_user_level_info db' (guild message) (author message) = Some info'
    /\ (event <> None <->
        newly_created db message = true
        \/ MemberLevelInfo.current_level (state_before db message)
             < MemberLevelInfo.current_level info')
    /\ (forall e, event = Some e ->
                  event_before e = state_before db message /\ event_after e = info').
Proof.
  destruct (award_xp_returns db message amount) as [final [Hloop Hret]].
  exists (awarded db message amount final), (level_up_event db message amount final),
    (info_after (state_before db message) message amount final).
  split; [exact Hret |]. split; [apply fetch_awarded |].
  apply levels_up_level_grows in Hloop.
  destruct final as [[xp thr] lvl]. unfold level_up_event. simpl in *.
  destruct (newly_created db message); simpl.
  - split; [| intros e [= <-]; split; reflexivity].
    split; [now left | discriminate].
  - destruct (lvl =? MemberLevelInfo.current_level (state_before db message)) eqn:Hsame; simpl.
    + apply Z.eqb_eq in Hsame. split; [| discriminate].
      split; [congruence | intros [Hnew | Hup]; [discriminate | lia]].
    + apply Z.eqb_neq in Hsame. split; [| intros e [= <-]; split; reflexivity].
      split; [intros _; right; lia | discriminate].
Qed.

Lemma award_xp_notifies_witness :
  exists (db' : UserLevels) (event : option pidroid_level_up)
         (info' : MemberLevelInfo.t),
    returns (fun fuel => award_xp fuel sample_levels newcomer_message 50) (db', event)
    /\ fetch_user_level_info db' (guild newcomer_message) (author newcomer_message)
       = Some info'
    /\ (event <> None <->
        newly_created sample_levels newcomer_message = true
        \/ MemberLevelInfo.current_level (state_before sample_levels newcomer_message)
             < MemberLevelInfo.current_level info')
    /\ (forall e, event = Some e ->
                  event_before e = state_before sample_levels newcomer_message
                  /\ event_after e = info').
Proof.
  exact (award_xp_notifies sample_levels newcomer_message 50).
Defined.

(** ** Termination *)

(** C9.  The loop of the award terminates.  The curve is at least 100
    from level 0 on; a pass through the loop with a positive threshold
    strictly decreases the points; and from every state with a positive
    threshold, for every amount, the loop ends and the award returns. *)
Theorem award_xp_terminates :
  (forall level : Z, 0 <= level -> 100 <= 5 * level ^ 2 + 50 * level + 100)
  /\
  (forall xp xp_to_next_level : Z,
      0 < xp_to_next_level -> xp - xp_to_next_level < xp)
  /\
  (forall xp xp_to_next_level level amount : Z,
      0 < xp_to_next_level ->
      exists (final : Z * Z * Z) (n : nat),
        forall fuel : nat,
          (n <= fuel)%nat ->
          level_loop fuel (xp + amount) xp_to_next_level level = Some final)
  /\
  (forall (db : UserLevels) (message : Message) (amount : Z),
      0 < MemberLevelInfo.xp_to_level_up (state_before db message) ->
      exists result : UserLevels * option pidroid_level_up,
        returns (fun fuel => award_xp fuel db message amount) result).
Proof.
  split; [| split; [| split]].
  - intros level Hlevel. apply (curve_from_zero level Hlevel).
  - intros xp thr Hthr. lia.
  - intros xp thr lvl amount _.
    destruct (level_loop_total (xp + amount) thr lvl) as [final Hfinal].
    exists final, (enough_fuel (xp + amount) thr lvl). exact Hfinal.
  - intros db message amount _.
    destruct (award_xp_returns db message amount) as [final [_ Hret]].
    eexists. exact Hret.
Qed.

Lemma award_xp_terminates_witness :
  100 <= 5 * 3 ^ 2 + 50 * 3 + 100
  /\ 730 - 220 < 730
  /\ (exists (final : Z * Z * Z) (n : nat),
        forall fuel : nat,
          (n <= fuel)%nat -> level_loop fuel (30 + 700) 220 2 = Some final)
  /\ (exists result : UserLevels * option pidroid_level_up,
        returns (fun fuel => award_xp fuel sample_levels sample_message 700) result).
Proof.
  destruct award_xp_terminates as [Hcurve [Hdecrease [Hloop Haward]]].
  split; [| split; [| split]].
  - apply (Hcurve 3). discriminate.
  - apply (Hdecrease 730 220). reflexivity.
  - apply (Hloop 30 220 2 700). reflexivity.
  - apply (Haward sample_levels sample_message 700). reflexivity.
Defined.

(** ** The frame of an award *)

Lemma update_levels_framed (guild_id member_id xp thr amount lvl : Z) (r : UserLevelsTable.t) :
  framed guild_id member_id r (update_levels guild_id member_id xp thr amount lvl r).
Proof.
  unfold framed, update_levels, is_member_row.
  destruct (UserLevelsTable.guild_id r =? guild_id) eqn:Hguild;
    destruct (UserLevelsTable.user_id r =? member_id) eqn:Huser; simpl;
    repeat split; try reflexivity.
  apply Z.eqb_eq in Hguild. apply Z.eqb_eq in Huser. tauto.
Qed.

Lemma Forall2_map_framed (guild_id member_id xp thr amount lvl : Z)
    (rs : list UserLevelsTable.t) :
  Forall2 (framed guild_id member_id) rs
          (map (update_levels guild_id member_id xp thr amount lvl) rs).
Proof.
  induction rs as [| r rs IH]; simpl; constructor;
    [apply update_levels_framed | exact IH].
Qed.

(** C10.  The frame of an award.  The table an award leaves has the rows
    of the table before, followed by the member's new row where the
    member had none, in the same order; every row keeps its [id],
    [guild_id], [user_id] and [progress_character], and every row of
    another member or another guild is unchanged.  The state after in the
    event has the row key and the progress character of the state
    before. *)
Theorem award_xp_frame (db : UserLevels) (message : Message) (amount : Z) :
  exists (db' : UserLevels) (event : option pidroid_level_up),
    returns (fun fuel => award_xp fuel db message amount) (db', event)
    /\ Forall2 (framed (guild message) (author message))
         (rows db ++
            match fetch_user_level_info db (guild message) (author message) with
            | Some _ => []
            | None => [new_entry (next_id db) (guild message) (author message)]
            end)
         (rows db')
    /\ (forall e, event = Some e ->
          MemberLevelInfo.progress_character (event_after e)
          = MemberLevelInfo.progress_character (event_before e)
          /\ MemberLevelInfo.row (event_after e) = MemberLevelInfo.row (event_before e)).
Proof.
  destruct (award_xp_returns db message amount) as [final [_ Hret]].
  exists (awarded db message amount final), (level_up_event db message amount final).
  split; [exact Hret |].
  destruct final as [[xp thr] lvl]. split.
  - unfold awarded, rows_with_member. simpl.
    destruct (fetch_user_level_info db (guild message) (author message));
      [rewrite app_nil_r |]; apply Forall2_map_framed.
  - intros e. unfold level_up_event. destruct (_ || _); [| discriminate].
    intros [= <-]. split; reflexivity.
Qed.

Lemma award_xp_frame_witness :
  exists (db' : UserLevels) (event : option pidroid_level_up),
    returns (fun fuel => award_xp fuel sample_levels sample_message 300) (db', event)
    /\ Forall2 (framed 10 20) (rows sample_levels) (rows db')
    /\ (forall e, event = Some e ->
          MemberLevelInfo.progress_character (event_after e)
          = MemberLevelInfo.progress_character (event_before e)
          /\ MemberLevelInfo.row (event_after e) = MemberLevelInfo.row (event_before e)).
Proof.
  destruct (award_xp_frame sample_levels sample_message 300) as [db' [event [Hret [Hrows He]]]].
  exists db', event. split; [exact Hret |]. split; [| exact He].
  simpl in Hrows. exact Hrows.
Defined.

(** ** Ordering the rewards *)

Section OrderBy.

Lemma insert_level_desc_In (r y : LevelRewardsTable.t) (l : list LevelRewardsTable.t) :
  In y (insert_level_desc r l) <-> y = r \/ In y l.
Proof.
  induction l as [| x l IH]; simpl.
  - intuition auto.
  - destruct (LevelRewardsTable.level x <=? LevelRewardsTable.level r); simpl.
    + intuition auto.
    + rewrite IH. intuition auto.
Qed.

Lemma order_by_level_desc_In (y : LevelRewardsTable.t) (l : list LevelRewardsTable.t) :
  In y (order_by_level_desc l) <-> In y l.
Proof.
  induction l as [| x l IH]; simpl; [reflexivity |].
  rewrite insert_level_desc_In, IH. intuition auto.
Qed.

Lemma insert_level_desc_descending (r : LevelRewardsTable.t) (l : list LevelRewardsTable.t) :
  descending l -> descending (insert_level_desc r l).
Proof.
  unfold descending. induction 1 as [| x l Hsorted IH Hhead]; simpl.
  - constructor; constructor.
  - destruct (LevelRewardsTable.level x <=? LevelRewardsTable.level r) eqn:Hcmp.
    + apply Z.leb_le in Hcmp. constructor; [constructor; assumption |].
      constructor; [exact Hcmp |].
      rewrite Forall_forall in *. intros y Hy. specialize (Hhead y Hy). lia.
    + apply Z.leb_gt in Hcmp. constructor; [exact IH |].
      rewrite Forall_forall in *. intros y Hy.
      apply insert_level_desc_In in Hy. destruct Hy as [-> | Hy]; [lia | auto].
Qed.

Lemma order_by_level_desc_descending (l : list LevelRewardsTable.t) :
  descending (order_by_level_desc l).
Proof.
  induction l as [| x l IH]; simpl.
  - constructor.
  - now apply insert_level_desc_descending.
Qed.

(** The first row of an ordered selection is a selected row of highest
    level; the selection is empty exactly when no row is selected. *)
Lemma first_of_ordered (keep : LevelRewardsTable.t -> bool) (l : list LevelRewardsTable.t) :
  match order_by_level_desc (filter keep l) with
  | x :: _ =>
      In x l /\ keep x = true /\
      forall y, In y l -> keep y = true ->
                LevelRewardsTable.level y <= LevelRewardsTable.level x
  | [] => forall y, In y l -> keep y = false
  end.
Proof.
  pose proof (order_by_level_desc_descending (filter keep l)) as Hsorted.
  pose proof (fun y => order_by_level_desc_In y (filter keep l)) as Hin.
  destruct (order_by_level_desc (filter keep l)) as [| x rest].
  - intros y Hy. destruct (keep y) eqn:Hkeep; [| reflexivity].
    exfalso. apply (proj2 (Hin y)). apply filter_In. auto.
  - assert (Hx : In x (filter keep l)) by (apply Hin; now left).
    apply filter_In in Hx. destruct Hx as [Hxl Hxk].
    split; [exact Hxl |]. split; [exact Hxk |].
    intros y Hyl Hyk.
    assert (Hy : In y (x :: rest)) by (apply Hin, filter_In; auto).
    destruct Hy as [-> | Hy]; [lia |].
    apply StronglySorted_inv in Hsorted. destruct Hsorted as [_ Hhead].
    rewrite Forall_forall in Hhead. now apply Hhead.
Qed.

End OrderBy.

(** ** Reward resolution *)

(** C5.  The eligible reward.  For every table, guild and level [L], the
    query answers with a reward of the guild whose level is at most [L]
    and is the highest among the guild's rewards with level at most [L],
    and with none exactly when the guild has no reward with level at most
    [L].  With rewards at levels 5, 10 and 20, level 7 gives the reward at
    5, level 20 the reward at 20 and level 3 none. *)
Theorem eligible_reward_is_highest :
  (forall (db : LevelRewards) (guild_id level : Z),
      match fetch_eligible_level_reward_for_level db guild_id level with
      | Some r => highest_eligible db guild_id level r
      | None =>
          forall r, reward_of_guild db guild_id r -> ~ LevelReward.level r <= level
      end)
  /\ fetch_eligible_level_reward_for_level sample_rewards 10 7
     = Some (LevelReward.mk 4 10 505 5)
  /\ fetch_eligible_level_reward_for_level sample_rewards 10 20
     = Some (LevelReward.mk 3 10 520 20)
  /\ fetch_eligible_level_reward_for_level sample_rewards 10 3 = None.
Proof.
  split; [| repeat split].
  intros db guild_id level.
  unfold fetch_eligible_level_reward_for_level, fetch_eligible_level_rewards_for_level.
  pose proof (first_of_ordered
                (fun r => (LevelRewardsTable.guild_id r =? guild_id)
                          && (LevelRewardsTable.level r <=? level)) (rows db)) as Hfirst.
  destruct (order_by_level_desc _) as [| x rest]; simpl.
  - intros r [y [Hy [Hguild ->]]] Hlevel. specialize (Hfirst y Hy). simpl in *.
    apply andb_false_iff in Hfirst. destruct Hfirst as [Hfirst | Hfirst].
    + apply Z.eqb_neq in Hfirst. contradiction.
    + apply Z.leb_gt in Hfirst. lia.
  - destruct Hfirst as [Hin [Hkeep Hmax]].
    apply andb_true_iff in Hkeep. destruct Hkeep as [Hguild Hlevel].
    apply Z.eqb_eq in Hguild. apply Z.leb_le in Hlevel.
    split; [exists x; auto |]. split; [exact Hlevel |].
    intros r' [y [Hy [Hyguild ->]]] Hylevel. simpl in *.
    apply Hmax; [exact Hy |].
    apply andb_true_iff. split; [now apply Z.eqb_eq | now apply Z.leb_le].
Qed.

Lemma eligible_reward_is_highest_witness :
  highest_eligible sample_rewards 10 7 (LevelReward.mk 4 10 505 5)
  /\ (forall r, reward_of_guild sample_rewards 10 r -> ~ LevelReward.level r <= 3).
Proof.
  split.
  - exact (proj1 eligible_reward_is_highest sample_rewards 10 7).
  - exact (proj1 eligible_reward_is_highest sample_rewards 10 3).
Defined.

(** The previous reward is the nearest one strictly below the level. *)
Lemma previous_level_reward_nearest (db : LevelRewards) (guild_id level : Z) :
  match _fetch_previous_level_reward db guild_id level with
  | Some r => nearest_below db guild_id level r
  | None => forall r, reward_of_guild db guild_id r -> ~ LevelReward.level r < level
  end.
Proof.
  unfold _fetch_previous_level_reward.
  pose proof (first_of_ordered
                (fun r => (LevelRewardsTable.guild_id r =? guild_id)
                          && (LevelRewardsTable.level r <? level)) (rows db)) as Hfirst.
  destruct (order_by_level_desc _) as [| x rest]; simpl.
  - intros r [y [Hy [Hguild ->]]] Hlevel. specialize (Hfirst y Hy). simpl in *.
    apply andb_false_iff in Hfirst. destruct Hfirst as [Hfirst | Hfirst].
    + apply Z.eqb_neq in Hfirst. contradiction.
    + apply Z.ltb_ge in Hfirst. lia.
  - destruct Hfirst as [Hin [Hkeep Hmax]].
    apply andb_true_iff in Hkeep. destruct Hkeep as [Hguild Hlevel].
    apply Z.eqb_eq in Hguild. apply Z.ltb_lt in Hlevel.
    split; [exists x; auto |]. split; [exact Hlevel |].
    intros r' [y [Hy [Hyguild ->]]] Hylevel. simpl in *.
    apply Hmax; [exact Hy |].
    apply andb_true_iff. split; [now apply Z.eqb_eq | now apply Z.ltb_lt].
Qed.

(** The next reward, as the code orders it (by level descending), is the
    highest one strictly above the level. *)
Lemma next_level_reward_highest (db : LevelRewards) (guild_id level : Z) :
  match _fetch_next_level_reward db guild_id level with
  | Some r =>
      reward_of_guild db guild_id r /\ level < LevelReward.level r /\
      forall r', reward_of_guild db guild_id r' -> level < LevelReward.level r' ->
                 LevelReward.level r' <= LevelReward.level r
  | None => forall r, reward_of_guild db guild_id r -> ~ level < LevelReward.level r
  end.
Proof.
  unfold _fetch_next_level_reward.
  pose proof (first_of_ordered
                (fun r => (LevelRewardsTable.guild_id r =? guild_id)
                          && (LevelRewardsTable.level r >? level)) (rows db)) as Hfirst.
  destruct (order_by_level_desc _) as [| x rest]; simpl.
  - intros r [y [Hy [Hguild ->]]] Hlevel. specialize (Hfirst y Hy). simpl in *.
    apply andb_false_iff in Hfirst. destruct Hfirst as [Hfirst | Hfirst].
    + apply Z.eqb_neq in Hfirst. contradiction.
    + rewrite Z.gtb_ltb in Hfirst. apply Z.ltb_ge in Hfirst. lia.
  - destruct Hfirst as [Hin [Hkeep Hmax]].
    apply andb_true_iff in Hkeep. destruct Hkeep as [Hguild Hlevel].
    apply Z.eqb_eq in Hguild. rewrite Z.gtb_ltb in Hlevel. apply Z.ltb_lt in Hlevel.
    split; [exists x; auto |]. split; [exact Hlevel |].
    intros r' [y [Hy [Hyguild ->]]] Hylevel. simpl in *.
    apply Hmax; [exact Hy |].
    apply andb_true_iff. split; [now apply Z.eqb_eq |].
    rewrite Z.gtb_ltb. now apply Z.ltb_lt.
Qed.

(** C6, on the code.  With rewards at levels 5, 10 and 20, the next
    reward for level 7 is the one at level 20, where the nearest reward
    strictly above 7 is the one at level 10; the previous reward for
    level 7 is the one at level 5. *)
Theorem next_level_reward_not_nearest :
  _fetch_next_level_reward sample_rewards 10 7 = Some (LevelReward.mk 3 10 520 20)
  /\ nearest_above sample_rewards 10 7 (LevelReward.mk 1 10 510 10)
  /\ ~ nearest_above sample_rewards 10 7 (LevelReward.mk 3 10 520 20)
  /\ _fetch_previous_level_reward sample_rewards 10 7 = Some (LevelReward.mk 4 10 505 5).
Proof.
  assert (Hten : reward_of_guild sample_rewards 10 (LevelReward.mk 1 10 510 10)).
  { exists (LevelRewardsTable.mk 1 10 10 510). simpl. auto. }
  split; [reflexivity |]. split; [| split; [| reflexivity]].
  - split; [exact Hten |]. split; [reflexivity |].
    intros r' [y [Hy [Hguild ->]]] Hlevel. simpl in *.
    destruct Hy as [<- | [<- | [<- | [<- | []]]]]; simpl in *; lia.
  - intros [_ [_ Hnearest]].
    specialize (Hnearest _ Hten ltac:(reflexivity)). simpl in Hnearest. lia.
Qed.

(** ** The role-change queue *)

Section Queue.

Variable q : RoleChangeQueue.
Variable guild_id : Z.

Lemma fetch_role_changes_keys :
  fetch_role_changes q guild_id
  = map (changes_for q guild_id)
        (group_keys (filter (fun e => RoleChangeQueueTable.guild_id e =? guild_id) (rows q))).
Proof.
  unfold fetch_role_changes. rewrite map_map. reflexivity.
Qed.

Lemma group_of_entries_of (member_id : Z) :
  group_of q guild_id member_id = entries_of q guild_id member_id.
Proof.
  unfold group_of, entries_of.
  induction (rows q) as [| e l IH]; simpl; [reflexivity |].
  destruct (RoleChangeQueueTable.guild_id e =? guild_id); simpl; [| exact IH].
  destruct (RoleChangeQueueTable.member_id e =? member_id); [now rewrite IH | exact IH].
Qed.

Lemma In_entries_of (member_id : Z) (e : RoleChangeQueueTable.t) :
  In e (entries_of q guild_id member_id) <->
  In e (rows q) /\ RoleChangeQueueTable.guild_id e = guild_id
  /\ RoleChangeQueueTable.member_id e = member_id.
Proof.
  unfold entries_of. rewrite filter_In, andb_true_iff, !Z.eqb_eq. reflexivity.
Qed.

Lemma In_group_keys (member_id : Z) :
  In member_id
     (group_keys (filter (fun e => RoleChangeQueueTable.guild_id e =? guild_id) (rows q)))
  <-> exists e, In e (entries_of q guild_id member_id).
Proof.
  unfold group_keys. rewrite nodup_In, in_map_iff. split.
  - intros [e [Hmember He]]. exists e. apply In_entries_of.
    apply filter_In in He. rewrite Z.eqb_eq in He. tauto.
  - intros [e He]. apply In_entries_of in He. exists e. split; [tauto |].
    apply filter_In. rewrite Z.eqb_eq. tauto.
Qed.

Lemma role_ids_array_agg (values : list Z) : role_ids (array_agg values) = values.
Proof. destruct values; reflexivity. Qed.

Lemma In_roles_with_action (value role : Z) (l : list RoleChangeQueueTable.t) :
  In role (role_ids (array_agg (map RoleChangeQueueTable.role_id
                                  (filter (fun e => RoleChangeQueueTable.action e =? value) l))))
  <-> exists e, In e l /\ RoleChangeQueueTable.action e = value
                /\ RoleChangeQueueTable.role_id e = role.
Proof.
  rewrite role_ids_array_agg, in_map_iff. split.
  - intros [e [Hrole He]]. apply filter_In in He. rewrite Z.eqb_eq in He.
    exists e. tauto.
  - intros [e [He [Haction Hrole]]]. exists e. split; [exact Hrole |].
    apply filter_In. rewrite Z.eqb_eq. tauto.
Qed.

Lemma changes_for_changes_of (member_id : Z) :
  (exists e, In e (entries_of q guild_id member_id)) ->
  changes_of q (changes_for q guild_id member_id).
Proof.
  intros [e He]. unfold changes_of, changes_for. simpl.
  rewrite group_of_entries_of.
  split; [intros Hnil; rewrite Hnil in He; exact He |].
  split; [| split].
  - destruct (entries_of q guild_id member_id); [destruct He | reflexivity].
  - intros role. apply In_roles_with_action.
  - intros role. apply In_roles_with_action.
Qed.

End Queue.

(** Every entry of a queue the methods built is pending. *)
Lemma queue_built_pending (q : RoleChangeQueue) :
  queue_built q -> Forall pending (rows q).
Proof.
  induction 1 as [| now q action g m role Hbuilt IH | q ids Hbuilt IH]; simpl.
  - constructor.
  - apply Forall_app. split; [exact IH |]. constructor; [reflexivity | constructor].
  - rewrite Forall_forall in *. intros e He. apply filter_In in He. apply IH. tauto.
Qed.

(** C7.  The pending changes, grouped by member.  In a queue built by the
    methods every entry is pending.  For every queue and guild, the
    result has one item for each member with at least one entry in the
    guild and no other item; the item of a member holds the ids of the
    member's entries in the guild, as roles added the role ids of those
    with action grant and as roles removed the role ids of those with
    action revoke.  After a grant and a revoke of role 7 for one member,
    role 7 is among the roles added and among the roles removed. *)
Theorem fetch_role_changes_groups :
  (forall q : RoleChangeQueue, queue_built q -> Forall pending (rows q))
  /\
  (forall (q : RoleChangeQueue) (guild_id : Z),
      (forall c, In c (fetch_role_changes q guild_id) ->
                 MemberRoleChanges.guild_id c = guild_id /\ changes_of q c)
      /\ NoDup (map MemberRoleChanges.member_id (fetch_role_changes q guild_id))
      /\ (forall e, In e (rows q) ->
                    RoleChangeQueueTable.guild_id e = guild_id ->
                    exists c, In c (fetch_role_changes q guild_id)
                              /\ MemberRoleChanges.member_id c
                                 = RoleChangeQueueTable.member_id e))
  /\
  (forall (now now' : Z) (q : RoleChangeQueue) (guild_id member_id : Z),
      exists c,
        In c (fetch_role_changes
                (insert_role_change now'
                   (insert_role_change now q grant guild_id member_id 7)
                   revoke guild_id member_id 7)
                guild_id)
        /\ MemberRoleChanges.member_id c = member_id
        /\ In 7 (role_ids (MemberRoleChanges.roles_added c))
        /\ In 7 (role_ids (MemberRoleChanges.roles_removed c)))
  /\
  fetch_role_changes grant_then_revoke 10
  = [MemberRoleChanges.mk 10 20 (Some [1; 2]) (Some [7]) (Some [7])].
Proof.
  split; [exact queue_built_pending |].
  assert (Hgroups :
    forall (q : RoleChangeQueue) (guild_id : Z),
      (forall c, In c (fetch_role_changes q guild_id) ->
                 MemberRoleChanges.guild_id c = guild_id /\ changes_of q c)
      /\ NoDup (map MemberRoleChanges.member_id (fetch_role_changes q guild_id))
      /\ (forall e, In e (rows q) ->
                    RoleChangeQueueTable.guild_id e = guild_id ->
                    exists c, In c (fetch_role_changes q guild_id)
                              /\ MemberRoleChanges.member_id c
                                 = RoleChangeQueueTable.member_id e)).
  { intros q guild_id. rewrite fetch_role_changes_keys. split; [| split].
    - intros c Hc. apply in_map_iff in Hc. destruct Hc as [m [<- Hm]].
      split; [reflexivity |].
      apply changes_for_changes_of. now apply In_group_keys.
    - rewrite map_map. simpl. rewrite map_id. apply NoDup_nodup.
    - intros e He Hguild. exists (changes_for q guild_id (RoleChangeQueueTable.member_id e)).
      split; [| reflexivity].
      apply in_map. apply In_group_keys. exists e. apply In_entries_of. auto. }
  split; [exact Hgroups |]. split; [| reflexivity].
  intros now now' q guild_id member_id.
  set (q2 := insert_role_change now' _ _ _ _ _).
  destruct (Hgroups q2 guild_id) as [Hitems [_ Hcover]].
  set (e1 := RoleChangeQueueTable.mk (next_id q) 1 enqueued guild_id member_id 7 now).
  set (e2 := RoleChangeQueueTable.mk (next_id q + 1) 0 enqueued guild_id member_id 7 now').
  assert (H1 : In e1 (rows q2)) by (simpl; rewrite !in_app_iff; simpl; auto).
  assert (H2 : In e2 (rows q2)) by (simpl; rewrite !in_app_iff; simpl; auto).
  destruct (Hcover e1 H1 eq_refl) as [c [Hc Hmember]]. simpl in Hmember.
  exists c. split; [exact Hc |]. split; [exact Hmember |].
  destruct (Hitems c Hc) as [Hguild [_ [_ [Hadded Hremoved]]]].
  rewrite Hguild, Hmember in *.
  split.
  - apply Hadded. exists e1. split; [| split; reflexivity].
    apply In_entries_of. auto.
  - apply Hremoved. exists e2. split; [| split; reflexivity].
    apply In_entries_of. auto.
Qed.

Lemma fetch_role_changes_groups_witness :
  Forall pending (rows grant_then_revoke)
  /\ changes_of grant_then_revoke
       (MemberRoleChanges.mk 10 20 (Some [1; 2]) (Some [7]) (Some [7])).
Proof.
  split.
  - apply (proj1 fetch_role_changes_groups grant_then_revoke).
    unfold grant_then_revoke. repeat constructor.
  - apply (proj1 (proj1 (proj2 fetch_role_changes_groups) grant_then_revoke 10)
             (MemberRoleChanges.mk 10 20 (Some [1; 2]) (Some [7]) (Some [7]))).
    simpl. left. reflexivity.
Defined.

Lemma filter_twice {A : Type} (keep : A -> bool) (l : list A) :
  filter keep (filter keep l) = filter keep l.
Proof.
  induction l as [| x l IH]; simpl; [reflexivity |].
  destruct (keep x) eqn:Hkeep; simpl; [rewrite Hkeep, IH |]; auto.
Qed.

Lemma listed_id (ids : list Z) (e : RoleChangeQueueTable.t) :
  existsb (Z.eqb (RoleChangeQueueTable.id e)) ids = true
  <-> In (RoleChangeQueueTable.id e) ids.
Proof.
  rewrite existsb_exists. split.
  - intros [x [Hx Heq]]. apply Z.eqb_eq in Heq. now rewrite Heq.
  - intros Hin. exists (RoleChangeQueueTable.id e). split; [exact Hin | apply Z.eqb_refl].
Qed.

(** C8.  Deleting processed entries is idempotent.  The deletion is a
    total function of the queue and the ids; deleting the same ids a
    second time leaves the queue as the first deletion left it; no entry
    with one of the ids remains, and every other entry does. *)
Theorem delete_role_changes_idempotent (q : RoleChangeQueue) (ids : list Z) :
  delete_role_changes (delete_role_changes q ids) ids = delete_role_changes q ids
  /\ (forall e, In e (rows (delete_role_changes q ids)) ->
                ~ In (RoleChangeQueueTable.id e) ids)
  /\ (forall e, In e (rows q) -> ~ In (RoleChangeQueueTable.id e) ids ->
                In e (rows (delete_role_changes q ids))).
Proof.
  unfold delete_role_changes. simpl. split; [| split].
  - now rewrite filter_twice.
  - intros e He Hlisted. apply filter_In in He. destruct He as [_ Hkept].
    apply listed_id in Hlisted. rewrite Hlisted in Hkept. discriminate.
  - intros e He Hfree. apply filter_In. split; [exact He |].
    destruct (existsb _ ids) eqn:Hlisted; [| reflexivity].
    apply listed_id in Hlisted. contradiction.
Qed.

Lemma delete_role_changes_idempotent_witness :
  delete_role_changes (delete_role_changes grant_then_revoke [1]) [1]
  = delete_role_changes grant_then_revoke [1]
  /\ In (RoleChangeQueueTable.mk 2 0 enqueued 10 20 7 1001)
        (rows (delete_role_changes grant_then_revoke [1])).
Proof.
  destruct (delete_role_changes_idempotent grant_then_revoke [1]) as [Hsame [_ Hkept]].
  split; [exact Hsame |].
  apply Hkept.
  - simpl. right. left. reflexivity.
  - simpl. intros [Hid | []]. discriminate.
Defined.

(** * Further properties of the API *)

(** ** Keyed tables *)

Section Keyed.

Context {row : Type} (key : row -> Z).

Lemma filter_key_absent (k : Z) (l : list row) :
  ~ In k (map key l) -> filter (fun r => key r =? k) l = [].
Proof.
  induction l as [| x l IH]; simpl; [reflexivity |].
  intros Habsent. destruct (key x =? k) eqn:Hkey.
  - apply Z.eqb_eq in Hkey. tauto.
  - apply IH. tauto.
Qed.

Lemma filter_key_unique (r : row) (l : list row) :
  NoDup (map key l) -> In r l -> filter (fun x => key x =? key r) l = [r].
Proof.
  induction l as [| x l IH]; simpl; [tauto |].
  intros Hnodup Hin. apply NoDup_cons_iff in Hnodup. destruct Hnodup as [Hfresh Hnodup].
  destruct Hin as [-> | Hin].
  - rewrite Z.eqb_refl. now rewrite filter_key_absent.
  - destruct (key x =? key r) eqn:Hkey.
    + apply Z.eqb_eq in Hkey. exfalso. apply Hfresh. rewrite Hkey. now apply in_map.
    + now apply IH.
Qed.

Lemma well_keyed_fresh (t : Stored row) :
  well_keyed key t -> ~ In (next_id t) (map key (rows t)).
Proof.
  intros [_ Hbelow] Hin. apply in_map_iff in Hin. destruct Hin as [r [Hkey Hr]].
  rewrite Forall_forall in Hbelow. specialize (Hbelow r Hr). lia.
Qed.

Lemma well_keyed_append (t : Stored row) (r : row) :
  well_keyed key t -> key r = next_id t ->
  well_keyed key (mkStored (rows t ++ [r]) (next_id t + 1)).
Proof.
  intros Hkeyed Hkey. pose proof (well_keyed_fresh t Hkeyed) as Hfresh.
  destruct Hkeyed as [Hnodup Hbelow]. split; simpl.
  - rewrite map_app. simpl. apply NoDup_app; [exact Hnodup | repeat constructor; tauto |].
    intros k Hk [<- | []]. rewrite Hkey in Hk. contradiction.
  - apply Forall_app. split.
    + eapply Forall_impl; [| exact Hbelow]. simpl. intros; lia.
    + constructor; [lia | constructor].
Qed.

Lemma well_keyed_filter (t : Stored row) (keep : row -> bool) :
  well_keyed key t -> well_keyed key (mkStored (filter keep (rows t)) (next_id t)).
Proof.
  intros [Hnodup Hbelow]. split; simpl.
  - clear Hbelow. induction (rows t) as [| x l IH]; simpl; [constructor |].
    apply NoDup_cons_iff in Hnodup. destruct Hnodup as [Hfresh Hnodup].
    destruct (keep x); [| now apply IH]. simpl. constructor; [| now apply IH].
    intros Hin. apply Hfresh. apply in_map_iff in Hin. destruct Hin as [y [Hy Hin]].
    apply filter_In in Hin. rewrite <- Hy. apply in_map. tauto.
  - rewrite Forall_forall in *. intros r Hr. apply filter_In in Hr. apply Hbelow. tauto.
Qed.

Lemma well_keyed_map (t : Stored row) (change : row -> row) :
  (forall r, key (change r) = key r) ->
  well_keyed key t -> well_keyed key (mkStored (map change (rows t)) (next_id t)).
Proof.
  intros Hsame [Hnodup Hbelow]. split; simpl.
  - rewrite map_map. rewrite (map_ext _ key) by exact Hsame. exact Hnodup.
  - rewrite Forall_forall in *. intros r Hr. apply in_map_iff in Hr.
    destruct Hr as [x [<- Hx]]. rewrite Hsame. now apply Hbelow.
Qed.

End Keyed.

(** ** Level rewards: insertion, update, deletion *)

Lemma fetch_level_reward_by_id_found (db : LevelRewards) (r : LevelRewardsTable.t) :
  well_keyed LevelRewardsTable.id db -> In r (rows db) ->
  fetch_level_reward_by_id db (LevelRewardsTable.id r) = Some (LevelReward.from_table r).
Proof.
  intros [Hnodup _] Hin. unfold fetch_level_reward_by_id.
  now rewrite (filter_key_unique LevelRewardsTable.id r (rows db) Hnodup Hin).
Qed.

Lemma fetch_level_reward_by_id_key (db : LevelRewards) (id : Z) (r : LevelReward.t) :
  fetch_level_reward_by_id db id = Some r -> LevelReward.id r = id.
Proof.
  unfold fetch_level_reward_by_id.
  destruct (filter _ (rows db)) as [| x rest] eqn:Hsel; [discriminate |].
  intros [= <-].
  assert (Hin : In x (filter (fun r => LevelRewardsTable.id r =? id) (rows db)))
    by (rewrite Hsel; now left).
  apply filter_In in Hin. simpl. now apply Z.eqb_eq.
Qed.

(** X1.  A reward inserted into a well-keyed table is read back under
    the key the insertion returns: the event carries it, its guild, role
    and level are the ones given, no earlier reward is lost or changed,
    and the table stays well keyed. *)
Theorem insert_level_reward_round_trip (db : LevelRewards) (guild_id role_id level : Z) :
  well_keyed LevelRewardsTable.id db ->
  forall (db' : LevelRewards) (event : level_reward_event) (new_id : Z),
    insert_level_reward db guild_id role_id level = (db', event, new_id) ->
    fetch_level_reward_by_id db' new_id
      = Some (LevelReward.mk new_id guild_id role_id level)
    /\ event = pidroid_level_reward_add
                 (Some (LevelReward.mk new_id guild_id role_id level))
    /\ (forall id, id <> new_id ->
                   fetch_level_reward_by_id db' id = fetch_level_reward_by_id db id)
    /\ well_keyed LevelRewardsTable.id db'.
Proof.
  intros Hkeyed db' event new_id. unfold insert_level_reward. intros [= <- <- <-].
  set (entry := LevelRewardsTable.mk (next_id db) guild_id level role_id).
  set (db' := mkStored (rows db ++ [entry]) (next_id db + 1)).
  assert (Hkeyed' : well_keyed LevelRewardsTable.id db')
    by (apply well_keyed_append; [exact Hkeyed | reflexivity]).
  assert (Hfetch : fetch_level_reward_by_id db' (next_id db)
                   = Some (LevelReward.mk (next_id db) guild_id role_id level)).
  { apply (fetch_level_reward_by_id_found db' entry Hkeyed').
    simpl. apply in_or_app. right. now left. }
  simpl. split; [exact Hfetch |]. split; [now rewrite Hfetch |]. split; [| exact Hkeyed'].
  intros id Hid. unfold fetch_level_reward_by_id. simpl.
  rewrite filter_app. simpl.
  destruct (next_id db =? id) eqn:Hsame; [apply Z.eqb_eq in Hsame; congruence |].
  now rewrite app_nil_r.
Qed.

Lemma insert_level_reward_round_trip_witness :
  fetch_level_reward_by_id (fst (fst (insert_level_reward sample_rewards 10 530 30))) 5
    = Some (LevelReward.mk 5 10 530 30)
  /\ snd (fst (insert_level_reward sample_rewards 10 530 30))
     = pidroid_level_reward_add (Some (LevelReward.mk 5 10 530 30))
  /\ (forall id, id <> 5 ->
                 fetch_level_reward_by_id
                   (fst (fst (insert_level_reward sample_rewards 10 530 30))) id
                 = fetch_level_reward_by_id sample_rewards id)
  /\ well_keyed LevelRewardsTable.id (fst (fst (insert_level_reward sample_rewards 10 530 30))).
Proof.
  apply (insert_level_reward_round_trip sample_rewards 10 530 30).
  - split; simpl.
    + repeat constructor; simpl; intuition lia.
    + repeat constructor.
  - reflexivity.
Defined.

Lemma fetch_level_reward_by_id_none (db : LevelRewards) (id : Z) :
  fetch_level_reward_by_id db id = None ->
  forall r, In r (rows db) -> (LevelRewardsTable.id r =? id) = false.
Proof.
  unfold fetch_level_reward_by_id.
  destruct (filter _ (rows db)) as [| x rest] eqn:Hsel; [| discriminate].
  intros _ r Hr. destruct (LevelRewardsTable.id r =? id) eqn:Hid; [| reflexivity].
  assert (Hin : In r (filter (fun r => LevelRewardsTable.id r =? id) (rows db)))
    by (apply filter_In; auto).
  rewrite Hsel in Hin. destruct Hin.
Qed.

Lemma filter_all_kept {A : Type} (keep : A -> bool) (l : list A) :
  (forall x, In x l -> keep x = true) -> filter keep l = l.
Proof.
  induction l as [| x l IH]; simpl; [reflexivity |].
  intros Hall. rewrite (Hall x) by now left. f_equal. apply IH. auto.
Qed.

Lemma map_all_fixed {A : Type} (change : A -> A) (l : list A) :
  (forall x, In x l -> change x = x) -> map change l = l.
Proof.
  induction l as [| x l IH]; simpl; [reflexivity |].
  intros Hall. rewrite (Hall x) by now left. f_equal. apply IH. auto.
Qed.

(** X2.  Deleting a reward by key: no reward is read under that key
    afterwards, every other key reads as before, and the event carries the
    reward as it was, or none where the key was absent, in which case the
    table is left as it was. *)
Theorem delete_level_reward_removes (db : LevelRewards) (id : Z) :
  fetch_level_reward_by_id (fst (_delete_level_reward db id)) id = None
  /\ (forall other, other <> id ->
        fetch_level_reward_by_id (fst (_delete_level_reward db id)) other
        = fetch_level_reward_by_id db other)
  /\ (fetch_level_reward_by_id db id = None ->
      _delete_level_reward db id = (db, pidroid_level_reward_remove None))
  /\ (forall r, fetch_level_reward_by_id db id = Some r ->
        snd (_delete_level_reward db id) = pidroid_level_reward_remove (Some r)
        /\ LevelReward.id r = id).
Proof.
  unfold _delete_level_reward. simpl. split; [| split; [| split]].
  - unfold fetch_level_reward_by_id. simpl.
    induction (rows db) as [| x l IH]; simpl; [reflexivity |].
    destruct (LevelRewardsTable.id x =? id) eqn:Hx; simpl; [exact IH |].
    now rewrite Hx.
  - intros other Hother. unfold fetch_level_reward_by_id. simpl.
    replace (filter (fun r => LevelRewardsTable.id r =? other)
               (filter (fun r => negb (LevelRewardsTable.id r =? id)) (rows db)))
      with (filter (fun r => LevelRewardsTable.id r =? other) (rows db)); [reflexivity |].
    induction (rows db) as [| x l IH]; simpl; [reflexivity |].
    destruct (LevelRewardsTable.id x =? id) eqn:Hx; simpl.
    + apply Z.eqb_eq in Hx.
      destruct (LevelRewardsTable.id x =? other) eqn:Hy; [| exact IH].
      apply Z.eqb_eq in Hy. congruence.
    + destruct (LevelRewardsTable.id x =? other); [now rewrite IH | exact IH].
  - intros Hnone. rewrite Hnone. destruct db as [rs next]. simpl.
    rewrite filter_all_kept; [reflexivity |]. intros x Hx.
    now rewrite (fetch_level_reward_by_id_none _ _ Hnone x Hx).
  - intros r Hsome. rewrite Hsome. split; [reflexivity |].
    eapply fetch_level_reward_by_id_key. exact Hsome.
Qed.

(** X3.  Updating a reward by key sets its role and level and keeps its
    key and guild; every other key reads as before, and an absent key
    leaves the table as it was. *)
Theorem update_level_reward_by_id_sets (db : LevelRewards) (id role_id level : Z) :
  (forall r, fetch_level_reward_by_id db id = Some r ->
     fetch_level_reward_by_id (update_level_reward_by_id db id role_id level) id
     = Some (LevelReward.mk id (LevelReward.guild_id r) role_id level))
  /\ (forall other, other <> id ->
        fetch_level_reward_by_id (update_level_reward_by_id db id role_id level) other
        = fetch_level_reward_by_id db other)
  /\ (fetch_level_reward_by_id db id = None ->
      update_level_reward_by_id db id role_id level = db).
Proof.
  unfold update_level_reward_by_id, fetch_level_reward_by_id. simpl.
  split; [| split].
  - intros r. induction (rows db) as [| x l IH]; simpl; [discriminate |].
    destruct (LevelRewardsTable.id x =? id) eqn:Hx; simpl.
    + rewrite Hx. apply Z.eqb_eq in Hx. intros [= <-]. simpl. now rewrite Hx.
    + rewrite Hx. exact IH.
  - intros other Hother.
    induction (rows db) as [| x l IH]; simpl; [reflexivity |].
    destruct (LevelRewardsTable.id x =? id) eqn:Hx; simpl.
    + apply Z.eqb_eq in Hx.
      destruct (LevelRewardsTable.id x =? other) eqn:Hy; [| exact IH].
      apply Z.eqb_eq in Hy. congruence.
    + destruct (LevelRewardsTable.id x =? other); [reflexivity | exact IH].
  - intros Hnone. destruct db as [rs next]. simpl.
    rewrite map_all_fixed; [reflexivity |]. intros x Hx.
    now rewrite (fetch_level_reward_by_id_none (mkStored rs next) id Hnone x Hx).
Qed.

Lemma update_level_reward_by_id_sets_witness :
  fetch_level_reward_by_id (update_level_reward_by_id sample_rewards 3 521 25) 3
  = Some (LevelReward.mk 3 10 521 25)
  /\ fetch_level_reward_by_id (update_level_reward_by_id sample_rewards 3 521 25) 4
     = fetch_level_reward_by_id sample_rewards 4
  /\ update_level_reward_by_id sample_rewards 9 521 25 = sample_rewards.
Proof.
  destruct (update_level_reward_by_id_sets sample_rewards 3 521 25) as [Hset [Hother _]].
  destruct (update_level_reward_by_id_sets sample_rewards 9 521 25) as [_ [_ Habsent]].
  split; [| split].
  - apply (Hset (LevelReward.mk 3 10 520 20)). reflexivity.
  - apply (Hother 4). discriminate.
  - apply Habsent. reflexivity.
Defined.

Lemma delete_level_reward_removes_witness :
  snd (_delete_level_reward sample_rewards 3)
    = pidroid_level_reward_remove (Some (LevelReward.mk 3 10 520 20))
  /\ fetch_level_reward_by_id (fst (_delete_level_reward sample_rewards 3)) 3 = None
  /\ fetch_level_reward_by_id (fst (_delete_level_reward sample_rewards 3)) 4
     = fetch_level_reward_by_id sample_rewards 4
  /\ _delete_level_reward sample_rewards 9 = (sample_rewards, pidroid_level_reward_remove None).
Proof.
  destruct (delete_level_reward_removes sample_rewards 3) as [Hgone [Hother [_ Hevent]]].
  destruct (delete_level_reward_removes sample_rewards 9) as [_ [_ [Habsent _]]].
  split; [| split; [| split]].
  - apply (Hevent (LevelReward.mk 3 10 520 20)). reflexivity.
  - exact Hgone.
  - apply (Hother 4). discriminate.
  - apply Habsent. reflexivity.
Defined.

(** ** Level rewards: the ordered queries *)

Lemma insert_level_desc_permutation (r : LevelRewardsTable.t) (l : list LevelRewardsTable.t) :
  Permutation (insert_level_desc r l) (r :: l).
Proof.
  induction l as [| x l IH]; simpl; [reflexivity |].
  destruct (LevelRewardsTable.level x <=? LevelRewardsTable.level r); [reflexivity |].
  rewrite IH. apply perm_swap.
Qed.

Lemma order_by_level_desc_permutation (l : list LevelRewardsTable.t) :
  Permutation (order_by_level_desc l) l.
Proof.
  induction l as [| x l IH]; simpl; [reflexivity |].
  rewrite insert_level_desc_permutation. now constructor.
Qed.

Lemma descending_rewards (l : list LevelRewardsTable.t) :
  descending l -> rewards_descending (map LevelReward.from_table l).
Proof.
  unfold descending, rewards_descending.
  induction 1 as [| x l Hsorted IH Hhead]; simpl; constructor; [exact IH |].
  rewrite Forall_forall in *. intros y Hy. apply in_map_iff in Hy.
  destruct Hy as [z [<- Hz]]. simpl. now apply Hhead.
Qed.

(** X4.  The rewards of a guild, listed: the list holds each reward of
    the guild once, no reward of another guild, and is ordered by level,
    highest first. *)
Theorem fetch_all_guild_level_rewards_sorted (db : LevelRewards) (guild_id : Z) :
  Permutation (fetch_all_guild_level_rewards db guild_id)
              (map LevelReward.from_table
                   (filter (fun r => LevelRewardsTable.guild_id r =? guild_id) (rows db)))
  /\ rewards_descending (fetch_all_guild_level_rewards db guild_id)
  /\ Forall (fun r => LevelReward.guild_id r = guild_id)
            (fetch_all_guild_level_rewards db guild_id).
Proof.
  unfold fetch_all_guild_level_rewards. split; [| split].
  - apply Permutation_map, order_by_level_desc_permutation.
  - apply descending_rewards, order_by_level_desc_descending.
  - rewrite Forall_forall. intros r Hr. apply in_map_iff in Hr.
    destruct Hr as [x [<- Hx]]. apply order_by_level_desc_In, filter_In in Hx.
    simpl. now apply Z.eqb_eq.
Qed.

(** X5.  The rewards eligible for a level are the listed rewards of the
    guild whose level is at most the given one, ordered by level, highest
    first; the eligible reward is the first of them. *)
Theorem fetch_eligible_level_rewards_for_level_sorted
    (db : LevelRewards) (guild_id level : Z) :
  (forall r, In r (fetch_eligible_level_rewards_for_level db guild_id level) <->
             In r (fetch_all_guild_level_rewards db guild_id)
             /\ LevelReward.level r <= level)
  /\ rewards_descending (fetch_eligible_level_rewards_for_level db guild_id level)
  /\ fetch_eligible_level_reward_for_level db guild_id level
     = hd_error (fetch_eligible_level_rewards_for_level db guild_id level).
Proof.
  split; [| split].
  - intros r. unfold fetch_eligible_level_rewards_for_level, fetch_all_guild_level_rewards.
    rewrite !in_map_iff. split.
    + intros [x [<- Hx]]. apply order_by_level_desc_In, filter_In in Hx.
      destruct Hx as [Hx Hkeep]. apply andb_true_iff in Hkeep.
      destruct Hkeep as [Hguild Hlevel]. split.
      * exists x. split; [reflexivity |]. apply order_by_level_desc_In, filter_In. auto.
      * simpl. now apply Z.leb_le.
    + intros [[x [<- Hx]] Hlevel]. apply order_by_level_desc_In, filter_In in Hx.
      exists x. split; [reflexivity |]. apply order_by_level_desc_In, filter_In.
      split; [tauto |]. apply andb_true_iff. split; [tauto |]. now apply Z.leb_le.
  - apply descending_rewards, order_by_level_desc_descending.
  - unfold fetch_eligible_level_reward_for_level.
    destruct (fetch_eligible_level_rewards_for_level db guild_id level); reflexivity.
Qed.

(** The eligible reward, by cases. *)
Lemma eligible_reward_cases (db : LevelRewards) (guild_id level : Z) :
  match fetch_eligible_level_reward_for_level db guild_id level with
  | Some r => highest_eligible db guild_id level r
  | None => forall r, reward_of_guild db guild_id r -> ~ LevelReward.level r <= level
  end.
Proof.
  unfold fetch_eligible_level_reward_for_level, fetch_eligible_level_rewards_for_level.
  pose proof (first_of_ordered
                (fun r => (LevelRewardsTable.guild_id r =? guild_id)
                          && (LevelRewardsTable.level r <=? level)) (rows db)) as Hfirst.
  destruct (order_by_level_desc _) as [| x rest]; simpl.
  - intros r [y [Hy [Hguild ->]]] Hlevel. specialize (Hfirst y Hy). simpl in *.
    apply andb_false_iff in Hfirst. destruct Hfirst as [Hfirst | Hfirst].
    + apply Z.eqb_neq in Hfirst. contradiction.
    + apply Z.leb_gt in Hfirst. lia.
  - destruct Hfirst as [Hin [Hkeep Hmax]].
    apply andb_true_iff in Hkeep. destruct Hkeep as [Hguild Hlevel].
    apply Z.eqb_eq in Hguild. apply Z.leb_le in Hlevel.
    split; [exists x; auto |]. split; [exact Hlevel |].
    intros r' [y [Hy [Hyguild ->]]] Hylevel. simpl in *.
    apply Hmax; [exact Hy |].
    apply andb_true_iff. split; [now apply Z.eqb_eq | now apply Z.leb_le].
Qed.

(** X6.  The eligible reward grows with the level: a member who rises
    from a level with an eligible reward to a higher level still has one,
    of the same or a higher level. *)
Theorem eligible_reward_monotone (db : LevelRewards) (guild_id level level' : Z)
    (r : LevelReward.t) :
  level <= level' ->
  fetch_eligible_level_reward_for_level db guild_id level = Some r ->
  exists r',
    fetch_eligible_level_reward_for_level db guild_id level' = Some r'
    /\ LevelReward.level r <= LevelReward.level r'.
Proof.
  intros Hle Hlow.
  pose proof (eligible_reward_cases db guild_id level) as Hat.
  rewrite Hlow in Hat. destruct Hat as [Hguild [Hlevel _]].
  pose proof (eligible_reward_cases db guild_id level') as Hat'.
  destruct (fetch_eligible_level_reward_for_level db guild_id level') as [r' |].
  - exists r'. split; [reflexivity |].
    destruct Hat' as [_ [_ Hmax]]. apply Hmax; [exact Hguild | lia].
  - exfalso. apply (Hat' r Hguild). lia.
Qed.

Lemma eligible_reward_monotone_witness :
  exists r',
    fetch_eligible_level_reward_for_level sample_rewards 10 12 = Some r'
    /\ LevelReward.level (LevelReward.mk 4 10 505 5) <= LevelReward.level r'.
Proof.
  apply (eligible_reward_monotone sample_rewards 10 7 12 (LevelReward.mk 4 10 505 5)).
  - discriminate.
  - reflexivity.
Defined.

(** X7.  The previous reward of a level is the eligible reward of the
    level below it. *)
Theorem previous_reward_is_eligible_below (db : LevelRewards) (guild_id level : Z) :
  _fetch_previous_level_reward db guild_id level
  = fetch_eligible_level_reward_for_level db guild_id (level - 1).
Proof.
  unfold _fetch_previous_level_reward, fetch_eligible_level_reward_for_level,
    fetch_eligible_level_rewards_for_level.
  rewrite (filter_ext
             (fun r => (LevelRewardsTable.guild_id r =? guild_id)
                       && (LevelRewardsTable.level r <? level))
             (fun r => (LevelRewardsTable.guild_id r =? guild_id)
                       && (LevelRewardsTable.level r <=? level - 1))).
  - destruct (order_by_level_desc _); reflexivity.
  - intros r. f_equal.
    destruct (LevelRewardsTable.level r <? level) eqn:Hlt;
      destruct (LevelRewardsTable.level r <=? level - 1) eqn:Hle; try reflexivity.
    + apply Z.ltb_lt in Hlt. apply Z.leb_gt in Hle. lia.
    + apply Z.ltb_ge in Hlt. apply Z.leb_le in Hle. lia.
Qed.

(** X8.  A reward inserted at a level is taken into account from that
    level on and nowhere else: every level of the guild from the reward's
    level on has an eligible reward of at least that level, the levels
    below it and the other guilds are answered as before, and a role
    without a reward reads back as the reward inserted. *)
Theorem insert_level_reward_eligible (db : LevelRewards) (guild_id role_id level : Z) :
  let db' := fst (fst (insert_level_reward db guild_id role_id level)) in
  (forall member_level, level <= member_level ->
     exists r, fetch_eligible_level_reward_for_level db' guild_id member_level = Some r
               /\ level <= LevelReward.level r)
  /\ (forall member_level, member_level < level ->
        fetch_eligible_level_reward_for_level db' guild_id member_level
        = fetch_eligible_level_reward_for_level db guild_id member_level)
  /\ (forall other_guild member_level, other_guild <> guild_id ->
        fetch_eligible_level_reward_for_level db' other_guild member_level
        = fetch_eligible_level_reward_for_level db other_guild member_level)
  /\ (fetch_level_reward_by_role db guild_id role_id = None ->
      fetch_level_reward_by_role db' guild_id role_id
      = Some (LevelReward.mk (next_id db) guild_id role_id level)).
Proof.
  simpl. set (entry := LevelRewardsTable.mk (next_id db) guild_id level role_id).
  set (db' := mkStored (rows db ++ [entry]) (next_id db + 1)).
  split; [| split; [| split]].
  - intros member_level Hlevel.
    assert (Hentry : reward_of_guild db' guild_id (LevelReward.from_table entry)).
    { exists entry. simpl. split; [| auto]. apply in_or_app. right. now left. }
    pose proof (eligible_reward_cases db' guild_id member_level) as Hat.
    destruct (fetch_eligible_level_reward_for_level db' guild_id member_level) as [r |].
    + exists r. split; [reflexivity |].
      destruct Hat as [_ [_ Hmax]]. apply (Hmax _ Hentry). exact Hlevel.
    + exfalso. apply (Hat _ Hentry). exact Hlevel.
  - intros member_level Hbelow.
    unfold fetch_eligible_level_reward_for_level, fetch_eligible_level_rewards_for_level.
    simpl. rewrite filter_app. simpl.
    replace (level <=? member_level) with false by (symmetry; apply Z.leb_gt; lia).
    rewrite andb_false_r, app_nil_r. reflexivity.
  - intros other_guild member_level Hother.
    unfold fetch_eligible_level_reward_for_level, fetch_eligible_level_rewards_for_level.
    simpl. rewrite filter_app. simpl.
    replace (guild_id =? other_guild) with false by (symmetry; apply Z.eqb_neq; congruence).
    simpl. rewrite app_nil_r. reflexivity.
  - unfold fetch_level_reward_by_role. simpl. rewrite filter_app. simpl.
    destruct (filter _ (rows db)); [| discriminate].
    intros _. simpl. now rewrite !Z.eqb_refl.
Qed.

Lemma insert_level_reward_eligible_witness :
  (exists r,
      fetch_eligible_level_reward_for_level
        (fst (fst (insert_level_reward sample_rewards 10 515 15))) 10 17 = Some r
      /\ 15 <= LevelReward.level r)
  /\ fetch_eligible_level_reward_for_level
       (fst (fst (insert_level_reward sample_rewards 10 515 15))) 10 12
     = fetch_eligible_level_reward_for_level sample_rewards 10 12
  /\ fetch_eligible_level_reward_for_level
       (fst (fst (insert_level_reward sample_rewards 10 515 15))) 11 17
     = fetch_eligible_level_reward_for_level sample_rewards 11 17
  /\ fetch_level_reward_by_role
       (fst (fst (insert_level_reward sample_rewards 10 515 15))) 10 515
     = Some (LevelReward.mk 5 10 515 15).
Proof.
  destruct (insert_level_reward_eligible sample_rewards 10 515 15)
    as [Hfrom [Hbelow [Hother Hrole]]].
  split; [| split; [| split]].
  - apply (Hfrom 17). discriminate.
  - apply (Hbelow 12). reflexivity.
  - apply (Hother 11 17). discriminate.
  - apply Hrole. reflexivity.
Defined.

(** X9.  A reward is found at a level of a guild exactly when the
    eligible reward of that level has that very level; the reward found
    is of the guild and of the level asked for. *)
Theorem reward_by_level_is_eligible (db : LevelRewards) (guild_id level : Z) :
  (forall r, fetch_guild_level_reward_by_level db guild_id level = Some r ->
             LevelReward.guild_id r = guild_id /\ LevelReward.level r = level)
  /\ (fetch_guild_level_reward_by_level db guild_id level <> None <->
      exists r, fetch_eligible_level_reward_for_level db guild_id level = Some r
                /\ LevelReward.level r = level).
Proof.
  assert (Hfound : forall r,
             fetch_guild_level_reward_by_level db guild_id level = Some r ->
             reward_of_guild db guild_id r /\ LevelReward.level r = level).
  { unfold fetch_guild_level_reward_by_level. intros r.
    destruct (filter _ (rows db)) as [| x rest] eqn:Hsel; [discriminate |].
    intros [= <-].
    assert (Hin : In x (filter (fun r => (LevelRewardsTable.guild_id r =? guild_id)
                                         && (LevelRewardsTable.level r =? level)) (rows db)))
      by (rewrite Hsel; now left).
    apply filter_In in Hin. destruct Hin as [Hx Hkeep].
    apply andb_true_iff in Hkeep. rewrite !Z.eqb_eq in Hkeep.
    split; [exists x; tauto | simpl; tauto]. }
  split.
  - intros r Hr. destruct (Hfound r Hr) as [[x [_ [Hguild ->]]] Hlevel]. simpl in *. auto.
  - split.
    + destruct (fetch_guild_level_reward_by_level db guild_id level) as [r |] eqn:Hby;
        [| congruence].
      intros _. destruct (Hfound r eq_refl) as [Hguild Hlevel].
      pose proof (eligible_reward_cases db guild_id level) as Hat.
      destruct (fetch_eligible_level_reward_for_level db guild_id level) as [r' |].
      * exists r'. split; [reflexivity |].
        destruct Hat as [_ [Hle Hmax]]. specialize (Hmax r Hguild). lia.
      * exfalso. apply (Hat r Hguild). lia.
    + intros [r [Heligible Hlevel]].
      pose proof (eligible_reward_cases db guild_id level) as Hat.
      rewrite Heligible in Hat. destruct Hat as [[x [Hx [Hguild ->]]] _].
      unfold fetch_guild_level_reward_by_level.
      destruct (filter _ (rows db)) as [| y rest] eqn:Hsel; [| discriminate].
      exfalso.
      assert (Hin : In x (filter (fun r => (LevelRewardsTable.guild_id r =? guild_id)
                                           && (LevelRewardsTable.level r =? level)) (rows db))).
      { apply filter_In. split; [exact Hx |]. simpl in Hlevel.
        apply andb_true_iff. now rewrite !Z.eqb_eq. }
      rewrite Hsel in Hin. destruct Hin.
Qed.

Lemma reward_by_level_is_eligible_witness :
  LevelReward.guild_id (LevelReward.mk 3 10 520 20) = 10
  /\ LevelReward.level (LevelReward.mk 3 10 520 20) = 20
  /\ fetch_guild_level_reward_by_level sample_rewards 10 20 <> None.
Proof.
  destruct (reward_by_level_is_eligible sample_rewards 10 20) as [Hfound Hiff].
  split; [| split].
  - apply (Hfound (LevelReward.mk 3 10 520 20)). reflexivity.
  - apply (Hfound (LevelReward.mk 3 10 520 20)). reflexivity.
  - apply Hiff. exists (LevelReward.mk 3 10 520 20). split; reflexivity.
Defined.

(** ** Member levels: rankings *)

Section Pages.

Context {A : Type}.


Lemma In_firstn (n : nat) (l : list A) (x : A) : In x (firstn n l) -> In x l.
Proof.
  intros Hin. rewrite <- (firstn_skipn n l). apply in_or_app. now left.
Qed.

Lemma In_skipn (n : nat) (l : list A) (x : A) : In x (skipn n l) -> In x l.
Proof.
  intros Hin. rewrite <- (firstn_skipn n l). apply in_or_app. now right.
Qed.

Lemma StronglySorted_skipn (R : A -> A -> Prop) (n : nat) (l : list A) :
  StronglySorted R l -> StronglySorted R (skipn n l).
Proof.
  revert l. induction n as [| n IH]; intros l Hsorted; [exact Hsorted |].
  destruct l as [| x l]; [exact Hsorted |].
  simpl. apply IH. now apply StronglySorted_inv in Hsorted.
Qed.

Lemma StronglySorted_firstn (R : A -> A -> Prop) (n : nat) (l : list A) :
  StronglySorted R l -> StronglySorted R (firstn n l).
Proof.
  revert l. induction n as [| n IH]; intros l Hsorted; [constructor |].
  destruct l as [| x l]; [constructor |].
  apply StronglySorted_inv in Hsorted. destruct Hsorted as [Hsorted Hhead].
  simpl. constructor; [now apply IH |].
  rewrite Forall_forall in *. intros y Hy. apply Hhead. eapply In_firstn. exact Hy.
Qed.

End Pages.

Lemma insert_total_xp_desc_In (r y : UserLevelsTable.t) (l : list UserLevelsTable.t) :
  In y (insert_total_xp_desc r l) <-> y = r \/ In y l.
Proof.
  induction l as [| x l IH]; simpl.
  - intuition auto.
  - destruct (UserLevelsTable.total_xp x <=? UserLevelsTable.total_xp r); simpl.
    + intuition auto.
    + rewrite IH. intuition auto.
Qed.

Lemma order_by_total_xp_desc_In (y : UserLevelsTable.t) (l : list UserLevelsTable.t) :
  In y (order_by_total_xp_desc l) <-> In y l.
Proof.
  induction l as [| x l IH]; simpl; [reflexivity |].
  rewrite insert_total_xp_desc_In, IH. intuition auto.
Qed.

Lemma order_by_total_xp_desc_sorted (l : list UserLevelsTable.t) :
  StronglySorted
    (fun a b => UserLevelsTable.total_xp b <= UserLevelsTable.total_xp a)
    (order_by_total_xp_desc l).
Proof.
  induction l as [| r l IH]; simpl; [constructor |].
  induction IH as [| x sorted Hsorted IHs Hhead]; simpl.
  - constructor; constructor.
  - destruct (UserLevelsTable.total_xp x <=? UserLevelsTable.total_xp r) eqn:Hcmp.
    + apply Z.leb_le in Hcmp. constructor; [constructor; assumption |].
      constructor; [exact Hcmp |].
      rewrite Forall_forall in *. intros y Hy. specialize (Hhead y Hy). lia.
    + apply Z.leb_gt in Hcmp. constructor; [exact IHs |].
      rewrite Forall_forall in *. intros y Hy.
      apply insert_total_xp_desc_In in Hy. destruct Hy as [-> | Hy]; [lia | auto].
Qed.

(** The rankings, as one map over a page of the ordered selection. *)
Lemma fetch_guild_level_rankings_page (db : UserLevels) (guild_id start limit : Z) :
  fetch_guild_level_rankings db guild_id start limit
  = map (fun r =>
           from_table_ranked r
             (rank_over_total_xp
                (filter (fun r => UserLevelsTable.guild_id r =? guild_id) (rows db)) r))
        (firstn (Z.to_nat limit)
           (skipn (Z.to_nat start)
              (order_by_total_xp_desc
                 (filter (fun r => UserLevelsTable.guild_id r =? guild_id) (rows db))))).
Proof.
  unfold fetch_guild_level_rankings.
  rewrite skipn_map, firstn_map, map_map. reflexivity.
Qed.

(** X10.  The rankings of a guild.  A page has at most [limit] entries,
    all of the guild, ordered by total, highest first; the rank of an
    entry is one more than the number of rows of the guild with a
    strictly higher total, whatever the page; and the first entry of the
    first page has rank 1. *)
Theorem fetch_guild_level_rankings_ranked (db : UserLevels) (guild_id start limit : Z) :
  0 <= start -> 0 <= limit ->
  Z.of_nat (List.length (fetch_guild_level_rankings db guild_id start limit)) <= limit
  /\ totals_descending (fetch_guild_level_rankings db guild_id start limit)
  /\ Forall (fun info =>
               MemberLevelInfo.guild_id info = guild_id
               /\ MemberLevelInfo.rank info
                  = Some (1 + members_ahead db guild_id (MemberLevelInfo.total_xp info)))
            (fetch_guild_level_rankings db guild_id start limit)
  /\ (forall first,
         start = 0 ->
         hd_error (fetch_guild_level_rankings db guild_id start limit) = Some first ->
         MemberLevelInfo.rank first = Some 1).
Proof.
  intros Hstart Hlimit. rewrite fetch_guild_level_rankings_page.
  set (selected := filter (fun r => UserLevelsTable.guild_id r =? guild_id) (rows db)).
  pose proof (order_by_total_xp_desc_sorted selected) as Hsorted.
  split; [| split; [| split]].
  - rewrite length_map. pose proof (firstn_le_length (Z.to_nat limit)
      (skipn (Z.to_nat start) (order_by_total_xp_desc selected))). lia.
  - unfold totals_descending.
    apply (StronglySorted_skipn _ (Z.to_nat start)) in Hsorted.
    apply (StronglySorted_firstn _ (Z.to_nat limit)) in Hsorted.
    induction Hsorted as [| x l Hs IH Hhead]; simpl; constructor; [exact IH |].
    rewrite Forall_forall in *. intros y Hy. apply in_map_iff in Hy.
    destruct Hy as [z [<- Hz]]. simpl. now apply Hhead.
  - rewrite Forall_forall. intros info Hinfo. apply in_map_iff in Hinfo.
    destruct Hinfo as [r [<- Hr]]. apply In_firstn, In_skipn in Hr.
    apply (proj1 (order_by_total_xp_desc_In _ _)) in Hr. apply filter_In in Hr.
    simpl. split; [now apply Z.eqb_eq | reflexivity].
  - intros first -> Hfirst. simpl in Hfirst.
    destruct (order_by_total_xp_desc selected) as [| x rest] eqn:Horder;
      [now rewrite firstn_nil in Hfirst |].
    destruct (Z.to_nat limit) as [| n]; [discriminate |].
    simpl in Hfirst. injection Hfirst as <-. simpl. f_equal.
    unfold rank_over_total_xp.
    replace (filter (fun y => UserLevelsTable.total_xp x <? UserLevelsTable.total_xp y) selected)
      with (@nil UserLevelsTable.t); [reflexivity |].
    symmetry. apply StronglySorted_inv in Hsorted. destruct Hsorted as [_ Hhead].
    rewrite Forall_forall in Hhead.
    assert (Hall : forall y, In y selected ->
                     (UserLevelsTable.total_xp x <? UserLevelsTable.total_xp y) = false).
    { intros y Hy. apply Z.ltb_ge.
      assert (Hy' : In y (x :: rest)) by (rewrite <- Horder; now apply order_by_total_xp_desc_In).
      destruct Hy' as [<- | Hy']; [lia | now apply Hhead]. }
    clear -Hall. induction selected as [| y l IH]; simpl; [reflexivity |].
    rewrite (Hall y) by now left. apply IH. intros z Hz. apply Hall. now right.
Qed.

Lemma fetch_guild_level_rankings_ranked_witness :
  Z.of_nat (List.length (fetch_guild_level_rankings sample_levels 10 0 10)) <= 10
  /\ totals_descending (fetch_guild_level_rankings sample_levels 10 0 10)
  /\ hd_error (fetch_guild_level_rankings sample_levels 10 0 10)
     = Some (MemberLevelInfo.mk 1 10 20 650 30 220 2 (Some "#"%string) (Some 1)).
Proof.
  destruct (fetch_guild_level_rankings_ranked sample_levels 10 0 10)
    as [Hlength [Hsorted _]]; try discriminate.
  split; [exact Hlength |]. split; [exact Hsorted | reflexivity].
Defined.



(** ** Member levels: the rank of one member *)

Lemma filter_guild_member (guild_id user_id : Z) (l : list UserLevelsTable.t) :
  filter (fun r => UserLevelsTable.user_id r =? user_id)
         (filter (fun r => UserLevelsTable.guild_id r =? guild_id) l)
  = filter (is_member_row guild_id user_id) l.
Proof.
  unfold is_member_row. induction l as [| x l IH]; simpl; [reflexivity |].
  destruct (UserLevelsTable.guild_id x =? guild_id); simpl; [| exact IH].
  destruct (UserLevelsTable.user_id x =? user_id); [now rewrite IH | exact IH].
Qed.

Lemma filter_ranked (user_id : Z) (rank : UserLevelsTable.t -> Z) (l : list UserLevelsTable.t) :
  filter (fun '(r, _) => UserLevelsTable.user_id r =? user_id) (map (fun r => (r, rank r)) l)
  = map (fun r => (r, rank r)) (filter (fun r => UserLevelsTable.user_id r =? user_id) l).
Proof.
  induction l as [| x l IH]; simpl; [reflexivity |].
  destruct (UserLevelsTable.user_id x =? user_id); simpl; now rewrite IH.
Qed.

(** The ranked state of a member is the member's state with the rank. *)
Lemma fetch_ranked_as_fetch (db : UserLevels) (guild_id user_id : Z) :
  fetch_ranked_user_level_info db guild_id user_id
  = option_map
      (fun info =>
         with_rank info (1 + members_ahead db guild_id (MemberLevelInfo.total_xp info)))
      (fetch_user_level_info db guild_id user_id).
Proof.
  unfold fetch_ranked_user_level_info, fetch_user_level_info.
  rewrite filter_ranked, filter_guild_member.
  destruct (filter (is_member_row guild_id user_id) (rows db)); reflexivity.
Qed.


Lemma count_filter_map {A : Type} (p q : A -> bool) (change : A -> A) (l : list A) :
  (forall x, p (change x) = true -> q x = true) ->
  (List.length (filter p (map change l)) <= List.length (filter q l))%nat.
Proof.
  intros Himp. induction l as [| x l IH]; simpl; [lia |].
  destruct (p (change x)) eqn:Hp.
  - rewrite (Himp x Hp). simpl. lia.
  - destruct (q x); simpl; lia.
Qed.

Lemma filter_guild_update (guild_id g m xp thr amount lvl : Z) (l : list UserLevelsTable.t) :
  filter (fun r => UserLevelsTable.guild_id r =? guild_id)
         (map (update_levels g m xp thr amount lvl) l)
  = map (update_levels g m xp thr amount lvl)
        (filter (fun r => UserLevelsTable.guild_id r =? guild_id) l).
Proof.
  induction l as [| x l IH]; simpl; [reflexivity |].
  replace (UserLevelsTable.guild_id (update_levels g m xp thr amount lvl x))
    with (UserLevelsTable.guild_id x)
    by (unfold update_levels; destruct (is_member_row g m x); reflexivity).
  destruct (UserLevelsTable.guild_id x =? guild_id); simpl; now rewrite IH.
Qed.

(** X13.  An award never costs the member a place: for a member with a
    row and an amount that is not negative, the rank after the award is
    at most the rank before it. *)
Theorem award_xp_rank_not_worse (db : UserLevels) (message : Message) (amount : Z)
    (before : MemberLevelInfo.t) (rank : Z) :
  0 <= amount ->
  fetch_ranked_user_level_info db (guild message) (author message) = Some before ->
  MemberLevelInfo.rank before = Some rank ->
  exists (db' : UserLevels) (event : option pidroid_level_up)
         (after : MemberLevelInfo.t) (rank' : Z),
    returns (fun fuel => award_xp fuel db message amount) (db', event)
    /\ fetch_ranked_user_level_info db' (guild message) (author message) = Some after
    /\ MemberLevelInfo.rank after = Some rank'
    /\ rank' <= rank.
Proof.
  intros Hamount Hranked Hrank.
  rewrite fetch_ranked_as_fetch in Hranked.
  destruct (fetch_user_level_info db (guild message) (author message)) as [info |] eqn:Hfetch;
    [| discriminate].
  unfold option_map in Hranked.
  assert (Hbefore' : before = with_rank info
            (1 + members_ahead db (guild message) (MemberLevelInfo.total_xp info)))
    by congruence.
  clear Hranked. subst before. unfold with_rank in Hrank.
  cbn [MemberLevelInfo.rank] in Hrank.
  assert (Hrank' : rank = 1 + members_ahead db (guild message) (MemberLevelInfo.total_xp info))
    by congruence.
  clear Hrank. subst rank.
  destruct (award_xp_returns db message amount) as [final [_ Hret]].
  exists (awarded db message amount final), (level_up_event db message amount final).
  eexists. eexists. split; [exact Hret |].
  rewrite fetch_ranked_as_fetch, fetch_awarded. unfold option_map, with_rank.
  split; [reflexivity |]. split; [reflexivity |].
  rewrite total_xp_info_after.
  assert (Hbefore : state_before db message = info)
    by (unfold state_before; now rewrite Hfetch).
  rewrite Hbefore.
  assert (members_ahead (awarded db message amount final) (guild message)
            (MemberLevelInfo.total_xp info + amount)
          <= members_ahead db (guild message) (MemberLevelInfo.total_xp info)); [| lia].
  unfold members_ahead. apply inj_le.
  destruct final as [[xp thr] lvl]. unfold awarded, rows_with_member. rewrite Hfetch. simpl.
  rewrite filter_guild_update. apply count_filter_map.
  intros x. unfold update_levels.
  destruct (is_member_row (guild message) (author message) x); simpl;
    rewrite !Z.ltb_lt; lia.
Qed.

Lemma award_xp_rank_not_worse_witness :
  exists (db' : UserLevels) (event : option pidroid_level_up)
         (after : MemberLevelInfo.t) (rank' : Z),
    returns (fun fuel => award_xp fuel sample_levels (mkMessage 902 10 21) 700) (db', event)
    /\ fetch_ranked_user_level_info db' 10 21 = Some after
    /\ MemberLevelInfo.rank after = Some rank'
    /\ rank' <= 2.
Proof.
  apply (award_xp_rank_not_worse sample_levels (mkMessage 902 10 21) 700
           (MemberLevelInfo.mk 2 10 21 40 40 100 0 None (Some 2)) 2).
  - discriminate.
  - reflexivity.
  - reflexivity.
Defined.

(** ** Member levels: one row per member *)

Lemma update_levels_id (g m xp thr amount lvl : Z) (r : UserLevelsTable.t) :
  UserLevelsTable.id (update_levels g m xp thr amount lvl r) = UserLevelsTable.id r.
Proof. unfold update_levels. destruct (is_member_row g m r); reflexivity. Qed.

Lemma update_levels_member_of (g m xp thr amount lvl : Z) (r : UserLevelsTable.t) :
  member_of (update_levels g m xp thr amount lvl r) = member_of r.
Proof. unfold update_levels. destruct (is_member_row g m r); reflexivity. Qed.

Lemma fetch_none_no_member (db : UserLevels) (guild_id user_id : Z) :
  fetch_user_level_info db guild_id user_id = None ->
  ~ In (guild_id, user_id) (map member_of (rows db)).
Proof.
  unfold fetch_user_level_info.
  destruct (filter (is_member_row guild_id user_id) (rows db)) as [| x rest] eqn:Hsel;
    [| discriminate].
  intros _ Hin. apply in_map_iff in Hin. destruct Hin as [r [Hmember Hr]].
  assert (Hsel' : In r (filter (is_member_row guild_id user_id) (rows db))).
  { apply filter_In. split; [exact Hr |]. unfold is_member_row.
    injection Hmember as -> ->. now rewrite !Z.eqb_refl. }
  rewrite Hsel in Hsel'. destruct Hsel'.
Qed.

Lemma one_member_row (guild_id user_id : Z) (l : list UserLevelsTable.t) :
  NoDup (map member_of l) ->
  (List.length (filter (is_member_row guild_id user_id) l) <= 1)%nat.
Proof.
  induction l as [| x l IH]; simpl; [lia |].
  intros Hnodup. apply NoDup_cons_iff in Hnodup. destruct Hnodup as [Hfresh Hnodup].
  specialize (IH Hnodup).
  destruct (is_member_row guild_id user_id x) eqn:Hx; [| exact IH].
  simpl. destruct (filter (is_member_row guild_id user_id) l) as [| y rest] eqn:Hsel;
    [simpl; lia |].
  exfalso. apply Hfresh.
  assert (Hy : In y (filter (is_member_row guild_id user_id) l)) by (rewrite Hsel; now left).
  apply filter_In in Hy. destruct Hy as [Hy Hymember].
  unfold is_member_row in Hx, Hymember.
  apply andb_true_iff in Hx. apply andb_true_iff in Hymember.
  rewrite !Z.eqb_eq in Hx, Hymember.
  apply in_map_iff. exists y. split; [| exact Hy].
  unfold member_of. f_equal; lia.
Qed.

(** X14.  Awards keep the table keyed by member: from a well-keyed table
    with at most one row per member, an award leaves a well-keyed table
    with at most one row per member, in which the awarded member has
    exactly one row. *)
Theorem award_xp_one_row_per_member (db : UserLevels) (message : Message) (amount : Z) :
  well_keyed UserLevelsTable.id db ->
  one_row_per_member db ->
  exists (db' : UserLevels) (event : option pidroid_level_up),
    returns (fun fuel => award_xp fuel db message amount) (db', event)
    /\ well_keyed UserLevelsTable.id db'
    /\ one_row_per_member db'
    /\ List.length (filter (is_member_row (guild message) (author message)) (rows db')) = 1%nat.
Proof.
  intros Hkeyed Hone.
  destruct (award_xp_returns db message amount) as [final [_ Hret]].
  exists (awarded db message amount final), (level_up_event db message amount final).
  split; [exact Hret |].
  pose proof (fetch_awarded db message amount final) as Hfetch.
  destruct final as [[xp thr] lvl]. unfold awarded in *.
  assert (Hkeyed' : well_keyed UserLevelsTable.id
                      (mkStored (rows_with_member db message) (sequence_after db message))
                    /\ NoDup (map member_of (rows_with_member db message))).
  { unfold rows_with_member, sequence_after.
    destruct (fetch_user_level_info db (guild message) (author message)) eqn:Hbefore.
    - split; [destruct db; exact Hkeyed | exact Hone].
    - split; [apply well_keyed_append; [exact Hkeyed | reflexivity] |].
      rewrite map_app. simpl. apply NoDup_app; [exact Hone | repeat constructor; tauto |].
      intros k Hk [<- | []]. now apply (fetch_none_no_member db _ _ Hbefore). }
  destruct Hkeyed' as [Hkeyed' Hone'].
  assert (Hone'' : one_row_per_member
                     (mkStored
                        (map (update_levels (guild message) (author message) xp thr amount lvl)
                             (rows_with_member db message))
                        (sequence_after db message))).
  { unfold one_row_per_member. simpl. rewrite map_map.
    rewrite (map_ext _ member_of) by (intros; apply update_levels_member_of). exact Hone'. }
  split; [| split; [exact Hone'' |]].
  - apply (well_keyed_map UserLevelsTable.id
             (mkStored (rows_with_member db message) (sequence_after db message)));
      [intros; apply update_levels_id | exact Hkeyed'].
  - pose proof (one_member_row (guild message) (author message) _ Hone'') as Hmost.
    unfold fetch_user_level_info in Hfetch.
    destruct (filter _ _) as [| x rest]; [discriminate |]. simpl in *. lia.
Qed.

Lemma award_xp_one_row_per_member_witness :
  exists (db' : UserLevels) (event : option pidroid_level_up),
    returns (fun fuel => award_xp fuel sample_levels newcomer_message 50) (db', event)
    /\ well_keyed UserLevelsTable.id db'
    /\ one_row_per_member db'
    /\ List.length (filter (is_member_row 10 77) (rows db')) = 1%nat.
Proof.
  apply (award_xp_one_row_per_member sample_levels newcomer_message 50).
  - split; simpl.
    + repeat constructor; simpl; intuition lia.
    + repeat constructor.
  - change (NoDup [(10, 20); (10, 21); (11, 20)]).
    repeat (constructor; [simpl; intuition congruence |]). constructor.
Defined.

(** ** Member levels: level ranges *)

Lemma In_between (db : UserLevels) (guild_id min_level : Z) (max_level : option Z)
    (info : MemberLevelInfo.t) :
  In info (fetch_user_level_info_between db guild_id min_level max_level) <->
  exists r, In r (rows db) /\ info = MemberLevelInfo.from_table r
            /\ UserLevelsTable.guild_id r = guild_id
            /\ min_level <= UserLevelsTable.level r
            /\ (forall bound, max_level = Some bound -> UserLevelsTable.level r < bound).
Proof.
  unfold fetch_user_level_info_between. rewrite in_map_iff. split.
  - intros [r [<- Hr]]. exists r.
    destruct max_level as [bound |].
    + apply filter_In in Hr. destruct Hr as [Hr Hbound]. apply filter_In in Hr.
      destruct Hr as [Hr Hkeep]. apply andb_true_iff in Hkeep.
      rewrite Z.eqb_eq, Z.geb_le in Hkeep. apply Z.ltb_lt in Hbound.
      repeat split; try tauto. intros b [= <-]. exact Hbound.
    + apply filter_In in Hr. destruct Hr as [Hr Hkeep]. apply andb_true_iff in Hkeep.
      rewrite Z.eqb_eq, Z.geb_le in Hkeep.
      repeat split; try tauto. discriminate.
  - intros [r [Hr [-> [Hguild [Hmin Hmax]]]]]. exists r. split; [reflexivity |].
    assert (Hlow : In r (filter (fun r => (UserLevelsTable.guild_id r =? guild_id)
                                          && (UserLevelsTable.level r >=? min_level))
                                (rows db))).
    { apply filter_In. split; [exact Hr |]. apply andb_true_iff.
      rewrite Z.eqb_eq, Z.geb_le. auto. }
    destruct max_level as [bound |]; [| exact Hlow].
    apply filter_In. split; [exact Hlow |]. apply Z.ltb_lt. now apply Hmax.
Qed.

(** X15.  The members between two levels: the result holds the state of
    every row of the guild whose level is at least [min_level] and, where
    a bound is given, strictly below it, and no other; it is empty when
    the bound is not above [min_level]; and a range cut at a level in
    between is the two parts, one after the other up to order. *)
Theorem fetch_user_level_info_between_range (db : UserLevels) (guild_id min_level : Z)
    (max_level : option Z) :
  (forall info,
      In info (fetch_user_level_info_between db guild_id min_level max_level) <->
      exists r, In r (rows db) /\ info = MemberLevelInfo.from_table r
                /\ UserLevelsTable.guild_id r = guild_id
                /\ min_level <= UserLevelsTable.level r
                /\ (forall bound, max_level = Some bound -> UserLevelsTable.level r < bound))
  /\ (forall bound, max_level = Some bound -> bound <= min_level ->
        fetch_user_level_info_between db guild_id min_level max_level = [])
  /\ (forall cut,
        min_level <= cut ->
        (forall bound, max_level = Some bound -> cut <= bound) ->
        Permutation
          (fetch_user_level_info_between db guild_id min_level max_level)
          (fetch_user_level_info_between db guild_id min_level (Some cut)
           ++ fetch_user_level_info_between db guild_id cut max_level)).
Proof.
  split; [intros info; apply In_between |]. split.
  - intros bound -> Hbound. unfold fetch_user_level_info_between.
    induction (rows db) as [| x l IH]; simpl; [reflexivity |].
    destruct ((UserLevelsTable.guild_id x =? guild_id)
              && (UserLevelsTable.level x >=? min_level)) eqn:Hkeep; [| exact IH].
    simpl. destruct (UserLevelsTable.level x <? bound) eqn:Hlt; [| exact IH].
    apply andb_true_iff in Hkeep. rewrite Z.geb_le in Hkeep. apply Z.ltb_lt in Hlt. lia.
  - intros cut Hcut Hbound. unfold fetch_user_level_info_between.
    rewrite <- map_app. apply Permutation_map.
    induction (rows db) as [| x l IH]; simpl; [reflexivity |].
    destruct (UserLevelsTable.guild_id x =? guild_id) eqn:Hguild; simpl; [| exact IH].
    destruct (UserLevelsTable.level x >=? min_level) eqn:Hmin;
      destruct (UserLevelsTable.level x >=? cut) eqn:Hcutx; simpl.
    + (* at or above the cut *)
      replace (UserLevelsTable.level x <? cut) with false
        by (symmetry; apply Z.ltb_ge; apply Z.geb_le in Hcutx; lia).
      destruct max_level as [bound |]; simpl.
      * destruct (UserLevelsTable.level x <? bound); [| exact IH].
        apply Permutation_cons_app. exact IH.
      * apply Permutation_cons_app. exact IH.
    + (* below the cut *)
      assert (Hbelow : UserLevelsTable.level x < cut)
        by (rewrite Z.geb_leb in Hcutx; apply Z.leb_gt in Hcutx; lia).
      replace (UserLevelsTable.level x <? cut) with true
        by (symmetry; now apply Z.ltb_lt).
      destruct max_level as [bound |]; simpl.
      * replace (UserLevelsTable.level x <? bound) with true
          by (symmetry; apply Z.ltb_lt; specialize (Hbound bound eq_refl); lia).
        simpl. constructor. exact IH.
      * constructor. exact IH.
    + exfalso. apply Z.geb_le in Hcutx. rewrite Z.geb_leb in Hmin.
      apply Z.leb_gt in Hmin. lia.
    + exact IH.
Qed.

Lemma fetch_user_level_info_between_range_witness :
  fetch_user_level_info_between sample_levels 10 2 (Some 2) = []
  /\ Permutation
       (fetch_user_level_info_between sample_levels 10 0 (Some 5))
       (fetch_user_level_info_between sample_levels 10 0 (Some 1)
        ++ fetch_user_level_info_between sample_levels 10 1 (Some 5)).
Proof.
  destruct (fetch_user_level_info_between_range sample_levels 10 2 (Some 2)) as [_ [Hempty _]].
  destruct (fetch_user_level_info_between_range sample_levels 10 0 (Some 5)) as [_ [_ Hcut]].
  split.
  - apply (Hempty 2); [reflexivity | discriminate].
  - apply (Hcut 1); [discriminate |]. intros bound [= <-]. discriminate.
Defined.

(** ** Member levels: the progress character *)

Lemma NoDup_key_injective {row : Type} (key : row -> Z) (l : list row) (r r' : row) :
  NoDup (map key l) -> In r l -> In r' l -> key r = key r' -> r = r'.
Proof.
  induction l as [| x l IH]; simpl; [tauto |].
  intros Hnodup Hr Hr' Hkey. apply NoDup_cons_iff in Hnodup.
  destruct Hnodup as [Hfresh Hnodup].
  destruct Hr as [-> | Hr]; destruct Hr' as [-> | Hr']; auto.
  - exfalso. apply Hfresh. rewrite Hkey. now apply in_map.
  - exfalso. apply Hfresh. rewrite <- Hkey. now apply in_map.
Qed.

Lemma fetch_head_row (db : UserLevels) (guild_id user_id : Z) (info : MemberLevelInfo.t) :
  fetch_user_level_info db guild_id user_id = Some info ->
  exists r rest,
    filter (is_member_row guild_id user_id) (rows db) = r :: rest
    /\ info = MemberLevelInfo.from_table r
    /\ In r (rows db)
    /\ is_member_row guild_id user_id r = true.
Proof.
  unfold fetch_user_level_info.
  destruct (filter (is_member_row guild_id user_id) (rows db)) as [| r rest] eqn:Hsel;
    [discriminate |].
  intros [= <-]. exists r, rest.
  assert (Hin : In r (filter (is_member_row guild_id user_id) (rows db)))
    by (rewrite Hsel; now left).
  apply filter_In in Hin. tauto.
Qed.




(** ** The role-change queue: enqueue, fetch, delete *)

Lemma queue_built_well_keyed (q : RoleChangeQueue) :
  queue_built q -> well_keyed RoleChangeQueueTable.id q.
Proof.
  induction 1 as [| now q action g m role Hbuilt IH | q ids Hbuilt IH].
  - split; simpl; constructor.
  - apply well_keyed_append; [exact IH | reflexivity].
  - now apply well_keyed_filter.
Qed.

Lemma queue_built_actions (q : RoleChangeQueue) :
  queue_built q ->
  Forall (fun e => RoleChangeQueueTable.action e = 0 \/ RoleChangeQueueTable.action e = 1)
         (rows q).
Proof.
  induction 1 as [| now q action g m role Hbuilt IH | q ids Hbuilt IH]; simpl.
  - constructor.
  - apply Forall_app. split; [exact IH |].
    constructor; [| constructor]. simpl. destruct action; auto.
  - rewrite Forall_forall in *. intros e He. apply filter_In in He. apply IH. tauto.
Qed.

Lemma In_fetched_ids (q : RoleChangeQueue) (guild_id id : Z) :
  In id (fetched_ids (fetch_role_changes q guild_id)) <->
  exists e, In e (rows q) /\ RoleChangeQueueTable.guild_id e = guild_id
            /\ RoleChangeQueueTable.id e = id.
Proof.
  unfold fetched_ids. rewrite in_flat_map, fetch_role_changes_keys. split.
  - intros [c [Hc Hid]]. apply in_map_iff in Hc. destruct Hc as [m [<- Hm]].
    unfold entry_ids, changes_for in Hid. simpl in Hid.
    rewrite role_ids_array_agg, group_of_entries_of in Hid.
    apply in_map_iff in Hid. destruct Hid as [e [Heid He]].
    apply In_entries_of in He. exists e. tauto.
  - intros [e [He [Hguild Hid]]].
    exists (changes_for q guild_id (RoleChangeQueueTable.member_id e)). split.
    + apply in_map. apply In_group_keys. exists e. apply In_entries_of. auto.
    + unfold entry_ids, changes_for. simpl.
      rewrite role_ids_array_agg, group_of_entries_of.
      apply in_map_iff. exists e. split; [exact Hid |]. apply In_entries_of. auto.
Qed.

Lemma filter_other_guild (guild_id other : Z) (l : list RoleChangeQueueTable.t) :
  other <> guild_id ->
  filter (fun e => RoleChangeQueueTable.guild_id e =? other)
         (filter (fun e => negb (RoleChangeQueueTable.guild_id e =? guild_id)) l)
  = filter (fun e => RoleChangeQueueTable.guild_id e =? other) l.
Proof.
  intros Hother. induction l as [| e l IH]; simpl; [reflexivity |].
  destruct (RoleChangeQueueTable.guild_id e =? guild_id) eqn:Hguild; simpl.
  - apply Z.eqb_eq in Hguild.
    destruct (RoleChangeQueueTable.guild_id e =? other) eqn:Ho; [| exact IH].
    apply Z.eqb_eq in Ho. congruence.
  - destruct (RoleChangeQueueTable.guild_id e =? other); [now rewrite IH | exact IH].
Qed.

(** X17.  Draining a guild: deleting the ids of a fetched batch leaves
    no change to fetch for the guild; in a well-keyed queue it removes
    the entries of the guild and no other, so the batches of the other
    guilds are fetched as before. *)
Theorem delete_fetched_role_changes (q : RoleChangeQueue) (guild_id : Z) :
  let drained := delete_role_changes q (fetched_ids (fetch_role_changes q guild_id)) in
  fetch_role_changes drained guild_id = []
  /\ (well_keyed RoleChangeQueueTable.id q ->
      rows drained
      = filter (fun e => negb (RoleChangeQueueTable.guild_id e =? guild_id)) (rows q))
  /\ (well_keyed RoleChangeQueueTable.id q ->
      forall other, other <> guild_id ->
        fetch_role_changes drained other = fetch_role_changes q other).
Proof.
  intros drained.
  assert (Hgone : filter (fun e => RoleChangeQueueTable.guild_id e =? guild_id) (rows drained)
                  = []).
  { destruct (filter _ (rows drained)) as [| e rest] eqn:Hsel; [reflexivity |].
    exfalso.
    assert (He : In e (filter (fun e => RoleChangeQueueTable.guild_id e =? guild_id)
                              (rows drained))) by (rewrite Hsel; now left).
    apply filter_In in He. destruct He as [He Hguild]. apply Z.eqb_eq in Hguild.
    unfold drained, delete_role_changes in He. simpl in He.
    apply filter_In in He. destruct He as [He Hkept].
    apply negb_true_iff in Hkept.
    assert (Hlisted : existsb (Z.eqb (RoleChangeQueueTable.id e))
                        (fetched_ids (fetch_role_changes q guild_id)) = true).
    { apply listed_id. apply In_fetched_ids. exists e. auto. }
    congruence. }
  assert (Hrows : well_keyed RoleChangeQueueTable.id q ->
                  rows drained
                  = filter (fun e => negb (RoleChangeQueueTable.guild_id e =? guild_id))
                           (rows q)).
  { intros [Hnodup _]. unfold drained, delete_role_changes. simpl.
    apply filter_ext_in. intros e He. f_equal.
    destruct (RoleChangeQueueTable.guild_id e =? guild_id) eqn:Hguild.
    - apply Z.eqb_eq in Hguild. apply listed_id, In_fetched_ids. exists e. auto.
    - apply Z.eqb_neq in Hguild.
      destruct (existsb _ _) eqn:Hlisted; [| reflexivity].
      exfalso. apply listed_id, In_fetched_ids in Hlisted.
      destruct Hlisted as [e' [He' [Hguild' Hid]]].
      assert (e' = e)
        by (eapply (NoDup_key_injective RoleChangeQueueTable.id); eassumption).
      subst e'. contradiction. }
  split; [| split; [exact Hrows |]].
  - unfold fetch_role_changes. rewrite Hgone. reflexivity.
  - intros Hkeyed other Hother. unfold fetch_role_changes. rewrite (Hrows Hkeyed).
    now rewrite filter_other_guild.
Qed.

Lemma delete_fetched_role_changes_witness :
  fetch_role_changes
    (delete_role_changes grant_then_revoke
       (fetched_ids (fetch_role_changes grant_then_revoke 10))) 10 = []
  /\ rows (delete_role_changes
             (insert_role_change 1002 grant_then_revoke grant 11 20 8)
             (fetched_ids (fetch_role_changes
                             (insert_role_change 1002 grant_then_revoke grant 11 20 8) 10)))
     = [RoleChangeQueueTable.mk 3 1 enqueued 11 20 8 1002].
Proof.
  split.
  - exact (proj1 (delete_fetched_role_changes grant_then_revoke 10)).
  - apply (proj1 (proj2 (delete_fetched_role_changes
                           (insert_role_change 1002 grant_then_revoke grant 11 20 8) 10))).
    apply queue_built_well_keyed. unfold grant_then_revoke. repeat constructor.
Defined.

(** X18.  The queues the methods build are well keyed, and the grouping
    loses nothing of them: for every member of a fetched batch, the
    entries are as many as the roles added and the roles removed
    together. *)
Theorem queue_built_grouping_complete (q : RoleChangeQueue) :
  queue_built q ->
  well_keyed RoleChangeQueueTable.id q
  /\ forall guild_id c,
       In c (fetch_role_changes q guild_id) ->
       List.length (entry_ids c)
       = (List.length (role_ids (MemberRoleChanges.roles_added c))
          + List.length (role_ids (MemberRoleChanges.roles_removed c)))%nat.
Proof.
  intros Hbuilt. split; [now apply queue_built_well_keyed |].
  intros guild_id c Hc. rewrite fetch_role_changes_keys in Hc.
  apply in_map_iff in Hc. destruct Hc as [m [<- _]].
  unfold entry_ids, changes_for. simpl. rewrite !role_ids_array_agg, !length_map.
  pose proof (queue_built_actions q Hbuilt) as Hactions.
  assert (Hgroup : Forall (fun e => RoleChangeQueueTable.action e = 0
                                    \/ RoleChangeQueueTable.action e = 1)
                          (group_of q guild_id m)).
  { rewrite Forall_forall in *. intros e He. unfold group_of in He.
    apply filter_In in He. destruct He as [He _]. apply filter_In in He. apply Hactions. tauto. }
  induction Hgroup as [| e l [Hzero | Hone] _ IH]; simpl; [reflexivity | |].
  - rewrite Hzero. simpl. lia.
  - rewrite Hone. simpl. lia.
Qed.

Lemma queue_built_grouping_complete_witness :
  well_keyed RoleChangeQueueTable.id grant_then_revoke
  /\ List.length (entry_ids (MemberRoleChanges.mk 10 20 (Some [1; 2]) (Some [7]) (Some [7])))
     = (List.length [7] + List.length [7])%nat.
Proof.
  assert (Hbuilt : queue_built grant_then_revoke)
    by (unfold grant_then_revoke; repeat constructor).
  destruct (queue_built_grouping_complete grant_then_revoke Hbuilt) as [Hkeyed Hcount].
  split; [exact Hkeyed |].
  apply (Hcount 10 (MemberRoleChanges.mk 10 20 (Some [1; 2]) (Some [7]) (Some [7]))).
  simpl. left. reflexivity.
Defined.

(** X19.  An enqueued change is fetched: after [insert_role_change] the
    batch of the guild has an item for the member that lists the new
    entry's id and holds the role among the roles added for a grant,
    among the roles removed for a revoke; the batches of the other guilds
    are as before. *)
Theorem insert_role_change_fetched (now : Z) (q : RoleChangeQueue) (action : RoleAction)
    (guild_id member_id role_id : Z) :
  let q' := insert_role_change now q action guild_id member_id role_id in
  (exists c,
      In c (fetch_role_changes q' guild_id)
      /\ MemberRoleChanges.member_id c = member_id
      /\ In (next_id q) (entry_ids c)
      /\ In role_id
            (role_ids match action with
                      | grant => MemberRoleChanges.roles_added c
                      | revoke => MemberRoleChanges.roles_removed c
                      end))
  /\ (forall other, other <> guild_id ->
        fetch_role_changes q' other = fetch_role_changes q other).
Proof.
  intros q'.
  set (entry := RoleChangeQueueTable.mk (next_id q) (RoleAction_value action) enqueued
                  guild_id member_id role_id now).
  assert (Hentry : In entry (entries_of q' guild_id member_id)).
  { apply In_entries_of. split; [| auto]. simpl. apply in_or_app. right. now left. }
  split.
  - exists (changes_for q' guild_id member_id).
    split; [| split; [reflexivity |]].
    + rewrite fetch_role_changes_keys. apply in_map, In_group_keys. now exists entry.
    + rewrite <- group_of_entries_of in Hentry. split.
      * unfold entry_ids, changes_for. simpl. rewrite role_ids_array_agg.
        apply in_map_iff. exists entry. auto.
      * unfold changes_for. destruct action; simpl;
          apply In_roles_with_action; exists entry; auto.
  - intros other Hother. unfold fetch_role_changes, q', insert_role_change. simpl.
    rewrite filter_app. simpl.
    replace (guild_id =? other) with false by (symmetry; apply Z.eqb_neq; congruence).
    rewrite app_nil_r. reflexivity.
Qed.

Lemma insert_role_change_fetched_witness :
  fetch_role_changes (insert_role_change 1002 grant_then_revoke revoke 10 21 9) 11
  = fetch_role_changes grant_then_revoke 11.
Proof.
  apply (proj2 (insert_role_change_fetched 1002 grant_then_revoke revoke 10 21 9) 11).
  discriminate.
Defined.

(** ** Punishments: the numbering of cases *)

Lemma one_to_next (n : nat) : one_to (S n) = one_to n ++ [Z.of_nat n + 1].
Proof.
  unfold one_to. rewrite seq_S, map_app. simpl. f_equal. f_equal. lia.
Qed.

Lemma In_one_to (n : nat) (k : Z) : In k (one_to n) <-> 1 <= k <= Z.of_nat n.
Proof.
  unfold one_to. rewrite in_map_iff. split.
  - intros [i [<- Hi]]. apply in_seq in Hi. lia.
  - intros Hk. exists (Z.to_nat k). split; [lia |]. apply in_seq. lia.
Qed.

Lemma NoDup_one_to (n : nat) : NoDup (one_to n).
Proof.
  unfold one_to. pose proof (seq_NoDup n 1) as Hseq.
  induction Hseq as [| i l Hfresh _ IH]; simpl; constructor; [| exact IH].
  rewrite in_map_iff. intros [j [Hj Hin]]. apply Nat2Z.inj in Hj. now subst j.
Qed.

Lemma next_case_counter_returns (t : Stored PunishmentCounterTable.t)
    (cs cs' : Stored PunishmentTable.t) (guild_id : Z) :
  snd (next_case_counter t guild_id)
    = Some (counter_of (mkPunishments t cs) guild_id + 1)
  /\ forall other,
       counter_of (mkPunishments (fst (next_case_counter t guild_id)) cs') other
       = if other =? guild_id
         then counter_of (mkPunishments t cs) guild_id + 1
         else counter_of (mkPunishments t cs) other.
Proof.
  unfold next_case_counter, counter_of. simpl.
  destruct (filter (fun r => PunishmentCounterTable.guild_id r =? guild_id) (rows t))
    as [| r rest] eqn:Hsel; simpl.
  - split; [reflexivity |]. intros other. rewrite filter_app. simpl.
    destruct (other =? guild_id) eqn:Hother.
    + apply Z.eqb_eq in Hother. subst other. rewrite Hsel, Z.eqb_refl. reflexivity.
    + rewrite Z.eqb_sym, Hother, app_nil_r. reflexivity.
  - split; [reflexivity |]. intros other.
    destruct (other =? guild_id) eqn:Hother.
    + apply Z.eqb_eq in Hother. subst other.
      replace (filter (fun r => PunishmentCounterTable.guild_id r =? guild_id)
                 (map (fun x => if PunishmentCounterTable.guild_id x =? guild_id
                                then PunishmentCounterTable.mk
                                       (PunishmentCounterTable.id x)
                                       (PunishmentCounterTable.guild_id x)
                                       (PunishmentCounterTable.counter x + 1)
                                else x) (rows t)))
        with (map (fun x => PunishmentCounterTable.mk
                              (PunishmentCounterTable.id x)
                              (PunishmentCounterTable.guild_id x)
                              (PunishmentCounterTable.counter x + 1))
                  (filter (fun r => PunishmentCounterTable.guild_id r =? guild_id) (rows t))).
      * rewrite Hsel. reflexivity.
      * clear Hsel. induction (rows t) as [| x l IH]; simpl; [reflexivity |].
        destruct (PunishmentCounterTable.guild_id x =? guild_id) eqn:Hx; simpl; rewrite Hx;
          [now rewrite IH | exact IH].
    + apply Z.eqb_neq in Hother.
      replace (filter (fun r => PunishmentCounterTable.guild_id r =? other)
                 (map (fun x => if PunishmentCounterTable.guild_id x =? guild_id
                                then PunishmentCounterTable.mk
                                       (PunishmentCounterTable.id x)
                                       (PunishmentCounterTable.guild_id x)
                                       (PunishmentCounterTable.counter x + 1)
                                else x) (rows t)))
        with (filter (fun r => PunishmentCounterTable.guild_id r =? other) (rows t));
        [reflexivity |].
      clear Hsel. induction (rows t) as [| x l IH]; simpl; [reflexivity |].
      destruct (PunishmentCounterTable.guild_id x =? guild_id) eqn:Hx; simpl.
      * apply Z.eqb_eq in Hx.
        replace (PunishmentCounterTable.guild_id x =? other) with false
          by (symmetry; apply Z.eqb_neq; congruence).
        exact IH.
      * destruct (PunishmentCounterTable.guild_id x =? other); [now rewrite IH | exact IH].
Qed.

Lemma filter_none_kept {A : Type} (keep : A -> bool) (l : list A) :
  (forall x, In x l -> keep x = false) -> filter keep l = [].
Proof.
  induction l as [| x l IH]; simpl; [reflexivity |].
  intros Hnone. rewrite (Hnone x) by now left. apply IH. auto.
Qed.

(** Inserting a case into a numbered database. *)
Lemma insert_punishment_entry_numbered (now : Z) (db : Punishments)
    (type : String.string) (guild_id user_id : Z) (user_name : String.string)
    (moderator_id : Z) (moderator_name : String.string)
    (reason : option String.string) (expire_date : option Z) :
  numbered db ->
  let case :=
    PunishmentTable.mk
      (next_id (cases db)) (Z.of_nat (List.length (case_ids db guild_id)) + 1)
      type guild_id user_id (Some user_name) moderator_id (Some moderator_name)
      reason now expire_date false true in
  exists db',
    insert_punishment_entry now db type guild_id user_id user_name
      moderator_id moderator_name reason expire_date = Inserted (db', case)
    /\ numbered db'
    /\ rows (cases db') = rows (cases db) ++ [case]
    /\ _fetch_case db' guild_id (PunishmentTable.case_id case) = Some case.
Proof.
  intros [Hkeyed Hnumbered] case.
  destruct (Hnumbered guild_id) as [Hids Hcounter].
  set (cases' := mkStored (rows (cases db) ++ [case]) (next_id (cases db) + 1)).
  destruct (next_case_counter_returns (counters db) (cases db) cases' guild_id)
    as [Hrow Hothers].
  replace (mkPunishments (counters db) (cases db)) with db in * by (destruct db; reflexivity).
  unfold insert_punishment_entry.
  destruct (next_case_counter (counters db) guild_id) as [counters' row] eqn:Hnext.
  simpl in Hrow, Hothers. subst row. rewrite Hcounter. fold case. fold cases'.
  assert (Hkeyed' : well_keyed PunishmentTable.id cases')
    by (apply well_keyed_append; [exact Hkeyed | reflexivity]).
  assert (Hfetch : __fetch_case_by_internal_id (mkPunishments counters' cases')
                     (next_id (cases db)) = Some case).
  { unfold __fetch_case_by_internal_id.
    change (next_id (cases db)) with (PunishmentTable.id case) at 1.
    change (rows (cases (mkPunishments counters' cases')))
      with (rows (cases db) ++ [case]).
    rewrite (filter_key_unique PunishmentTable.id case (rows (cases db) ++ [case])).
    - reflexivity.
    - exact (proj1 Hkeyed').
    - apply in_or_app. right. now left. }
  simpl. rewrite Hfetch.
  exists (mkPunishments counters' cases'). split; [reflexivity |].
  assert (Hcases : forall other,
             case_ids (mkPunishments counters' cases') other
             = case_ids db other ++ (if other =? guild_id
                                     then [Z.of_nat (List.length (case_ids db guild_id)) + 1]
                                     else [])).
  { intros other. unfold case_ids. simpl. rewrite filter_app, map_app. simpl.
    rewrite (Z.eqb_sym guild_id other). destruct (other =? guild_id); reflexivity. }
  split; [| split; [reflexivity |]].
  - split; [exact Hkeyed' |]. intros other. rewrite Hcases, Hothers.
    destruct (Hnumbered other) as [Hids' Hcounter'].
    destruct (other =? guild_id) eqn:Hother.
    + apply Z.eqb_eq in Hother. subst other.
      rewrite length_app. simpl. rewrite Nat.add_1_r, one_to_next, <- Hids.
      split; [reflexivity | lia].
    + rewrite app_nil_r. auto.
  - unfold _fetch_case. simpl. rewrite filter_app. simpl. rewrite !Z.eqb_refl. simpl.
    rewrite filter_none_kept; [reflexivity |].
    intros r Hr. destruct (PunishmentTable.guild_id r =? guild_id) eqn:Hguild;
      [| now rewrite andb_false_r].
    assert (Hid : In (PunishmentTable.case_id r) (case_ids db guild_id)).
    { unfold case_ids. apply in_map. apply filter_In. auto. }
    rewrite Hids in Hid. apply In_one_to in Hid.
    replace (PunishmentTable.case_id r =? Z.of_nat (List.length (case_ids db guild_id)) + 1)
      with false by (symmetry; apply Z.eqb_neq; lia).
    reflexivity.
Qed.

Lemma same_cases_lists (l l' : list PunishmentTable.t) :
  Forall2 (fun r r' => PunishmentTable.id r' = PunishmentTable.id r
                       /\ PunishmentTable.case_id r' = PunishmentTable.case_id r
                       /\ PunishmentTable.guild_id r' = PunishmentTable.guild_id r)
          l l' ->
  map PunishmentTable.id l' = map PunishmentTable.id l
  /\ forall g,
       map PunishmentTable.case_id (filter (fun r => PunishmentTable.guild_id r =? g) l')
       = map PunishmentTable.case_id (filter (fun r => PunishmentTable.guild_id r =? g) l).
Proof.
  induction 1 as [| r r' l l' [Hid [Hcase Hguild]] _ [IHid IHcase]]; simpl.
  - split; reflexivity.
  - split; [now rewrite Hid, IHid |].
    intros g. rewrite Hguild.
    destruct (PunishmentTable.guild_id r =? g); simpl; [now rewrite Hcase, IHcase | apply IHcase].
Qed.

Lemma numbered_same_cases (db db' : Punishments) :
  counters db' = counters db ->
  next_id (cases db') = next_id (cases db) ->
  Forall2 (fun r r' => PunishmentTable.id r' = PunishmentTable.id r
                       /\ PunishmentTable.case_id r' = PunishmentTable.case_id r
                       /\ PunishmentTable.guild_id r' = PunishmentTable.guild_id r)
          (rows (cases db)) (rows (cases db')) ->
  numbered db -> numbered db'.
Proof.
  intros Hcounters Hnext Hrows [[Hnodup Hbelow] Hnumbered].
  destruct (same_cases_lists _ _ Hrows) as [Hkeys Hids].
  split.
  - split; [now rewrite Hkeys |].
    rewrite Hnext. rewrite Forall_forall in *. intros r' Hr'.
    assert (Hkey : In (PunishmentTable.id r') (map PunishmentTable.id (rows (cases db))))
      by (rewrite <- Hkeys; now apply in_map).
    apply in_map_iff in Hkey. destruct Hkey as [r [Hid Hr]].
    rewrite <- Hid. now apply Hbelow.
  - intros g. unfold case_ids, counter_of. rewrite Hids, Hcounters. apply Hnumbered.
Qed.

Lemma Forall2_map_same {A : Type} (R : A -> A -> Prop) (change : A -> A) (l : list A) :
  (forall x, R x (change x)) -> Forall2 R l (map change l).
Proof.
  intros HR. induction l as [| x l IH]; simpl; constructor; auto.
Qed.

Lemma punishments_built_numbered (db : Punishments) :
  punishments_built db -> numbered db.
Proof.
  induction 1 as [| now db type g u un m mn reason expire db' case Hbuilt IH Hinsert
                  | db id reason expire visible handled Hbuilt IH
                  | now db type_value g u Hbuilt IH].
  - split; [split; simpl; constructor |]. intros g. split; reflexivity.
  - destruct (insert_punishment_entry_numbered now db type g u un m mn reason expire IH)
      as [db'' [Hinsert' [Hnumbered _]]].
    rewrite Hinsert in Hinsert'. now injection Hinsert' as -> _.
  - apply (numbered_same_cases db); [reflexivity | reflexivity | | exact IH].
    simpl. apply Forall2_map_same. intros x.
    destruct (PunishmentTable.id x =? id); simpl; auto.
  - apply (numbered_same_cases db); [reflexivity | reflexivity | | exact IH].
    simpl. apply Forall2_map_same. intros x.
    destruct (_ && _); simpl; auto.
Qed.

(** X20.  The cases of a guild are numbered in the order of their
    insertion.  In a database built by the punishment methods, an
    insertion neither raises nor misses its case; the case it returns has
    the next number of its guild, one more than the number of cases the
    guild had, is not handled and is visible, and is the case read back
    under that number; and no two cases of a guild share a number. *)
Theorem insert_punishment_entry_numbers_cases (now : Z) (db : Punishments)
    (type : String.string) (guild_id user_id : Z) (user_name : String.string)
    (moderator_id : Z) (moderator_name : String.string)
    (reason : option String.string) (expire_date : option Z) :
  punishments_built db ->
  exists (db' : Punishments) (case : Case),
    insert_punishment_entry now db type guild_id user_id user_name
      moderator_id moderator_name reason expire_date = Inserted (db', case)
    /\ PunishmentTable.case_id case = Z.of_nat (List.length (case_ids db guild_id)) + 1
    /\ PunishmentTable.handled case = false
    /\ PunishmentTable.visible case = true
    /\ _fetch_case db' guild_id (PunishmentTable.case_id case) = Some case
    /\ (forall g, NoDup (case_ids db' g)).
Proof.
  intros Hbuilt.
  destruct (insert_punishment_entry_numbered now db type guild_id user_id user_name
              moderator_id moderator_name reason expire_date
              (punishments_built_numbered db Hbuilt))
    as [db' [Hinsert [Hnumbered [_ Hfetch]]]].
  eexists. eexists. split; [exact Hinsert |].
  split; [reflexivity |]. split; [reflexivity |]. split; [reflexivity |].
  split; [exact Hfetch |].
  intros g. destruct Hnumbered as [_ Hnumbered].
  rewrite (proj1 (Hnumbered g)). apply NoDup_one_to.
Qed.

Lemma insert_punishment_entry_numbers_cases_witness :
  exists (db' : Punishments) (case : Case),
    insert_punishment_entry 5000 no_punishments "warning"%string 10 20 "member"%string 30 "moderator"%string
      (Some "spam"%string) None = Inserted (db', case)
    /\ PunishmentTable.case_id case
       = Z.of_nat (List.length (case_ids no_punishments 10)) + 1
    /\ PunishmentTable.handled case = false
    /\ PunishmentTable.visible case = true
    /\ _fetch_case db' 10 (PunishmentTable.case_id case) = Some case
    /\ (forall g, NoDup (case_ids db' g)).
Proof.
  apply (insert_punishment_entry_numbers_cases 5000 no_punishments "warning"%string 10 20
           "member"%string 30 "moderator"%string (Some "spam"%string) None).
  constructor.
Defined.

(** ** Punishments: expiry, statistics, visibility *)

Lemma count_positive_false {A : Type} (l : list A) :
  l = [] -> (Z.of_nat (List.length l) >? 0) = false.
Proof. intros ->. reflexivity. Qed.

Lemma expire_cases_by_type_others (now : Z) (db : Punishments)
    (type_value : String.string) (guild_id user_id : Z)
    (other_type : String.string) (other_guild other_user : Z) :
  (other_type, other_guild, other_user) <> (type_value, guild_id, user_id) ->
  filter (fun r => String.eqb (PunishmentTable.type r) other_type
                   && (PunishmentTable.guild_id r =? other_guild)
                   && (PunishmentTable.user_id r =? other_user)
                   && Bool.eqb (PunishmentTable.visible r) true)
         (rows (cases (expire_cases_by_type now db type_value guild_id user_id)))
  = filter (fun r => String.eqb (PunishmentTable.type r) other_type
                     && (PunishmentTable.guild_id r =? other_guild)
                     && (PunishmentTable.user_id r =? other_user)
                     && Bool.eqb (PunishmentTable.visible r) true)
           (rows (cases db)).
Proof.
  intros Hother. unfold expire_cases_by_type. simpl.
  induction (rows (cases db)) as [| r l IH]; simpl; [reflexivity |].
  destruct (String.eqb (PunishmentTable.type r) type_value
            && (PunishmentTable.guild_id r =? guild_id)
            && (PunishmentTable.user_id r =? user_id)) eqn:Hmatch; simpl.
  - apply andb_true_iff in Hmatch. destruct Hmatch as [Hmatch Huser].
    apply andb_true_iff in Hmatch. destruct Hmatch as [Htype Hguild].
    apply String.eqb_eq in Htype. apply Z.eqb_eq in Hguild. apply Z.eqb_eq in Huser.
    replace (String.eqb (PunishmentTable.type r) other_type
             && (PunishmentTable.guild_id r =? other_guild)
             && (PunishmentTable.user_id r =? other_user)) with false; [exact IH |].
    symmetry. apply not_true_is_false. intros Hsame.
    apply andb_true_iff in Hsame. destruct Hsame as [Hsame Hu].
    apply andb_true_iff in Hsame. destruct Hsame as [Ht Hg].
    apply String.eqb_eq in Ht. apply Z.eqb_eq in Hg. apply Z.eqb_eq in Hu.
    apply Hother. congruence.
  - destruct (_ && _ && _ && _); [now rewrite IH | exact IH].
Qed.

(** X21.  Expiring the cases of a type ends the punishment: from the
    moment of the expiry on, the member is not currently punished with
    that type in the guild, so not currently jailed when the type is the
    jail type; whether anyone is punished with another type, in another
    guild or as another user is as before. *)
Theorem expire_cases_by_type_ends_punishment (now later : Z) (db : Punishments)
    (type_value : String.string) (guild_id user_id : Z) :
  now <= later ->
  let db' := expire_cases_by_type now db type_value guild_id user_id in
  __is_currently_punished later db' type_value guild_id user_id = false
  /\ is_currently_jailed type_value later db' guild_id user_id = false
  /\ (forall other_type other_guild other_user,
        (other_type, other_guild, other_user) <> (type_value, guild_id, user_id) ->
        __is_currently_punished later db' other_type other_guild other_user
        = __is_currently_punished later db other_type other_guild other_user).
Proof.
  intros Hlater db'.
  assert (Hended : __is_currently_punished later db' type_value guild_id user_id = false);
    [| split; [exact Hended | split; [exact Hended |]]].
  - unfold __is_currently_punished. apply count_positive_false.
    unfold db', expire_cases_by_type. simpl.
    induction (rows (cases db)) as [| r l IH]; simpl; [reflexivity |].
    destruct (String.eqb (PunishmentTable.type r) type_value
              && (PunishmentTable.guild_id r =? guild_id)
              && (PunishmentTable.user_id r =? user_id)) eqn:Hmatch; simpl.
    + rewrite Hmatch. simpl.
      destruct (Bool.eqb (PunishmentTable.visible r) true); simpl; [| exact IH].
      replace (now >? later) with false by (symmetry; rewrite Z.gtb_ltb; apply Z.ltb_ge; lia).
      exact IH.
    + rewrite Hmatch. simpl. exact IH.
  - intros other_type other_guild other_user Hother.
    unfold __is_currently_punished, db'.
    now rewrite (expire_cases_by_type_others now db type_value guild_id user_id
                   other_type other_guild other_user Hother).
Qed.

Lemma expire_cases_by_type_ends_punishment_witness :
  __is_currently_punished 7000
    (expire_cases_by_type 6000
       (mkPunishments empty_table
          (mkStored [PunishmentTable.mk 1 1 "jail"%string 10 20 None 30 None None 5000 None
                                        false true] 2))
       "jail"%string 10 20)
    "jail"%string 10 20 = false.
Proof.
  apply (proj1 (expire_cases_by_type_ends_punishment 6000 7000
                  (mkPunishments empty_table
                     (mkStored [PunishmentTable.mk 1 1 "jail"%string 10 20 None 30 None None 5000
                                                   None false true] 2))
                  "jail"%string 10 20 ltac:(discriminate))).
Defined.

(** The tally of the statistics, from any start. *)
Lemma tally_step (p : String.string) (b k j w t : Z) :
  exists db dk dj dw : Z,
    tally (b, k, j, w, t) p = (b + db, k + dk, j + dj, w + dw, t + 1)
    /\ 0 <= db /\ 0 <= dk /\ 0 <= dj /\ 0 <= dw /\ db + dk + dj + dw <= 1.
Proof.
  unfold tally.
  destruct (String.eqb p "ban") eqn:Hban.
  - apply String.eqb_eq in Hban. subst p. simpl.
    exists 1, 0, 0, 0. rewrite !Z.add_0_r. repeat split; lia.
  - destruct (String.eqb p "kick") eqn:Hkick.
    + apply String.eqb_eq in Hkick. subst p. simpl.
      exists 0, 1, 0, 0. rewrite !Z.add_0_r. repeat split; lia.
    + destruct (String.eqb p "jail") eqn:Hjail.
      * apply String.eqb_eq in Hjail. subst p. simpl.
        exists 0, 0, 1, 0. rewrite !Z.add_0_r. repeat split; lia.
      * destruct (String.eqb p "warning").
        -- exists 0, 0, 0, 1. rewrite !Z.add_0_r. repeat split; lia.
        -- exists 0, 0, 0, 0. rewrite !Z.add_0_r. repeat split; lia.
Qed.

Lemma tally_bounds (types : list String.string) :
  forall b k j w t b' k' j' w' t' : Z,
    fold_left tally types (b, k, j, w, t) = (b', k', j', w', t') ->
    0 <= b -> 0 <= k -> 0 <= j -> 0 <= w -> b + k + j + w <= t ->
    0 <= b' /\ 0 <= k' /\ 0 <= j' /\ 0 <= w'
    /\ b' + k' + j' + w' <= t'
    /\ t' = t + Z.of_nat (List.length types).
Proof.
  induction types as [| p types IH]; intros b k j w t b' k' j' w' t' Hfold Hb Hk Hj Hw Hsum.
  - simpl in Hfold. injection Hfold as <- <- <- <- <-. simpl. repeat split; lia.
  - cbn [fold_left] in Hfold.
    destruct (tally_step p b k j w t) as [db [dk [dj [dw [Hstep Hd]]]]].
    rewrite Hstep in Hfold.
    apply IH in Hfold; try lia.
    cbn [List.length]. rewrite Nat2Z.inj_succ. lia.
Qed.

Lemma count_filter_le {A : Type} (p q : A -> bool) (l : list A) :
  (forall x, p x = true -> q x = true) ->
  (List.length (filter p l) <= List.length (filter q l))%nat.
Proof.
  intros Himp. induction l as [| x l IH]; simpl; [lia |].
  destruct (p x) eqn:Hp.
  - rewrite (Himp x Hp). simpl. lia.
  - destruct (q x); simpl; lia.
Qed.

Lemma tally_counts (types : list String.string) :
  forall b k j w t : Z,
    fold_left tally types (b, k, j, w, t)
    = (b + Z.of_nat (List.length (filter (fun p => String.eqb p "ban") types)),
       k + Z.of_nat (List.length (filter (fun p => String.eqb p "kick") types)),
       j + Z.of_nat (List.length (filter (fun p => String.eqb p "jail") types)),
       w + Z.of_nat (List.length (filter (fun p => String.eqb p "warning") types)),
       t + Z.of_nat (List.length types)).
Proof.
  induction types as [| p types IH]; intros b k j w t.
  - simpl. now rewrite !Z.add_0_r.
  - cbn [fold_left].
    replace (tally (b, k, j, w, t) p)
      with (if String.eqb p "ban" then b + 1 else b,
            if String.eqb p "kick" then k + 1 else k,
            if String.eqb p "jail" then j + 1 else j,
            if String.eqb p "warning" then w + 1 else w,
            t + 1) by reflexivity.
    rewrite IH. cbn [filter List.length].
    destruct (String.eqb p "ban"), (String.eqb p "kick"),
             (String.eqb p "jail"), (String.eqb p "warning");
      cbn [List.length]; rewrite ?Nat2Z.inj_succ, !pair_equal_spec; repeat split; lia.
Qed.

(** X22.  The moderation statistics add up: the bans, kicks, jails and
    warnings are the numbers of visible cases of those types that the
    moderator issued in the guild; together they are at most the
    moderator's total, which is the number of the moderator's visible
    cases in the guild and at most the total of the guild. *)
Theorem fetch_moderation_statistics_adds_up (db : Punishments) (guild_id moderator_id : Z) :
  let data := fetch_moderation_statistics db guild_id moderator_id in
  bans data = issued db guild_id moderator_id "ban"%string
  /\ kicks data = issued db guild_id moderator_id "kick"%string
  /\ jails data = issued db guild_id moderator_id "jail"%string
  /\ warnings data = issued db guild_id moderator_id "warning"%string
  /\ bans data + kicks data + jails data + warnings data <= user_total data
  /\ user_total data
     = Z.of_nat
         (List.length
            (filter (fun r => (PunishmentTable.guild_id r =? guild_id)
                              && (PunishmentTable.moderator_id r =? moderator_id)
                              && PunishmentTable.visible r)
                    (rows (cases db))))
  /\ user_total data <= guild_total data.
Proof.
  assert (Hvisible : forall v, Bool.eqb v true = v) by (intros []; reflexivity).
  unfold fetch_moderation_statistics, issued.
  rewrite (filter_ext
             (fun r => (PunishmentTable.guild_id r =? guild_id)
                       && (PunishmentTable.moderator_id r =? moderator_id)
                       && Bool.eqb (PunishmentTable.visible r) true)
             (fun r => (PunishmentTable.guild_id r =? guild_id)
                       && (PunishmentTable.moderator_id r =? moderator_id)
                       && PunishmentTable.visible r))
    by (intros r; now rewrite Hvisible).
  set (mine := filter (fun r => (PunishmentTable.guild_id r =? guild_id)
                                && (PunishmentTable.moderator_id r =? moderator_id)
                                && PunishmentTable.visible r)
                      (rows (cases db))).
  pose proof (tally_bounds (map PunishmentTable.type mine) 0 0 0 0 0) as Htally.
  rewrite tally_counts in *. cbn [bans kicks jails warnings user_total guild_total].
  specialize (Htally _ _ _ _ _ eq_refl
                ltac:(lia) ltac:(lia) ltac:(lia) ltac:(lia) ltac:(lia)).
  assert (Hcount : forall type,
             List.length (filter (fun p => String.eqb p type) (map PunishmentTable.type mine))
             = List.length (filter (fun r => String.eqb (PunishmentTable.type r) type) mine)).
  { intros type. clear. induction mine as [| r l IH]; simpl; [reflexivity |].
    destruct (String.eqb (PunishmentTable.type r) type); simpl; now rewrite IH. }
  rewrite !Hcount, length_map in *. rewrite !Z.add_0_l in *.
  repeat (split; [reflexivity |]).
  split; [tauto |]. split; [reflexivity |].
  apply inj_le. unfold mine. apply count_filter_le. intros r Hr.
  apply andb_true_iff in Hr. destruct Hr as [Hr Hv].
  apply andb_true_iff in Hr. destruct Hr as [Hg _].
  now rewrite Hg, Hv.
Qed.

Lemma fetch_moderation_statistics_adds_up_witness :
  let data := fetch_moderation_statistics sample_cases 10 30 in
  bans data = 1 /\ kicks data = 0 /\ jails data = 0 /\ warnings data = 0
  /\ bans data + kicks data + jails data + warnings data <= user_total data
  /\ user_total data = 2
  /\ user_total data <= guild_total data.
Proof.
  exact (fetch_moderation_statistics_adds_up sample_cases 10 30).
Defined.

(** X23.  The bans to lift.  Every case that [fetch_active_guild_bans]
    returns is a visible ban of the guild that is not handled and has an
    expiry date that has passed, so a ban without an expiry date is never
    returned; after the bans of a user are expired none of them is
    returned again, and neither is a case that was set handled. *)
Theorem fetch_active_guild_bans_unhandled (ban_value : String.string) (now : Z)
    (db : Punishments) (guild_id : Z) :
  Forall (fun c =>
            PunishmentTable.guild_id c = guild_id
            /\ PunishmentTable.type c = ban_value
            /\ PunishmentTable.visible c = true
            /\ PunishmentTable.handled c = false
            /\ exists date, PunishmentTable.expire_date c = Some date /\ date <= now)
         (fetch_active_guild_bans ban_value now db guild_id)
  /\ (forall expired_at user_id,
        Forall (fun c => PunishmentTable.user_id c <> user_id)
               (fetch_active_guild_bans ban_value now
                  (expire_cases_by_type expired_at db ban_value guild_id user_id)
                  guild_id))
  /\ (forall id reason expire_date visible,
        Forall (fun c => PunishmentTable.id c <> id)
               (fetch_active_guild_bans ban_value now
                  (update_case_by_internal_id db id reason expire_date visible true)
                  guild_id)).
Proof.
  assert (Hkept : forall db0 c,
             In c (fetch_active_guild_bans ban_value now db0 guild_id) ->
             In c (rows (cases db0))
             /\ PunishmentTable.guild_id c = guild_id
             /\ PunishmentTable.type c = ban_value
             /\ PunishmentTable.visible c = true
             /\ PunishmentTable.handled c = false
             /\ exists date, PunishmentTable.expire_date c = Some date /\ date <= now).
  { intros db0 c Hc. unfold fetch_active_guild_bans in Hc. apply filter_In in Hc.
    destruct Hc as [Hc Hkeep]. repeat (apply andb_true_iff in Hkeep;
      let H := fresh "Hcond" in destruct Hkeep as [Hkeep H]).
    apply Z.eqb_eq in Hkeep. apply String.eqb_eq in Hcond0.
    destruct (PunishmentTable.visible c); [| discriminate].
    destruct (PunishmentTable.handled c); [discriminate |].
    destruct (PunishmentTable.expire_date c) as [date |]; [| discriminate].
    apply Z.leb_le in Hcond3. repeat split; auto. now exists date. }
  split; [| split].
  - rewrite Forall_forall. intros c Hc. exact (proj2 (Hkept db c Hc)).
  - intros expired_at user_id. rewrite Forall_forall. intros c Hc Huser.
    destruct (Hkept _ c Hc) as [Hin [Hguild [Htype [_ [Hhandled _]]]]].
    simpl in Hin. apply in_map_iff in Hin. destruct Hin as [r [Hr _]].
    destruct (String.eqb (PunishmentTable.type r) ban_value
              && (PunishmentTable.guild_id r =? guild_id)
              && (PunishmentTable.user_id r =? user_id)) eqn:Hmatch.
    + subst c. simpl in Hhandled. discriminate.
    + subst c. rewrite <- Htype, String.eqb_refl in Hmatch.
      rewrite Hguild, Huser, !Z.eqb_refl in Hmatch. discriminate.
  - intros id reason expire_date visible. rewrite Forall_forall. intros c Hc Hid.
    destruct (Hkept _ c Hc) as [Hin [_ [_ [_ [Hhandled _]]]]].
    simpl in Hin. apply in_map_iff in Hin. destruct Hin as [r [Hr _]].
    destruct (PunishmentTable.id r =? id) eqn:Hmatch.
    + subst c. simpl in Hhandled. discriminate.
    + subst c. apply Z.eqb_neq in Hmatch. contradiction.
Qed.

Lemma fetch_head_filter {A : Type} (keep keep' : A -> bool) (change : A -> A)
    (l : list A) (c : A) :
  (forall x, keep' (change x) = true -> keep x = true) ->
  change c = c -> keep' c = true ->
  hd_error (filter keep l) = Some c ->
  hd_error (filter keep' (map change l)) = Some c.
Proof.
  intros Himp Hsame Hkeep. induction l as [| x l IH]; simpl; [discriminate |].
  destruct (keep x) eqn:Hx; simpl.
  - intros [= ->]. now rewrite Hsame, Hkeep.
  - intros Hhead. destruct (keep' (change x)) eqn:Hx'.
    + rewrite (Himp x Hx') in Hx. discriminate.
    + now apply IH.
Qed.

(** X24.  A hidden case is out of reach: [_fetch_case] returns visible
    cases only, never the case that [update_case_by_internal_id] has just
    hidden, and every other case it returned before it returns still. *)
Theorem hidden_case_not_fetched (db : Punishments) (id : Z)
    (reason : option String.string) (expire_date : option Z) (handled : bool) :
  let db' := update_case_by_internal_id db id reason expire_date false handled in
  (forall guild_id case_id c,
      _fetch_case db' guild_id case_id = Some c ->
      PunishmentTable.visible c = true /\ PunishmentTable.id c <> id)
  /\ (forall guild_id case_id c,
        _fetch_case db guild_id case_id = Some c ->
        PunishmentTable.id c <> id ->
        _fetch_case db' guild_id case_id = Some c).
Proof.
  intros db'.
  assert (Hhd : forall db0 g k,
             _fetch_case db0 g k
             = hd_error (filter (fun r => (PunishmentTable.case_id r =? k)
                                          && (PunishmentTable.guild_id r =? g)
                                          && Bool.eqb (PunishmentTable.visible r) true)
                                (rows (cases db0)))).
  { intros db0 g k. unfold _fetch_case. destruct (filter _ _); reflexivity. }
  split.
  - intros guild_id case_id c Hfetch. unfold _fetch_case in Hfetch.
    destruct (filter _ (rows (cases db'))) as [| x rest] eqn:Hsel; [discriminate |].
    injection Hfetch as ->.
    assert (Hc : In c (filter (fun r => (PunishmentTable.case_id r =? case_id)
                                        && (PunishmentTable.guild_id r =? guild_id)
                                        && Bool.eqb (PunishmentTable.visible r) true)
                              (rows (cases db')))) by (rewrite Hsel; now left).
    apply filter_In in Hc. destruct Hc as [Hc Hkeep].
    apply andb_true_iff in Hkeep. destruct Hkeep as [_ Hvisible].
    destruct (PunishmentTable.visible c) eqn:Hv; [| discriminate].
    split; [reflexivity |]. intros Hid.
    simpl in Hc. apply in_map_iff in Hc. destruct Hc as [r [Hr _]].
    destruct (PunishmentTable.id r =? id) eqn:Hmatch.
    + subst c. simpl in Hv. discriminate.
    + subst c. apply Z.eqb_neq in Hmatch. contradiction.
  - intros guild_id case_id c Hfetch Hid. rewrite Hhd in *.
    unfold db', update_case_by_internal_id. simpl.
    assert (Hc : In c (filter (fun r => (PunishmentTable.case_id r =? case_id)
                                        && (PunishmentTable.guild_id r =? guild_id)
                                        && Bool.eqb (PunishmentTable.visible r) true)
                              (rows (cases db)))).
    { destruct (filter _ (rows (cases db))) as [| x rest]; [discriminate |].
      injection Hfetch as ->. now left. }
    apply filter_In in Hc. destruct Hc as [_ Hkeep].
    eapply fetch_head_filter; [| | exact Hkeep | exact Hfetch].
    + intros x. destruct (PunishmentTable.id x =? id); simpl; [| tauto].
      rewrite andb_false_r. discriminate.
    + simpl. apply Z.eqb_neq in Hid. now rewrite Hid.
Qed.

Lemma hidden_case_not_fetched_witness :
  _fetch_case (update_case_by_internal_id sample_cases 1 None None false false) 10 2
  = Some (PunishmentTable.mk 2 2 "mute"%string 10 21 None 30 None None 5001 None false true).
Proof.
  apply (proj2 (hidden_case_not_fetched sample_cases 1 None None false)).
  - reflexivity.
  - discriminate.
Defined.

(** ** Member levels: the states of a guild *)

(** X25.  The states of a guild list the rows of the guild, without a
    rank: the state of every member of the guild is among them, and in a
    table with one row per member no user appears twice and every state
    listed is the one read for its user. *)
Theorem fetch_guild_level_infos_members (db : UserLevels) (guild_id : Z) :
  (forall user_id info,
      fetch_user_level_info db guild_id user_id = Some info ->
      In info (fetch_guild_level_infos db guild_id))
  /\ Forall (fun info => MemberLevelInfo.guild_id info = guild_id
                         /\ MemberLevelInfo.rank info = None)
            (fetch_guild_level_infos db guild_id)
  /\ (one_row_per_member db ->
      NoDup (map MemberLevelInfo.user_id (fetch_guild_level_infos db guild_id))
      /\ forall info,
           In info (fetch_guild_level_infos db guild_id) ->
           fetch_user_level_info db guild_id (MemberLevelInfo.user_id info) = Some info).
Proof.
  unfold fetch_guild_level_infos. split; [| split].
  - intros user_id info Hfetch.
    destruct (fetch_head_row _ _ _ _ Hfetch) as [r [_ [_ [-> [Hr Hmember]]]]].
    apply in_map, filter_In. split; [exact Hr |].
    unfold is_member_row in Hmember. apply andb_true_iff in Hmember. tauto.
  - rewrite Forall_forall. intros info Hinfo. apply in_map_iff in Hinfo.
    destruct Hinfo as [r [<- Hr]]. apply filter_In in Hr. simpl.
    split; [now apply Z.eqb_eq | reflexivity].
  - intros Hone. unfold one_row_per_member in Hone. split.
    + rewrite map_map. simpl.
      induction (rows db) as [| r l IH]; simpl; [constructor |].
      apply NoDup_cons_iff in Hone. destruct Hone as [Hfresh Hone].
      destruct (UserLevelsTable.guild_id r =? guild_id) eqn:Hguild; [| now apply IH].
      simpl. constructor; [| now apply IH].
      intros Hin. apply in_map_iff in Hin. destruct Hin as [x [Huser Hx]].
      apply filter_In in Hx. destruct Hx as [Hx Hxguild].
      apply Z.eqb_eq in Hguild. apply Z.eqb_eq in Hxguild.
      apply Hfresh. apply in_map_iff. exists x. split; [| exact Hx].
      unfold member_of. congruence.
    + intros info Hinfo. apply in_map_iff in Hinfo. destruct Hinfo as [r [<- Hr]].
      apply filter_In in Hr. destruct Hr as [Hr Hguild]. simpl.
      unfold fetch_user_level_info.
      assert (Hmember : is_member_row guild_id (UserLevelsTable.user_id r) r = true)
        by (unfold is_member_row; now rewrite Hguild, Z.eqb_refl).
      pose proof (one_member_row guild_id (UserLevelsTable.user_id r) (rows db) Hone) as Hmost.
      assert (Hsel : In r (filter (is_member_row guild_id (UserLevelsTable.user_id r)) (rows db)))
        by (apply filter_In; auto).
      destruct (filter (is_member_row guild_id (UserLevelsTable.user_id r)) (rows db))
        as [| x [| y rest]]; [destruct Hsel | | simpl in Hmost; lia].
      destruct Hsel as [-> | []]. reflexivity.
Qed.

Lemma fetch_guild_level_infos_members_witness :
  In (MemberLevelInfo.mk 2 10 21 40 40 100 0 None None) (fetch_guild_level_infos sample_levels 10)
  /\ NoDup (map MemberLevelInfo.user_id (fetch_guild_level_infos sample_levels 10)).
Proof.
  destruct (fetch_guild_level_infos_members sample_levels 10) as [Hin [_ Hone]].
  split.
  - apply (Hin 21). reflexivity.
  - apply Hone. change (NoDup [(10, 20); (10, 21); (11, 20)]).
    repeat (constructor; [simpl; intuition congruence |]). constructor.
Defined.

Lemma fetch_active_guild_bans_unhandled_witness :
  Forall (fun c => PunishmentTable.user_id c <> 20)
         (fetch_active_guild_bans "ban"%string 9000
            (expire_cases_by_type 6000 sample_cases "ban"%string 10 20) 10).
Proof.
  exact (proj1 (proj2 (fetch_active_guild_bans_unhandled "ban"%string 9000 sample_cases 10))
           6000 20).
Defined.
